(** * A shallow embedding of the FastClick TCP middlebox core

    The development follows the sources:
    - [src/include/click/tcpelement.hh]   (module [TCPElement])
    - [src/elements/middlebox/tcpin.cc]   (module [TCPIn])
    - [src/include/click/flowbuffer.hh]   (module [FlowBuffer])
    - [src/elements/ip/ipmirror.cc]       (module [IPMirror])
    The ByteStream maintainer, which has no source file here, is kept behind
    an interface ([MiddleboxOps]) and modelled once from the specification
    (module [ByteStreamMaintainer]). *)

From Stdlib Require Import ZArith Lia List Bool.
From Stdlib.Strings Require Import Byte.
From stdpp Require Import base option list gmap.
Import ListNotations.
Open Scope Z_scope.

(** ** Machine integers

    [uint8_t], [uint16_t] and [uint32_t] ([tcp_seq_t]) are integers of [Z]
    reduced modulo their width; [int] is the signed reading of 32 bits. *)
Module MachineInt.

Definition wrap (width : Z) (z : Z) : Z := z mod 2 ^ width.
Definition u8 : Z -> Z := wrap 8.
Definition u16 : Z -> Z := wrap 16.
Definition u32 : Z -> Z := wrap 32.

(** The conversion [(int) x] of a 32-bit value. *)
Definition to_int (z : Z) : Z :=
  let u := u32 z in if u <? 2 ^ 31 then u else u - 2 ^ 32.

Definition is_u32 (z : Z) : Prop := 0 <= z < 2 ^ 32.
Definition is_u16 (z : Z) : Prop := 0 <= z < 2 ^ 16.

Lemma u32_range z : is_u32 (u32 z).
Proof. unfold is_u32, u32, wrap. apply Z.mod_pos_bound. lia. Qed.

Lemma u16_range z : is_u16 (u16 z).
Proof. unfold is_u16, u16, wrap. apply Z.mod_pos_bound. lia. Qed.

Lemma u32_id z : is_u32 z -> u32 z = z.
Proof. unfold is_u32, u32, wrap. intros Hz. apply Z.mod_small. exact Hz. Qed.

Lemma u16_id z : is_u16 z -> u16 z = z.
Proof. unfold is_u16, u16, wrap. intros Hz. apply Z.mod_small. exact Hz. Qed.

Lemma u32_idem z : u32 (u32 z) = u32 z.
Proof. apply u32_id, u32_range. Qed.

Lemma u32_add_l a b : u32 (u32 a + b) = u32 (a + b).
Proof. unfold u32, wrap. apply Zplus_mod_idemp_l. Qed.

End MachineInt.
Import MachineInt.

(** ** tcpelement.hh: the header accessors of a TCP packet *)
Module TCPElement.

(** Modelled from the spec: [clicknet/tcp.h] is not among the sources; the
    flag bits are those of the TCP header, and [SEQ_LT] is the sequence
    comparison modulo 2^32 ("strictly less"), the sign of the 32-bit
    difference. *)
Definition TH_FIN : Z := 1.
Definition TH_SYN : Z := 2.
Definition TH_RST : Z := 4.
Definition TH_PUSH : Z := 8.
Definition TH_ACK : Z := 16.

Definition SEQ_LT (x y : Z) : bool := to_int (x - y) <? 0.

(** A packet: the fields of the IP and TCP headers the elements read
    (kept in host order, so that [ntohl]/[htonl] are the identity on them),
    the bytes between [data()] and [end_data()], the offset of the transport
    header and the two middlebox annotations.  The TCP header is the memory
    at [data() + transport_header_offset()]: a write to one of its fields is
    also a write to the bytes of [data] that hold the field, as far as they
    lie between [data()] and [end_data()]. *)
Record Packet : Type := mkPacket {
  ip_hl : Z;
  ip_len : Z;
  ip_src : Z;
  ip_dst : Z;
  th_sport : Z;
  th_dport : Z;
  th_seq : Z;
  th_ack : Z;
  th_off : Z;
  th_flags : Z;
  transport_header_offset : Z;
  data : list byte;
  contentOffset : Z;
  dirty : bool
}.

(** [Packet::length()]. *)
Definition packet_length (p : Packet) : Z := Z.of_nat (List.length (data p)).

Definition with_flags (f : Z) (p : Packet) : Packet :=
  mkPacket (ip_hl p) (ip_len p) (ip_src p) (ip_dst p) (th_sport p) (th_dport p)
    (th_seq p) (th_ack p) (th_off p) f (transport_header_offset p) (data p)
    (contentOffset p) (dirty p).

Definition with_ack (a : Z) (p : Packet) : Packet :=
  mkPacket (ip_hl p) (ip_len p) (ip_src p) (ip_dst p) (th_sport p) (th_dport p)
    (th_seq p) a (th_off p) (th_flags p) (transport_header_offset p) (data p)
    (contentOffset p) (dirty p).

Definition with_data (d : list byte) (p : Packet) : Packet :=
  mkPacket (ip_hl p) (ip_len p) (ip_src p) (ip_dst p) (th_sport p) (th_dport p)
    (th_seq p) (th_ack p) (th_off p) (th_flags p) (transport_header_offset p) d
    (contentOffset p) (dirty p).

Definition with_contentOffset (o : Z) (p : Packet) : Packet :=
  mkPacket (ip_hl p) (ip_len p) (ip_src p) (ip_dst p) (th_sport p) (th_dport p)
    (th_seq p) (th_ack p) (th_off p) (th_flags p) (transport_header_offset p)
    (data p) o (dirty p).

Definition with_dirty (b : bool) (p : Packet) : Packet :=
  mkPacket (ip_hl p) (ip_len p) (ip_src p) (ip_dst p) (th_sport p) (th_dport p)
    (th_seq p) (th_ack p) (th_off p) (th_flags p) (transport_header_offset p)
    (data p) (contentOffset p) b.

Definition getSourceAddress (p : Packet) : Z := ip_src p.
Definition getDestinationAddress (p : Packet) : Z := ip_dst p.
Definition getSourcePort (p : Packet) : Z := th_sport p.
Definition getDestinationPort (p : Packet) : Z := th_dport p.
Definition getSequenceNumber (p : Packet) : Z := th_seq p.
Definition getAckNumber (p : Packet) : Z := th_ack p.

(** The byte [z mod 256], and the four bytes of [htonl(z)]. *)
Definition byteOf (z : Z) : byte :=
  default Byte.x00 (Byte.of_N (Z.to_N (z mod 256))).

Definition htonl (z : Z) : list byte :=
  [byteOf (Z.shiftr z 24); byteOf (Z.shiftr z 16); byteOf (Z.shiftr z 8); byteOf z].

(** A store of one byte at [data() + at_]; outside the bytes of the packet
    it changes none of them. *)
Definition writeByte (at_ : Z) (b : byte) (d : list byte) : list byte :=
  if (0 <=? at_) && (at_ <? Z.of_nat (List.length d))
  then <[Z.to_nat at_ := b]> d
  else d.

Fixpoint writeAt (at_ : Z) (bytes d : list byte) : list byte :=
  match bytes with
  | [] => d
  | b :: rest => writeAt (at_ + 1) rest (writeByte at_ b d)
  end.

(** A store in the TCP header, [offset] bytes after [transport_header()]. *)
Definition writeTransportHeader (offset : Z) (bytes : list byte) (p : Packet)
    : Packet :=
  with_data (writeAt (transport_header_offset p + offset) bytes (data p)) p.

(** [tcph->th_ack = htonl(ack)]: the field is at bytes 8 to 11 of the TCP
    header. *)
Definition setAckNumber (p : Packet) (ack : Z) : Packet :=
  writeTransportHeader 8 (htonl ack) (with_ack ack p).

(** [tcph->th_flags = flags]: the field is byte 13 of the TCP header. *)
Definition writeFlags (flags : Z) (p : Packet) : Packet :=
  writeTransportHeader 13 [byteOf flags] (with_flags flags p).
Definition getFlags (p : Packet) : Z := th_flags p.

Definition checkFlag (p : Packet) (flag : Z) : bool :=
  negb (Z.land (th_flags p) flag =? 0).

Definition isSyn (p : Packet) : bool := checkFlag p TH_SYN.
Definition isFin (p : Packet) : bool := checkFlag p TH_FIN.
Definition isRst (p : Packet) : bool := checkFlag p TH_RST.
Definition isAck (p : Packet) : bool := checkFlag p TH_ACK.

(** [ip_len - iph_len - tcp_offset], computed on [unsigned]. *)
Definition getPayloadLength (p : Packet) : Z :=
  let iph_len := u32 (Z.shiftl (ip_hl p) 2) in
  let tcp_offset := u32 (Z.shiftl (th_off p) 2) in
  u32 (ip_len p - iph_len - tcp_offset).

Definition getPayloadOffset (p : Packet) : Z :=
  let tcph_len := u32 (Z.shiftl (th_off p) 2) in
  u16 (transport_header_offset p + tcph_len).

Definition getNextSequenceNumber (p : Packet) : Z :=
  let currentSeq := getSequenceNumber p in
  let nextSeq := u32 (currentSeq + getPayloadLength p) in
  if isFin p || isSyn p then u32 (nextSeq + 1) else nextSeq.

Definition isJustAnAck (p : Packet) : bool :=
  if 0 <? getPayloadLength p then false
  else if th_flags p =? TH_ACK then true else false.

(** A packet whose header fields fit their C types. *)
Record wf_packet (p : Packet) : Prop := {
  wf_ip_hl : 0 <= ip_hl p < 16;
  wf_ip_len : is_u16 (ip_len p);
  wf_ip_src : is_u32 (ip_src p);
  wf_ip_dst : is_u32 (ip_dst p);
  wf_sport : is_u16 (th_sport p);
  wf_dport : is_u16 (th_dport p);
  wf_seq : is_u32 (th_seq p);
  wf_ack : is_u32 (th_ack p);
  wf_off : 0 <= th_off p < 16;
  wf_flags : 0 <= th_flags p < 256
}.

(** *** Flags as bits *)

Lemma land_pow2_eqb (f i : Z) :
  0 <= i -> (Z.land f (2 ^ i) =? 0) = negb (Z.testbit f i).
Proof.
  intros Hi. destruct (Z.testbit f i) eqn:E; cbn.
  - apply Z.eqb_neq. intros H.
    assert (Hbit : Z.testbit (Z.land f (2 ^ i)) i = true).
    { rewrite Z.land_spec, E, Z.pow2_bits_true by exact Hi. reflexivity. }
    rewrite H, Z.bits_0 in Hbit. discriminate.
  - apply Z.eqb_eq. apply Z.bits_inj'. intros n Hn.
    rewrite Z.land_spec, Z.bits_0, Z.pow2_bits_eqb by exact Hi.
    destruct (Z.eqb_spec i n) as [->|_].
    + rewrite E. reflexivity.
    + apply andb_false_r.
Qed.

Lemma checkFlag_testbit (p : Packet) (i : Z) :
  0 <= i -> checkFlag p (2 ^ i) = Z.testbit (th_flags p) i.
Proof.
  intros Hi. unfold checkFlag. rewrite land_pow2_eqb by exact Hi.
  apply negb_involutive.
Qed.

Lemma isFin_testbit (p : Packet) : isFin p = Z.testbit (th_flags p) 0.
Proof. apply (checkFlag_testbit p 0). lia. Qed.

Lemma isSyn_testbit (p : Packet) : isSyn p = Z.testbit (th_flags p) 1.
Proof. apply (checkFlag_testbit p 1). lia. Qed.

Lemma isRst_testbit (p : Packet) : isRst p = Z.testbit (th_flags p) 2.
Proof. apply (checkFlag_testbit p 2). lia. Qed.

Lemma isAck_testbit (p : Packet) : isAck p = Z.testbit (th_flags p) 4.
Proof. apply (checkFlag_testbit p 4). lia. Qed.

(** Setting a flag with [th_flags | flag] on [uint8_t]. *)
Lemma testbit_u8_lor (f g i : Z) :
  0 <= i < 8 ->
  Z.testbit (u8 (Z.lor f g)) i = Z.testbit f i || Z.testbit g i.
Proof.
  intros Hi. unfold u8, wrap.
  rewrite Z.mod_pow2_bits_low by lia. apply Z.lor_spec.
Qed.

Lemma isJustAnAck_flags (p : Packet) :
  isJustAnAck p = true -> th_flags p = TH_ACK /\ getPayloadLength p = 0.
Proof.
  unfold isJustAnAck. intros H.
  destruct (0 <? getPayloadLength p) eqn:Hlen; [discriminate|].
  destruct (th_flags p =? TH_ACK) eqn:Hflags; [|discriminate].
  split; [apply Z.eqb_eq; exact Hflags|].
  apply Z.ltb_ge in Hlen.
  pose proof (u32_range (ip_len p - u32 (Z.shiftl (ip_hl p) 2)
                                 - u32 (Z.shiftl (th_off p) 2))) as Hr.
  unfold getPayloadLength in *. unfold is_u32 in Hr. lia.
Qed.

Lemma isJustAnAck_isAck (p : Packet) : isJustAnAck p = true -> isAck p = true.
Proof.
  intros H. apply isJustAnAck_flags in H as [Hf _].
  unfold isAck, checkFlag. rewrite Hf. reflexivity.
Qed.

Lemma isJustAnAck_not_syn (p : Packet) : isJustAnAck p = true -> isSyn p = false.
Proof.
  intros H. apply isJustAnAck_flags in H as [Hf _].
  unfold isSyn, checkFlag. rewrite Hf. reflexivity.
Qed.

Lemma SEQ_LT_irrefl (x : Z) : SEQ_LT x x = false.
Proof. unfold SEQ_LT. rewrite Z.sub_diag. reflexivity. Qed.

(** *** Stores in the bytes of a packet *)

Lemma length_writeByte (at_ : Z) (b : byte) (d : list byte) :
  List.length (writeByte at_ b d) = List.length d.
Proof.
  unfold writeByte. destruct (_ && _); [apply length_insert | reflexivity].
Qed.

Lemma length_writeAt (bytes : list byte) (at_ : Z) (d : list byte) :
  List.length (writeAt at_ bytes d) = List.length d.
Proof.
  revert at_ d. induction bytes as [|b rest IH]; intros at_ d; cbn [writeAt].
  - reflexivity.
  - rewrite IH. apply length_writeByte.
Qed.

Lemma lookup_writeByte_ne (at_ : Z) (b : byte) (d : list byte) (i : nat) :
  Z.of_nat i <> at_ -> writeByte at_ b d !! i = d !! i.
Proof.
  intros Hi. unfold writeByte.
  destruct (Z.leb_spec 0 at_); cbn [andb]; [|reflexivity].
  destruct (_ <? _); [|reflexivity].
  apply list_lookup_insert_ne. lia.
Qed.

(** A store changes no byte outside the range it is made on. *)
Lemma lookup_writeAt_outside (bytes : list byte) (at_ : Z) (d : list byte) (i : nat) :
  Z.of_nat i < at_ \/ at_ + Z.of_nat (List.length bytes) <= Z.of_nat i ->
  writeAt at_ bytes d !! i = d !! i.
Proof.
  revert at_ d. induction bytes as [|b rest IH]; intros at_ d Hi; cbn [writeAt].
  - reflexivity.
  - cbn [List.length] in Hi. rewrite IH by lia. apply lookup_writeByte_ne. lia.
Qed.

(** *** The payload length and the next sequence number *)

Lemma shiftl_2 (x : Z) : Z.shiftl x 2 = 4 * x.
Proof. rewrite Z.shiftl_mul_pow2 by lia. lia. Qed.

(** [getPayloadLength] subtracts on [unsigned]: when the total length of the
    IP header covers both header lengths the result is the number of bytes
    that follow them; when it does not, the result is not an error but 2^32
    less the deficit, and the packet is then never "just an ACK", whatever
    its flags. *)
Theorem getPayloadLength_wraps_on_short_ip_len (p : Packet) :
  wf_packet p ->
  let headers := 4 * ip_hl p + 4 * th_off p in
  (headers <= ip_len p -> getPayloadLength p = ip_len p - headers) /\
  (ip_len p < headers ->
   getPayloadLength p = 2 ^ 32 - (headers - ip_len p) /\ isJustAnAck p = false).
Proof.
  intros [Hhl Hlen _ _ _ _ _ _ Hoff _] headers. subst headers.
  unfold isJustAnAck, getPayloadLength. rewrite !shiftl_2.
  unfold is_u16 in Hlen.
  rewrite (u32_id (4 * ip_hl p)) by (unfold is_u32; lia).
  rewrite (u32_id (4 * th_off p)) by (unfold is_u32; lia).
  split; intros H.
  - rewrite u32_id by (unfold is_u32; lia). lia.
  - assert (Hwrap : u32 (ip_len p - 4 * ip_hl p - 4 * th_off p)
                    = 2 ^ 32 - (4 * ip_hl p + 4 * th_off p - ip_len p)).
    { unfold u32, wrap.
      replace (ip_len p - 4 * ip_hl p - 4 * th_off p)
        with (2 ^ 32 - (4 * ip_hl p + 4 * th_off p - ip_len p) + (-1) * 2 ^ 32) by lia.
      rewrite Z.mod_add by lia. apply Z.mod_small. lia. }
    rewrite Hwrap. split; [reflexivity|].
    destruct (Z.ltb_spec 0 (2 ^ 32 - (4 * ip_hl p + 4 * th_off p - ip_len p)));
      [reflexivity|lia].
Qed.

(** [getNextSequenceNumber] of a packet that [isJustAnAck] accepts is the
    sequence number of the packet: a pure ACK takes no sequence space. *)
Theorem pure_ack_keeps_the_sequence_number (p : Packet) :
  is_u32 (getSequenceNumber p) ->
  isJustAnAck p = true ->
  getNextSequenceNumber p = getSequenceNumber p.
Proof.
  intros Hseq Hjust.
  destruct (isJustAnAck_flags p Hjust) as [Hflags Hlen].
  unfold getNextSequenceNumber. cbv zeta.
  replace (isFin p) with false
    by (unfold isFin, checkFlag; rewrite Hflags; reflexivity).
  rewrite (isJustAnAck_not_syn p Hjust). cbn [orb].
  rewrite Hlen, Z.add_0_r. apply u32_id. exact Hseq.
Qed.

(** With payload, or with SYN or FIN, the next sequence number is the sum
    modulo 2^32 of the sequence number, the payload length and one for the
    flag. *)
Lemma getNextSequenceNumber_sum (p : Packet) :
  getNextSequenceNumber p =
  u32 (getSequenceNumber p + getPayloadLength p
       + (if isFin p || isSyn p then 1 else 0)).
Proof.
  unfold getNextSequenceNumber. cbv zeta. destruct (isFin p || isSyn p).
  - apply u32_add_l.
  - f_equal. lia.
Qed.

End TCPElement.
Import TCPElement.

(** ** The collaborators of TCPIn that have no source file here

    [ByteStreamMaintainer], [RetransmissionTiming], [ModificationList] and
    [TCPOut] are used by tcpin.cc through the calls below; TCPIn is modelled
    over any implementation of them; each function returns a value of its C
    type ([tcp_seq_t] for the translations).  [tcpout_sendAck] and
    [tcpout_sendClosingPacket] stand for what TCPOut does to the maintainer
    it receives by reference. *)
Class MiddleboxOps (M RT ML : Type) : Type := {
  maintainer_default : M;
  timing_default : RT;
  list_default : ML;
  initialize : M -> M;
  mapAck : M -> Z -> Z;
  mapSeq : M -> Z -> Z;
  getLastAckSent : M -> Z;
  setLastAckReceived : M -> Z -> M;
  prune : M -> Z -> M;
  setIpSrc : M -> Z -> M;
  setIpDst : M -> Z -> M;
  setPortSrc : M -> Z -> M;
  setPortDst : M -> Z -> M;
  signalAck : RT -> Z -> RT;
  addModification : ML -> Z -> Z -> ML;
  tcpout_sendAck : M -> Z -> Z -> Z -> Z -> Z -> Z -> M;
  tcpout_sendClosingPacket : M -> Z -> Z -> Z -> Z -> Z -> Z -> bool -> M
}.

(** ** The ByteStream maintainer, from the specification *)
Module ByteStreamMaintainer.

(** Modelled from the spec: the ByteStream maintainer
    (bytestreammaintainer.hh/.cc) is not among the sources.  Section 3: "a
    sorted associative structure from original sequence number to a signed
    delta", with the scalars last-ACK-sent, last-ACK-received and the
    address fields; the pruning window is left open by the spec and is a
    field here.  Sequence numbers are integers of [Z], as the spec's
    formulas are. *)
Record ByteStreamMaintainer : Type := mkMaintainer {
  modifications : list (Z * Z);
  lastAckSent : Z;
  lastAckReceived : Z;
  ipSrc : Z;
  ipDst : Z;
  portSrc : Z;
  portDst : Z;
  pruneWindow : Z
}.

Definition with_modifications (l : list (Z * Z)) (m : ByteStreamMaintainer) :=
  mkMaintainer l (lastAckSent m) (lastAckReceived m) (ipSrc m) (ipDst m)
               (portSrc m) (portDst m) (pruneWindow m).

(** Modelled from the spec: section 4.1, [insertModification(seq, delta)]:
    "if an entry at that key exists, sum the deltas; otherwise insert", keys
    kept ordered. *)
Fixpoint insertModification (seq delta : Z) (l : list (Z * Z)) : list (Z * Z) :=
  match l with
  | [] => [(seq, delta)]
  | (k, d) :: rest =>
      if seq <? k then (seq, delta) :: (k, d) :: rest
      else if seq =? k then (k, d + delta) :: rest
      else (k, d) :: insertModification seq delta rest
  end.

(** The sum of all deltas with key [<= s]. *)
Fixpoint sumDeltas (l : list (Z * Z)) (s : Z) : Z :=
  match l with
  | [] => 0
  | (k, d) :: rest => (if k <=? s then d else 0) + sumDeltas rest s
  end.

(** Modelled from the spec: section 4.1, [mapSeq(s)]: "return [s] plus the
    sum of all deltas with key [<= s]". *)
Definition mapSeq (l : list (Z * Z)) (s : Z) : Z := s + sumDeltas l s.

(** The largest key of [l] that satisfies [ok], if there is one. *)
Fixpoint largestKey (ok : Z -> bool) (l : list (Z * Z)) : option Z :=
  match l with
  | [] => None
  | (k, _) :: rest =>
      match largestKey ok rest with
      | Some b => if ok k then Some (Z.max k b) else Some b
      | None => if ok k then Some k else None
      end
  end.

(** Modelled from the spec: section 4.1, [mapAck(a)]: "find the largest
    edited key [k_e] such that [mapSeq(k_e) <= a] and return
    [k_e + (a - mapSeq(k_e))]"; an acknowledgment below every edit is
    returned as it is (scenario S1). *)
Definition mapAck (l : list (Z * Z)) (a : Z) : Z :=
  match largestKey (fun k => mapSeq l k <=? a) l with
  | Some k_e => k_e + (a - mapSeq l k_e)
  | None => a
  end.

(** Modelled from the spec: section 4.1, [prune(ack)]: "drop entries whose
    original key is strictly less than [ack] minus the pruning safety
    window". *)
Definition prune (m : ByteStreamMaintainer) (ack : Z) : ByteStreamMaintainer :=
  with_modifications
    (filter (fun kd => bool_decide (ack - pruneWindow m <= kd.1)) (modifications m)) m.

Definition setLastAckReceived (m : ByteStreamMaintainer) (ack : Z) :=
  mkMaintainer (modifications m) (lastAckSent m) ack (ipSrc m) (ipDst m)
               (portSrc m) (portDst m) (pruneWindow m).
Definition setLastAckSent (m : ByteStreamMaintainer) (ack : Z) :=
  mkMaintainer (modifications m) ack (lastAckReceived m) (ipSrc m) (ipDst m)
               (portSrc m) (portDst m) (pruneWindow m).
Definition setIpSrc (m : ByteStreamMaintainer) (v : Z) :=
  mkMaintainer (modifications m) (lastAckSent m) (lastAckReceived m) v (ipDst m)
               (portSrc m) (portDst m) (pruneWindow m).
Definition setIpDst (m : ByteStreamMaintainer) (v : Z) :=
  mkMaintainer (modifications m) (lastAckSent m) (lastAckReceived m) (ipSrc m) v
               (portSrc m) (portDst m) (pruneWindow m).
Definition setPortSrc (m : ByteStreamMaintainer) (v : Z) :=
  mkMaintainer (modifications m) (lastAckSent m) (lastAckReceived m) (ipSrc m)
               (ipDst m) v (portDst m) (pruneWindow m).
Definition setPortDst (m : ByteStreamMaintainer) (v : Z) :=
  mkMaintainer (modifications m) (lastAckSent m) (lastAckReceived m) (ipSrc m)
               (ipDst m) (portSrc m) v (pruneWindow m).

(** A maintainer with no modification recorded. *)
Definition empty : ByteStreamMaintainer := mkMaintainer [] 0 0 0 0 0 0 65536.

(** Modelled from the spec: section 4.4, [signalAck] without its clock: an
    acknowledgment that advances the last one received replaces it, one that
    repeats it counts as a duplicate. *)
Record RetransmissionTiming : Type := mkTiming {
  timingLastAck : Z;
  duplicateAcks : nat
}.

Definition signalAck (r : RetransmissionTiming) (ack : Z) : RetransmissionTiming :=
  if SEQ_LT (timingLastAck r) ack then mkTiming ack 0
  else if timingLastAck r =? ack then mkTiming ack (S (duplicateAcks r))
  else r.

(** [s] is at or before the last edit of [l]. *)
Definition atOrBeforeLastEdit (l : list (Z * Z)) (s : Z) : Prop :=
  exists k d, In (k, d) l /\ s <= k.

(** Every recorded delta is an insertion (or empty). *)
Definition insertionsOnly (l : list (Z * Z)) : Prop :=
  Forall (fun kd => 0 <= kd.2) l.

(** *** The translations on a stream with insertions only *)

Lemma sumDeltas_mono (l : list (Z * Z)) (s1 s2 : Z) :
  insertionsOnly l -> s1 <= s2 -> sumDeltas l s1 <= sumDeltas l s2.
Proof.
  intros Hl Hs. induction Hl as [|[k d] rest Hd _ IH]; cbn [sumDeltas]; [lia|].
  cbn in Hd.
  destruct (Z.leb_spec k s1), (Z.leb_spec k s2); lia.
Qed.

Lemma mapSeq_strictly_increasing (l : list (Z * Z)) (s1 s2 : Z) :
  insertionsOnly l -> s1 < s2 -> mapSeq l s1 < mapSeq l s2.
Proof.
  intros Hl Hs. unfold mapSeq.
  pose proof (sumDeltas_mono l s1 s2 Hl). lia.
Qed.

Lemma mapSeq_le_iff (l : list (Z * Z)) (k s : Z) :
  insertionsOnly l -> (mapSeq l k <=? mapSeq l s) = (k <=? s).
Proof.
  intros Hl.
  destruct (Z.leb_spec k s) as [Hks|Hks].
  - apply Z.leb_le. destruct (Z.eq_dec k s) as [->|Hne]; [lia|].
    pose proof (mapSeq_strictly_increasing l k s Hl). lia.
  - apply Z.leb_gt. apply mapSeq_strictly_increasing; assumption.
Qed.

Lemma largestKey_ext (ok ok' : Z -> bool) (l : list (Z * Z)) :
  (forall k, ok k = ok' k) -> largestKey ok l = largestKey ok' l.
Proof.
  intros Hext. induction l as [|[k d] rest IH]; cbn [largestKey]; [reflexivity|].
  rewrite IH, Hext. reflexivity.
Qed.

Lemma largestKey_None (ok : Z -> bool) (l : list (Z * Z)) :
  largestKey ok l = None -> forall k d, In (k, d) l -> ok k = false.
Proof.
  induction l as [|[k0 d0] rest IH]; cbn [largestKey]; intros Hnone k d Hin.
  - destruct Hin.
  - destruct (largestKey ok rest) eqn:Hrest.
    + destruct (ok k0); discriminate.
    + destruct (ok k0) eqn:Hk0; [discriminate|].
      destruct Hin as [Heq|Hin].
      * inversion Heq; subst. exact Hk0.
      * apply (IH eq_refl k d Hin).
Qed.

Lemma largestKey_Some (ok : Z -> bool) (l : list (Z * Z)) (b : Z) :
  largestKey ok l = Some b ->
  ok b = true /\ (exists d, In (b, d) l) /\
  forall k d, In (k, d) l -> ok k = true -> k <= b.
Proof.
  revert b. induction l as [|[k0 d0] rest IH]; cbn [largestKey]; intros b Hsome.
  - discriminate.
  - destruct (largestKey ok rest) as [b'|] eqn:Hrest.
    + destruct (IH b' eq_refl) as (Hokb' & [db' Hinb'] & Hmax).
      destruct (ok k0) eqn:Hk0; inversion Hsome; subst; clear Hsome.
      * split; [|split].
        -- destruct (Z.max_spec k0 b') as [[_ ->]|[_ ->]]; assumption.
        -- destruct (Z.max_spec k0 b') as [[_ ->]|[_ ->]].
           ++ exists db'. right. exact Hinb'.
           ++ exists d0. left. reflexivity.
        -- intros k d [Heq|Hin] Hok.
           ++ inversion Heq; subst. lia.
           ++ pose proof (Hmax k d Hin Hok). lia.
      * split; [exact Hokb'|]. split; [exists db'; right; exact Hinb'|].
        intros k d [Heq|Hin] Hok.
        -- inversion Heq; subst. congruence.
        -- exact (Hmax k d Hin Hok).
    + destruct (ok k0) eqn:Hk0; inversion Hsome; subst; clear Hsome.
      split; [exact Hk0|]. split; [exists d0; left; reflexivity|].
      intros k d [Heq|Hin] Hok.
      * inversion Heq; subst. lia.
      * pose proof (largestKey_None ok rest Hrest k d Hin). congruence.
Qed.

(** No key lies in the interval from [k] (excluded) to [s]: the two sums
    agree. *)
Lemma sumDeltas_same (l : list (Z * Z)) (k s : Z) :
  k <= s ->
  (forall k' d', In (k', d') l -> k' <= s -> k' <= k) ->
  sumDeltas l k = sumDeltas l s.
Proof.
  intros Hks. induction l as [|[k0 d0] rest IH]; cbn [sumDeltas]; intros Hgap.
  - reflexivity.
  - rewrite IH by (intros k' d' Hin; apply (Hgap k' d'); right; exact Hin).
    pose proof (Hgap k0 d0 (or_introl eq_refl)) as Hk0.
    destruct (Z.leb_spec k0 k), (Z.leb_spec k0 s); lia.
Qed.

Lemma sumDeltas_before_all (l : list (Z * Z)) (s : Z) :
  (forall k d, In (k, d) l -> s < k) -> sumDeltas l s = 0.
Proof.
  induction l as [|[k0 d0] rest IH]; cbn [sumDeltas]; intros Hall.
  - reflexivity.
  - rewrite IH by (intros k d Hin; apply (Hall k d); right; exact Hin).
    pose proof (Hall k0 d0 (or_introl eq_refl)).
    destruct (Z.leb_spec k0 s); lia.
Qed.

(** Recording insertions keeps the stream one of insertions only. *)
Lemma insertModification_insertionsOnly (seq delta : Z) (l : list (Z * Z)) :
  0 <= delta -> insertionsOnly l -> insertionsOnly (insertModification seq delta l).
Proof.
  intros Hdelta Hl. induction Hl as [|[k d] rest Hd Hrest IH]; cbn [insertModification].
  - repeat constructor. exact Hdelta.
  - cbn in Hd. destruct (seq <? k); [|destruct (seq =? k)].
    + repeat constructor; assumption.
    + constructor; [cbn; lia | exact Hrest].
    + constructor; [exact Hd | exact IH].
Qed.

(** C6, amended: for every set of recorded modifications that holds
    insertions only (no negative delta) and every original sequence number
    [s], in particular every one at or before the last edit,
    [mapAck (mapSeq s) = s], with [mapSeq] and [mapAck] as the specification
    defines them. *)
Theorem mapAck_mapSeq_insertions (l : list (Z * Z)) (s : Z) :
  insertionsOnly l -> mapAck l (mapSeq l s) = s.
Proof.
  intros Hl. unfold mapAck.
  rewrite (largestKey_ext _ (fun k => k <=? s))
    by (intros k; apply mapSeq_le_iff; exact Hl).
  destruct (largestKey (fun k => k <=? s) l) as [k_e|] eqn:Hkey.
  - apply largestKey_Some in Hkey as (Hle & _ & Hmax).
    apply Z.leb_le in Hle.
    assert (Hsame : sumDeltas l k_e = sumDeltas l s).
    { apply sumDeltas_same; [exact Hle|].
      intros k' d' Hin Hk'. apply (Hmax k' d' Hin). apply Z.leb_le. exact Hk'. }
    unfold mapSeq. lia.
  - assert (Hzero : sumDeltas l s = 0).
    { apply sumDeltas_before_all. intros k d Hin.
      pose proof (largestKey_None _ l Hkey k d Hin) as Hgt.
      apply Z.leb_gt in Hgt. exact Hgt. }
    unfold mapSeq. lia.
Qed.

(** Scenario S3: three bytes inserted at 1004; the server's ACK of the
    edited 1004 + 3 is the original 1004, and 1002 lies before the edit. *)
Lemma mapAck_mapSeq_after_insertion :
  mapAck (insertModification 1004 3 []) (mapSeq (insertModification 1004 3 []) 1002)
  = 1002.
Proof.
  apply mapAck_mapSeq_insertions. repeat constructor. cbn. lia.
Defined.

(** C6 as stated fails once bytes were removed: with the three bytes at 1004
    removed (scenario S2), the original sequence numbers 1001 and 1004, both
    at or before the last edit, have the same image under [mapSeq], and
    [mapAck] takes it back to 1004, not to 1001. *)
Lemma removal_breaks_the_bijection :
  let l := insertModification 1004 (-3) [] in
  atOrBeforeLastEdit l 1001 /\
  mapSeq l 1001 = mapSeq l 1004 /\
  mapAck l (mapSeq l 1001) = 1004.
Proof.
  cbv zeta. split; [|split; reflexivity].
  exists 1004, (-3). split; [left; reflexivity|lia].
Qed.

End ByteStreamMaintainer.

(** The interface of tcpin.cc, met by the model of the spec.  A modification
    list is the sequence of edits recorded on it; TCPOut forges a
    header-only packet and leaves the maintainer as it is (section 4.6);
    the translations are converted to [tcp_seq_t]. *)
#[global] Instance SpecOps :
    MiddleboxOps ByteStreamMaintainer.ByteStreamMaintainer
                 ByteStreamMaintainer.RetransmissionTiming (list (Z * Z)) := {
  maintainer_default := ByteStreamMaintainer.empty;
  timing_default := ByteStreamMaintainer.mkTiming 0 0;
  list_default := [];
  initialize := fun m => m;
  mapAck := fun m a =>
    u32 (ByteStreamMaintainer.mapAck (ByteStreamMaintainer.modifications m) a);
  mapSeq := fun m s =>
    u32 (ByteStreamMaintainer.mapSeq (ByteStreamMaintainer.modifications m) s);
  getLastAckSent := ByteStreamMaintainer.lastAckSent;
  setLastAckReceived := ByteStreamMaintainer.setLastAckReceived;
  prune := ByteStreamMaintainer.prune;
  setIpSrc := ByteStreamMaintainer.setIpSrc;
  setIpDst := ByteStreamMaintainer.setIpDst;
  setPortSrc := ByteStreamMaintainer.setPortSrc;
  setPortDst := ByteStreamMaintainer.setPortDst;
  signalAck := ByteStreamMaintainer.signalAck;
  addModification := fun l seq delta => l ++ [(seq, delta)];
  tcpout_sendAck := fun m _ _ _ _ _ _ => m;
  tcpout_sendClosingPacket := fun m _ _ _ _ _ _ _ => m
}.

(** ** tcpin.cc *)
Module TCPIn.

(** The flow direction of an element: [configure] accepts 0 and 1 only. *)
Inductive FlowDirection : Type := Dir0 | Dir1.

(** Modelled from the spec: [getOppositeFlowDirection] is declared in a
    header that is not among the sources; the opposite direction is the
    other index (0 <-> 1) of the two-element arrays. *)
Definition opposite (d : FlowDirection) : FlowDirection :=
  match d with Dir0 => Dir1 | Dir1 => Dir0 end.

(** A C array of two elements, indexed by a flow direction. *)
Record Array2 (A : Type) : Type := mkArray2 { at0 : A; at1 : A }.
Arguments mkArray2 {A} _ _.
Arguments at0 {A} _.
Arguments at1 {A} _.

Definition get {A} (d : FlowDirection) (a : Array2 A) : A :=
  match d with Dir0 => at0 a | Dir1 => at1 a end.

Definition set {A} (d : FlowDirection) (v : A) (a : Array2 A) : Array2 A :=
  match d with
  | Dir0 => mkArray2 v (at1 a)
  | Dir1 => mkArray2 (at0 a) v
  end.

Module TCPClosingState.
Inductive Value : Type :=
  | OPEN
  | BEING_CLOSED_GRACEFUL
  | CLOSED_GRACEFUL
  | BEING_CLOSED_UNGRACEFUL
  | CLOSED_UNGRACEFUL.

Definition eqb (a b : Value) : bool :=
    match a, b with
    | OPEN, OPEN
    | BEING_CLOSED_GRACEFUL, BEING_CLOSED_GRACEFUL
    | CLOSED_GRACEFUL, CLOSED_GRACEFUL
    | BEING_CLOSED_UNGRACEFUL, BEING_CLOSED_UNGRACEFUL
    | CLOSED_UNGRACEFUL, CLOSED_UNGRACEFUL => true
    | _, _ => false
    end.

Definition graceful (a : Value) : bool :=
    eqb a BEING_CLOSED_GRACEFUL || eqb a CLOSED_GRACEFUL.
End TCPClosingState.

(** [IPFlowID(saddr, sport, daddr, dport)]. *)
Definition IPFlowID : Type := (Z * Z * Z * Z)%type.

(** What the element hands to the rest of the router: packets it kills, the
    calls to its TCPOut, and the calls it forwards down the stack to
    [StackElement]. *)
Inductive Event : Type :=
| EvKill (p : Packet)
| EvSendAck (maintainer : FlowDirection) (saddr daddr sport dport seq ack : Z)
| EvSendClosingPacket (maintainer : FlowDirection)
    (saddr daddr sport dport seq ack : Z) (graceful : bool)
| EvStackCloseConnection (p : Packet) (graceful bothSides : bool)
| EvStackRemoveBytes (p : Packet) (position length : Z)
| EvStackInsertBytes (p : Packet) (position length : Z)
| EvStackRequestMorePackets (p : Packet)
| EvStackSetPacketDirty (p : Packet).

Inductive Fault : Type :=
| NullPointerDereference
| DanglingPointer
| OutOfPacket.

Section Element.

Context {M RT ML : Type} `{Ops : MiddleboxOps M RT ML}.

(** [struct fcb_tcp_common]. *)
Record fcb_tcp_common : Type := mkCommon {
  maintainers : Array2 M;
  retransmissionTimings : Array2 RT;
  closingStates : Array2 TCPClosingState.Value
}.

(** Modelled from the spec: the constructor of [fcb_tcp_common] is declared
    in a header that is not among the sources; a connection starts with both
    directions [OPEN]. *)
Definition fcb_tcp_common_new : fcb_tcp_common :=
  mkCommon (mkArray2 maintainer_default maintainer_default)
           (mkArray2 timing_default timing_default)
           (mkArray2 TCPClosingState.OPEN TCPClosingState.OPEN).

Definition with_maintainer (d : FlowDirection) (f : M -> M)
    (c : fcb_tcp_common) : fcb_tcp_common :=
  mkCommon (set d (f (get d (maintainers c))) (maintainers c))
           (retransmissionTimings c) (closingStates c).

Definition with_timing (d : FlowDirection) (f : RT -> RT)
    (c : fcb_tcp_common) : fcb_tcp_common :=
  mkCommon (maintainers c)
           (set d (f (get d (retransmissionTimings c))) (retransmissionTimings c))
           (closingStates c).

Definition with_closingState (d : FlowDirection) (v : TCPClosingState.Value)
    (c : fcb_tcp_common) : fcb_tcp_common :=
  mkCommon (maintainers c) (retransmissionTimings c) (set d v (closingStates c)).

(** [struct fcb]: the pointer to the shared record (an address of the pool
    memory, [None] for NULL) and the part owned by this TCPIn.  Pointers to
    the pools and to the table are kept as "is not NULL". *)
Record fcb_tcpin : Type := mkFcbTcpin {
  poolModificationNodes : bool;
  poolModificationLists : bool;
  inChargeOfTcpCommon : bool;
  flowID : option IPFlowID;
  tableTcpCommon : bool;
  poolTcpCommon : bool;
  modificationLists : gmap Z ML
}.

Record fcb : Type := mkFcb {
  tcp_common : option nat;
  tcpin : fcb_tcpin
}.

(** The memory the element works on: the pool of [fcb_tcp_common] records
    (shared by the two directions of a connection), the flow-id table of
    this element and that of its return element, the FCB of the packet
    being processed, and the events produced so far. *)
Record State : Type := mkState {
  heap : gmap nat fcb_tcp_common;
  tableFcbTcpCommon : gmap IPFlowID nat;
  return_tableFcbTcpCommon : gmap IPFlowID nat;
  the_fcb : fcb;
  trace : list Event
}.

Inductive Result (A : Type) : Type :=
| Done (a : A) (s : State)
| Crash (f : Fault).
Arguments Done {A} _ _.
Arguments Crash {A} _.

(** A computation of the element: it reads and writes the state and may
    crash on a bad pointer. *)
Record Exec (A : Type) : Type := mkExec { run : State -> Result A }.
Arguments mkExec {A} _.
Arguments run {A} _ _.

#[export] Instance Exec_ret : MRet Exec := fun A a => mkExec (fun s => Done a s).
#[export] Instance Exec_bind : MBind Exec := fun A B f m =>
  mkExec (fun s =>
    match run m s with
    | Done a s' => run (f a) s'
    | Crash e => Crash e
    end).

Definition crash {A} (e : Fault) : Exec A := mkExec (fun _ => Crash e).

Definition emit (e : Event) : Exec unit := mkExec (fun s =>
  Done tt (mkState (heap s) (tableFcbTcpCommon s) (return_tableFcbTcpCommon s)
                   (the_fcb s) (trace s ++ [e]))).

Definition get_fcb : Exec fcb := mkExec (fun s => Done (the_fcb s) s).

Definition put_fcb (f : fcb) : Exec unit := mkExec (fun s =>
  Done tt (mkState (heap s) (tableFcbTcpCommon s) (return_tableFcbTcpCommon s)
                   f (trace s))).

Definition modify_tcpin (g : fcb_tcpin -> fcb_tcpin) : Exec unit :=
  f ← get_fcb; put_fcb (mkFcb (tcp_common f) (g (tcpin f))).

(** [fcb->tcp_common->...]: reading through the pointer. *)
Definition common : Exec (nat * fcb_tcp_common) := mkExec (fun s =>
  match tcp_common (the_fcb s) with
  | None => Crash NullPointerDereference
  | Some a =>
      match heap s !! a with
      | None => Crash DanglingPointer
      | Some c => Done (a, c) s
      end
  end).

(** [fcb->tcp_common->... = ...]: writing through the pointer. *)
Definition update_common (g : fcb_tcp_common -> fcb_tcp_common) : Exec unit :=
  ac ← common;
  mkExec (fun s =>
    Done tt (mkState (<[ac.1 := g ac.2]> (heap s)) (tableFcbTcpCommon s)
                     (return_tableFcbTcpCommon s) (the_fcb s) (trace s))).

Definition set_tcp_common (a : option nat) : Exec unit :=
  f ← get_fcb; put_fcb (mkFcb a (tcpin f)).

(** [poolFcbTcpCommon.getMemory()] followed by the placement [new]: a record
    of the pool that is not in use, freshly constructed. *)
Definition allocate_common : Exec nat := mkExec (fun s =>
  let a := fresh (dom (heap s)) in
  Done a (mkState (<[a := fcb_tcp_common_new]> (heap s)) (tableFcbTcpCommon s)
                  (return_tableFcbTcpCommon s) (the_fcb s) (trace s))).

(** [tableFcbTcpCommon.set(flowID, allocated)]. *)
Definition table_set (k : IPFlowID) (a : nat) : Exec unit := mkExec (fun s =>
  Done tt (mkState (heap s) (<[k := a]> (tableFcbTcpCommon s))
                   (return_tableFcbTcpCommon s) (the_fcb s) (trace s))).

(** [TCPIn::getTCPCommon], on the table of the element it is called on. *)
Definition getTCPCommon (table : gmap IPFlowID nat) (k : IPFlowID) : option nat :=
  table !! k.

(** [returnElement->getTCPCommon(flowID)]. *)
Definition return_getTCPCommon (k : IPFlowID) : Exec (option nat) :=
  mkExec (fun s => Done (getTCPCommon (return_tableFcbTcpCommon s) k) s).

(** The element: its configured flow direction. *)
Variable flowDirection : FlowDirection.

Definition getFlowDirection : FlowDirection := flowDirection.
Definition getOppositeFlowDirection : FlowDirection := opposite flowDirection.

Definition assignTCPCommon (p : Packet) : Exec bool :=
  let flags := th_flags p in
  if Z.land flags TH_SYN =? 0 then mret false
  else
    (if negb (Z.land flags TH_ACK =? 0) then
       let fid : IPFlowID := (ip_dst p, th_dport p, ip_src p, th_sport p) in
       found ← return_getTCPCommon fid;
       set_tcp_common found;;
       update_common (with_maintainer getFlowDirection initialize);;
       modify_tcpin (fun t =>
         mkFcbTcpin (poolModificationNodes t) (poolModificationLists t) false
                    (flowID t) (tableTcpCommon t) (poolTcpCommon t)
                    (modificationLists t))
     else
       let fid : IPFlowID := (ip_src p, th_sport p, ip_dst p, th_dport p) in
       allocated ← allocate_common;
       table_set fid allocated;;
       set_tcp_common (Some allocated);;
       update_common (with_maintainer getFlowDirection initialize);;
       modify_tcpin (fun t =>
         mkFcbTcpin (poolModificationNodes t) (poolModificationLists t) true
                    (Some fid) true true (modificationLists t)));;
    update_common (with_maintainer getFlowDirection
                     (fun m => setIpSrc m (getSourceAddress p)));;
    update_common (with_maintainer getFlowDirection
                     (fun m => setIpDst m (getDestinationAddress p)));;
    update_common (with_maintainer getFlowDirection
                     (fun m => setPortSrc m (getDestinationPort p)));;
    update_common (with_maintainer getFlowDirection
                     (fun m => setPortDst m (getSourcePort p)));;
    mret true.

(** The acknowledgment number [ackPacket] and [closeConnection] compute for
    a packet, on [tcp_seq_t]. *)
Definition ackFor (p : Packet) : Z :=
  let ack := u32 (getSequenceNumber p + getPayloadLength p) in
  if isFin p || isSyn p then u32 (ack + 1) else ack.

Definition ackPacket (p : Packet) (ackMapped : bool) : Exec unit :=
  let saddr := getDestinationAddress p in
  let daddr := getSourceAddress p in
  let sport := getDestinationPort p in
  let dport := getSourcePort p in
  let seq0 := getAckNumber p in
  seq ← (if ackMapped
         then ac ← common;
              mret (mapSeq (get getOppositeFlowDirection (maintainers ac.2)) seq0)
         else mret seq0);
  let ack := ackFor p in
  update_common (with_maintainer getOppositeFlowDirection
                   (fun m => tcpout_sendAck m saddr daddr sport dport seq ack));;
  emit (EvSendAck getOppositeFlowDirection saddr daddr sport dport seq ack).

Definition checkConnectionClosed (p : Packet) : Exec bool :=
  ac ← common;
  let closingState := get getFlowDirection (closingStates ac.2) in
  if negb (TCPClosingState.eqb closingState TCPClosingState.OPEN) then
    (if TCPClosingState.eqb closingState TCPClosingState.BEING_CLOSED_GRACEFUL
        || TCPClosingState.eqb closingState TCPClosingState.CLOSED_GRACEFUL
     then
       if isFin p || isSyn p || (0 <? getPayloadLength p)
       then ackPacket p false
       else mret tt
     else mret tt);;
    mret false
  else mret true.

Definition setPacketDirty (p : Packet) : Exec Packet :=
  let p' := with_dirty true p in
  emit (EvStackSetPacketDirty p');;
  mret p'.

(** [p->kill(); return NULL;] *)
Definition dropPacket (p : Packet) : Exec (option Packet) :=
  emit (EvKill p);; mret None.

(** [TCPIn::processPacket]: the packet to forward, or [None] for NULL.
    [uniqueify] gives an exclusively owned packet with the same contents. *)
Definition processPacket (p : Packet) : Exec (option Packet) :=
  modify_tcpin (fun t =>
    mkFcbTcpin true true (inChargeOfTcpCommon t) (flowID t) (tableTcpCommon t)
               (poolTcpCommon t) (modificationLists t));;
  f ← get_fcb;
  proceed ← match tcp_common f with
            | None => assignTCPCommon p
            | Some _ => mret (negb (isSyn p))
            end;
  if negb proceed then dropPacket p
  else
    open ← checkConnectionClosed p;
    if negb open then dropPacket p
    else
      let packet := p in
      let offset := getPayloadOffset packet in
      let packet := with_contentOffset offset packet in
      let seqNumber := getSequenceNumber packet in
      ac ← common;
      let lastAckSentOtherSide :=
        getLastAckSent (get getOppositeFlowDirection (maintainers ac.2)) in
      if negb (isSyn packet) && SEQ_LT seqNumber lastAckSentOtherSide then
        ackPacket packet false;;
        dropPacket packet
      else if isAck packet then
        let ackNumber := getAckNumber packet in
        ac ← common;
        let newAckNumber :=
          mapAck (get getOppositeFlowDirection (maintainers ac.2)) ackNumber in
        update_common (with_maintainer getFlowDirection
                         (fun m => setLastAckReceived m ackNumber));;
        update_common (with_maintainer getOppositeFlowDirection
                         (fun m => prune m ackNumber));;
        update_common (with_timing getOppositeFlowDirection
                         (fun r => signalAck r ackNumber));;
        ac ← common;
        if isJustAnAck packet
           && SEQ_LT newAckNumber
                (getLastAckSent (get getFlowDirection (maintainers ac.2)))
        then dropPacket packet
        else if negb (ackNumber =? newAckNumber) then
          packet ← setPacketDirty (setAckNumber packet newAckNumber);
          mret (Some packet)
        else mret (Some packet)
      else mret (Some packet).

Definition closeConnection (p : Packet) (graceful bothSides : bool) : Exec Packet :=
  let newFlag := if graceful then TH_FIN else TH_RST in
  let packet := writeFlags (u8 (Z.lor (th_flags p) newFlag)) p in
  let newStateSelf :=
    if negb graceful then TCPClosingState.BEING_CLOSED_UNGRACEFUL
    else TCPClosingState.BEING_CLOSED_GRACEFUL in
  let newStateOther :=
    if negb graceful then TCPClosingState.CLOSED_UNGRACEFUL
    else TCPClosingState.CLOSED_GRACEFUL in
  update_common (with_closingState getFlowDirection newStateSelf);;
  (if bothSides then
     update_common (with_closingState getOppositeFlowDirection newStateOther);;
     let saddr := getDestinationAddress packet in
     let daddr := getSourceAddress packet in
     let sport := getDestinationPort packet in
     let dport := getSourcePort packet in
     ac ← common;
     let seq :=
       mapSeq (get getOppositeFlowDirection (maintainers ac.2))
              (getAckNumber packet) in
     let ack := ackFor packet in
     update_common (with_maintainer getOppositeFlowDirection
                      (fun m => tcpout_sendClosingPacket m saddr daddr sport dport
                                  seq ack graceful));;
     emit (EvSendClosingPacket getOppositeFlowDirection saddr daddr sport dport
                               seq ack graceful)
   else mret tt);;
  emit (EvStackCloseConnection packet graceful bothSides);;
  mret packet.

(** [TCPIn::getModificationList]: the list of the packet's sequence number,
    created from the pool of the FCB when there is none. *)
Definition getModificationList (p : Packet) : Exec ML :=
  f ← get_fcb;
  let t := tcpin f in
  match modificationLists t !! getSequenceNumber p with
  | Some list => mret list
  | None =>
      if poolModificationLists t then
        modify_tcpin (fun t =>
          mkFcbTcpin (poolModificationNodes t) (poolModificationLists t)
                     (inChargeOfTcpCommon t) (flowID t) (tableTcpCommon t)
                     (poolTcpCommon t)
                     (<[getSequenceNumber p := list_default]> (modificationLists t)));;
        mret list_default
      else crash NullPointerDereference
  end.

Definition hasModificationList (p : Packet) : Exec bool :=
  f ← get_fcb;
  mret (bool_decide (is_Some (modificationLists (tcpin f) !! getSequenceNumber p))).

(** [list->addModification(seq, delta)] on the list [getModificationList]
    returned: the list lives in the table of the FCB. *)
Definition list_addModification (p : Packet) (list : ML) (seq delta : Z) : Exec unit :=
  modify_tcpin (fun t =>
    mkFcbTcpin (poolModificationNodes t) (poolModificationLists t)
               (inChargeOfTcpCommon t) (flowID t) (tableTcpCommon t)
               (poolTcpCommon t)
               (<[getSequenceNumber p := addModification list seq delta]>
                  (modificationLists t))).

(** [TCPIn::removeBytes].  [memmove] followed by [take] leaves the bytes
    before [position] and those from [position + length] on; the source
    relies on the range lying inside the packet. *)
Definition removeBytes (p : Packet) (position length : Z) : Exec Packet :=
  list ← getModificationList p;
  let seqNumber := getSequenceNumber p in
  let tcpOffset := getPayloadOffset p in
  let position := u32 (position + contentOffset p) in
  list_addModification p list (u32 (seqNumber + position - tcpOffset))
                       (to_int (- to_int length));;
  if position + length <=? packet_length p then
    let packet :=
      with_data (take (Z.to_nat position) (data p)
                 ++ drop (Z.to_nat (position + length)) (data p)) p in
    emit (EvStackRemoveBytes packet position length);;
    mret packet
  else crash OutOfPacket.

(** [TCPIn::insertBytes].  [put] lengthens the packet by [length] bytes
    (zero here) and [memmove] shifts the tail up; the gap keeps the bytes it
    held, for the caller to overwrite. *)
Definition insertBytes (p : Packet) (position length : Z) : Exec Packet :=
  let seqNumber := getSequenceNumber p in
  let tcpOffset := getPayloadOffset p in
  let position := u32 (position + contentOffset p) in
  list ← getModificationList p;
  list_addModification p list (u32 (seqNumber + position - tcpOffset))
                       (to_int length);;
  if position <=? packet_length p then
    let extended := data p ++ replicate (Z.to_nat length) Byte.x00 in
    let newPacket :=
      with_data (take (Z.to_nat position) (data p)
                 ++ take (Z.to_nat length) (drop (Z.to_nat position) extended)
                 ++ drop (Z.to_nat position) (data p)) p in
    mret newPacket
  else crash OutOfPacket.

Definition requestMorePackets (p : Packet) : Exec unit :=
  ackPacket p true;;
  emit (EvStackRequestMorePackets p).

(** The ACK [ackPacket(packet, false)] asks TCPOut for. *)
Definition unmappedAck (p : Packet) : Event :=
  EvSendAck getOppositeFlowDirection
    (getDestinationAddress p) (getSourceAddress p)
    (getDestinationPort p) (getSourcePort p)
    (getAckNumber p)
    (u32 (getSequenceNumber p + getPayloadLength p
          + (if isFin p || isSyn p then 1 else 0))).

(** *** [processPacket] in pieces

    The state once the pool pointers of the FCB are set, and the parts of
    [processPacket] that follow the association of the shared record and
    the closing check. *)
Definition poolsSet (s : State) : State :=
  mkState (heap s) (tableFcbTcpCommon s) (return_tableFcbTcpCommon s)
    (mkFcb (tcp_common (the_fcb s))
       (mkFcbTcpin true true
          (inChargeOfTcpCommon (tcpin (the_fcb s))) (flowID (tcpin (the_fcb s)))
          (tableTcpCommon (tcpin (the_fcb s))) (poolTcpCommon (tcpin (the_fcb s)))
          (modificationLists (tcpin (the_fcb s)))))
    (trace s).

Definition afterClosingCheck (p : Packet) : Exec (option Packet) :=
  let packet := with_contentOffset (getPayloadOffset p) p in
  let seqNumber := getSequenceNumber packet in
  ac ← common;
  let lastAckSentOtherSide :=
    getLastAckSent (get getOppositeFlowDirection (maintainers ac.2)) in
  if negb (isSyn packet) && SEQ_LT seqNumber lastAckSentOtherSide then
    ackPacket packet false;;
    dropPacket packet
  else if isAck packet then
    let ackNumber := getAckNumber packet in
    ac ← common;
    let newAckNumber :=
      mapAck (get getOppositeFlowDirection (maintainers ac.2)) ackNumber in
    update_common (with_maintainer getFlowDirection
                     (fun m => setLastAckReceived m ackNumber));;
    update_common (with_maintainer getOppositeFlowDirection
                     (fun m => prune m ackNumber));;
    update_common (with_timing getOppositeFlowDirection
                     (fun r => signalAck r ackNumber));;
    ac ← common;
    if isJustAnAck packet
       && SEQ_LT newAckNumber
            (getLastAckSent (get getFlowDirection (maintainers ac.2)))
    then dropPacket packet
    else if negb (ackNumber =? newAckNumber) then
      packet ← setPacketDirty (setAckNumber packet newAckNumber);
      mret (Some packet)
    else mret (Some packet)
  else mret (Some packet).

Definition afterAssociation (p : Packet) : Exec (option Packet) :=
  open ← checkConnectionClosed p;
  if negb open then dropPacket p else afterClosingCheck p.

(** The packet as [closeConnection] leaves it: FIN or RST added to its
    flags. *)
Definition closingPacket (p : Packet) (graceful : bool) : Packet :=
  writeFlags (u8 (Z.lor (th_flags p) (if graceful then TH_FIN else TH_RST))) p.

(** The packet [processPacket] forwards for a packet that carries an ACK:
    the content offset is set, and the ACK number is rewritten (and the
    packet marked dirty) when the mapped value differs. *)
Definition forwarded (p : Packet) (newAckNumber : Z) : Packet :=
  let packet := with_contentOffset (getPayloadOffset p) p in
  if getAckNumber p =? newAckNumber then packet
  else with_dirty true (setAckNumber packet newAckNumber).

(** *** Running a computation *)

Lemma run_bind {A B} (m : Exec A) (k : A -> Exec B) (s : State) :
  run (m ≫= k) s =
  match run m s with Done a s' => run (k a) s' | Crash e => Crash e end.
Proof. reflexivity. Qed.

Lemma run_ret {A} (a : A) (s : State) : run (mret a) s = Done a s.
Proof. reflexivity. Qed.

Lemma get_set_same {A} (d : FlowDirection) (v : A) (a : Array2 A) :
  get d (set d v a) = v.
Proof. destruct d; reflexivity. Qed.

Lemma get_set_opposite {A} (d : FlowDirection) (v : A) (a : Array2 A) :
  get (opposite d) (set d v a) = get (opposite d) a.
Proof. destruct d; reflexivity. Qed.

Lemma get_opposite_set {A} (d : FlowDirection) (v : A) (a : Array2 A) :
  get d (set (opposite d) v a) = get d a.
Proof. destruct d; reflexivity. Qed.

Lemma ackFor_sum (p : Packet) :
  ackFor p =
  u32 (getSequenceNumber p + getPayloadLength p
       + (if isFin p || isSyn p then 1 else 0)).
Proof.
  unfold ackFor. destruct (isFin p || isSyn p).
  - apply u32_add_l.
  - f_equal. lia.
Qed.

(** The state after [common] succeeded and one field of the record was
    rewritten. *)
Lemma run_update_common (g : fcb_tcp_common -> fcb_tcp_common) (s : State)
    (a : nat) (c : fcb_tcp_common) :
  tcp_common (the_fcb s) = Some a -> heap s !! a = Some c ->
  run (update_common g) s =
  Done tt (mkState (<[a := g c]> (heap s)) (tableFcbTcpCommon s)
                   (return_tableFcbTcpCommon s) (the_fcb s) (trace s)).
Proof.
  intros Hp Hc. unfold update_common, common. rewrite run_bind. cbn.
  rewrite Hp, Hc. reflexivity.
Qed.

Lemma run_common (s : State) (a : nat) (c : fcb_tcp_common) :
  tcp_common (the_fcb s) = Some a -> heap s !! a = Some c ->
  run common s = Done (a, c) s.
Proof. intros Hp Hc. unfold common. cbn. rewrite Hp, Hc. reflexivity. Qed.

Ltac solve_pointer :=
  cbn; first [eassumption | reflexivity | apply lookup_insert_eq].

Ltac array2 :=
  unfold getFlowDirection, getOppositeFlowDirection,
         with_maintainer, with_timing, with_closingState;
  cbn [maintainers closingStates retransmissionTimings fst snd];
  repeat first [ rewrite get_set_same
               | rewrite get_set_opposite
               | rewrite get_opposite_set ].

Lemma run_ackPacket_unmapped (s : State) (p : Packet) (a : nat) (c : fcb_tcp_common) :
  tcp_common (the_fcb s) = Some a ->
  heap s !! a = Some c ->
  exists h : gmap nat fcb_tcp_common,
    run (ackPacket p false) s =
    Done tt (mkState h (tableFcbTcpCommon s) (return_tableFcbTcpCommon s)
                     (the_fcb s) (trace s ++ [unmappedAck p])).
Proof.
  intros Hp Hc. unfold ackPacket, unmappedAck.
  rewrite run_bind, run_ret, run_bind, <- ackFor_sum.
  rewrite (run_update_common _ s a c Hp Hc). eexists. reflexivity.
Qed.

Lemma processPacket_associated (s : State) (p : Packet) (a : nat) :
  tcp_common (the_fcb s) = Some a ->
  run (processPacket p) s =
  if isSyn p then run (dropPacket p) (poolsSet s)
  else run (afterAssociation p) (poolsSet s).
Proof.
  intros Hp. unfold processPacket. rewrite run_bind.
  change (run (modify_tcpin _) s) with (Done tt (poolsSet s)).
  cbv beta iota. rewrite run_bind.
  change (run get_fcb (poolsSet s)) with (Done (the_fcb (poolsSet s)) (poolsSet s)).
  cbv beta iota. change (tcp_common (the_fcb (poolsSet s))) with (tcp_common (the_fcb s)).
  rewrite Hp, run_bind, run_ret.
  destruct (isSyn p); reflexivity.
Qed.

Lemma run_checkConnectionClosed_open (s : State) (p : Packet) (a : nat)
    (c : fcb_tcp_common) :
  tcp_common (the_fcb s) = Some a ->
  heap s !! a = Some c ->
  get getFlowDirection (closingStates c) = TCPClosingState.OPEN ->
  run (checkConnectionClosed p) s = Done true s.
Proof.
  intros Hp Hc Hopen. unfold checkConnectionClosed.
  rewrite run_bind, (run_common s a c Hp Hc). cbn [snd].
  rewrite Hopen. reflexivity.
Qed.

(** C1 (the code departs from the claim): a SYN+ACK whose reversed 4-tuple is
    not in the table of the return element makes [assignTCPCommon] store the
    NULL that [getTCPCommon] returned and write through it at once;
    [processPacket] ends in a null-pointer dereference instead of dropping
    the packet. *)
Theorem synack_without_record_dereferences_null (s : State) (p : Packet) :
  tcp_common (the_fcb s) = None ->
  isSyn p = true ->
  isAck p = true ->
  getTCPCommon (return_tableFcbTcpCommon s)
               (ip_dst p, th_dport p, ip_src p, th_sport p) = None ->
  run (processPacket p) s = Crash NullPointerDereference.
Proof.
  intros Hnull Hsyn Hack Hmiss. unfold getTCPCommon in Hmiss.
  unfold isSyn, isAck, checkFlag in Hsyn, Hack.
  apply negb_true_iff in Hsyn. apply negb_true_iff in Hack.
  unfold processPacket. rewrite run_bind. cbn. rewrite Hnull.
  unfold assignTCPCommon. rewrite Hsyn, Hack. cbn.
  rewrite Hmiss. reflexivity.
Qed.

(** C8: [ackPacket(packet, ackMapped)] hands TCPOut an ACK whose source
    address and port are the packet's destination address and port and whose
    destination is the packet's source; its sequence number is the packet's
    ACK number, passed through [mapSeq] of the opposite maintainer when
    [ackMapped] is set and unchanged otherwise; its ACK number is the
    packet's sequence number plus the payload length, plus one for FIN or
    SYN (on [tcp_seq_t], i.e. modulo 2^32).  Nothing else is emitted. *)
Theorem ackPacket_swaps_and_acknowledges
    (s : State) (p : Packet) (ackMapped : bool) (a : nat) (c : fcb_tcp_common) :
  tcp_common (the_fcb s) = Some a ->
  heap s !! a = Some c ->
  let seq :=
    if ackMapped
    then mapSeq (get getOppositeFlowDirection (maintainers c)) (getAckNumber p)
    else getAckNumber p in
  let ack :=
    u32 (getSequenceNumber p + getPayloadLength p
         + (if isFin p || isSyn p then 1 else 0)) in
  run (ackPacket p ackMapped) s =
  Done tt
    (mkState
       (<[a := with_maintainer getOppositeFlowDirection
                 (fun m => tcpout_sendAck m (getDestinationAddress p)
                             (getSourceAddress p) (getDestinationPort p)
                             (getSourcePort p) seq ack) c]> (heap s))
       (tableFcbTcpCommon s) (return_tableFcbTcpCommon s) (the_fcb s)
       (trace s ++ [EvSendAck getOppositeFlowDirection
                      (getDestinationAddress p) (getSourceAddress p)
                      (getDestinationPort p) (getSourcePort p) seq ack])).
Proof.
  intros Hp Hc seq ack. subst seq ack. rewrite <- ackFor_sum.
  unfold ackPacket. rewrite run_bind.
  destruct ackMapped.
  - rewrite run_bind, (run_common s a c Hp Hc), run_ret, run_bind.
    rewrite (run_update_common _ s a c Hp Hc). reflexivity.
  - rewrite run_ret, run_bind.
    rewrite (run_update_common _ s a c Hp Hc). reflexivity.
Qed.

(** C7: [closeConnection(graceful, bothSides)] sets the closing state of this
    direction to BEING_CLOSED_GRACEFUL or BEING_CLOSED_UNGRACEFUL; with
    [bothSides] it also sets the opposite direction to CLOSED_GRACEFUL or
    CLOSED_UNGRACEFUL and asks TCPOut for a closing packet (of the kind
    [graceful] selects, the flag the packet itself receives) toward the
    opposite endpoint, with the addresses and ports swapped, [seq] the
    opposite maintainer's [mapSeq] of the packet's ACK number and [ack] the
    packet's sequence number plus its payload length, plus one when the
    packet has FIN or SYN at that point, which a graceful close ensures.
    Without [bothSides] the opposite state is kept and no packet is sent. *)
Theorem closeConnection_states_and_closing_packet
    (s : State) (p : Packet) (graceful bothSides : bool)
    (a : nat) (c : fcb_tcp_common) :
  tcp_common (the_fcb s) = Some a ->
  heap s !! a = Some c ->
  let packet := closingPacket p graceful in
  let seq :=
    mapSeq (get getOppositeFlowDirection (maintainers c)) (getAckNumber p) in
  let ack :=
    u32 (getSequenceNumber p + getPayloadLength p
         + (if isFin packet || isSyn packet then 1 else 0)) in
  exists (s' : State) (c' : fcb_tcp_common),
    run (closeConnection p graceful bothSides) s = Done packet s' /\
    heap s' !! a = Some c' /\
    get getFlowDirection (closingStates c') =
      (if graceful then TCPClosingState.BEING_CLOSED_GRACEFUL
       else TCPClosingState.BEING_CLOSED_UNGRACEFUL) /\
    (if graceful then isFin packet = true /\ ack = u32 (getSequenceNumber p + getPayloadLength p + 1)
     else isRst packet = true) /\
    (isFin p || isSyn p = true ->
       ack = u32 (getSequenceNumber p + getPayloadLength p + 1)) /\
    (if bothSides then
       get getOppositeFlowDirection (closingStates c') =
         (if graceful then TCPClosingState.CLOSED_GRACEFUL
          else TCPClosingState.CLOSED_UNGRACEFUL) /\
       trace s' =
         trace s ++
         [EvSendClosingPacket getOppositeFlowDirection
            (getDestinationAddress p) (getSourceAddress p)
            (getDestinationPort p) (getSourcePort p) seq ack graceful;
          EvStackCloseConnection packet graceful bothSides]
     else
       get getOppositeFlowDirection (closingStates c') =
         get getOppositeFlowDirection (closingStates c) /\
       trace s' = trace s ++ [EvStackCloseConnection packet graceful bothSides]).
Proof.
  intros Hp Hc packet seq ack.
  assert (Hfin : graceful = true -> isFin packet = true).
  { intros ->. rewrite isFin_testbit. unfold packet, closingPacket. unfold writeFlags, writeTransportHeader. cbn [th_flags with_flags with_data].
    rewrite testbit_u8_lor by lia. apply orb_true_r. }
  assert (Hrst : graceful = false -> isRst packet = true).
  { intros ->. rewrite isRst_testbit. unfold packet, closingPacket. unfold writeFlags, writeTransportHeader. cbn [th_flags with_flags with_data].
    rewrite testbit_u8_lor by lia. apply orb_true_r. }
  assert (Hkeep : isFin p || isSyn p = true -> isFin packet || isSyn packet = true).
  { rewrite !isFin_testbit, !isSyn_testbit. unfold packet, closingPacket.
    unfold writeFlags, writeTransportHeader. cbn [th_flags with_flags with_data]. rewrite !testbit_u8_lor by lia.
    intros H. apply orb_true_iff in H. destruct H as [-> | ->]; cbn.
    - reflexivity.
    - rewrite orb_true_r. reflexivity. }
  assert (Hack1 : isFin packet || isSyn packet = true ->
                  ack = u32 (getSequenceNumber p + getPayloadLength p + 1)).
  { intros H. unfold ack. rewrite H. reflexivity. }
  unfold closeConnection. cbv zeta. fold (closingPacket p graceful). fold packet.
  rewrite run_bind, (run_update_common _ s a c Hp Hc).
  destruct bothSides.
  - rewrite run_bind, run_bind.
    erewrite (run_update_common _ _ a) by solve_pointer.
    rewrite run_bind. erewrite (run_common _ a) by solve_pointer.
    rewrite run_bind. erewrite (run_update_common _ _ a) by solve_pointer.
    cbn [run emit mbind mret Exec_bind Exec_ret heap trace].
    eexists _, _. split; [reflexivity|].
    split; [apply lookup_insert_eq|].
    split; [array2; destruct graceful; reflexivity|].
    split.
    { destruct graceful; [split; [auto|] | auto].
      apply Hack1. rewrite Hfin by reflexivity. reflexivity. }
    split; [auto|].
    split; [array2; destruct graceful; reflexivity|].
    rewrite ackFor_sum, <- app_assoc. reflexivity.
  - cbn [run emit mbind mret Exec_bind Exec_ret heap trace].
    eexists _, _. split; [reflexivity|].
    split; [apply lookup_insert_eq|].
    split; [array2; destruct graceful; reflexivity|].
    split.
    { destruct graceful; [split; [auto|] | auto].
      apply Hack1. rewrite Hfin by reflexivity. reflexivity. }
    split; [auto|].
    split; [array2; reflexivity|reflexivity].
Qed.

(** C4, as the code has it: on an associated connection whose direction is
    OPEN, a packet whose sequence number is strictly below (modulo 2^32) the
    last ACK sent by the opposite direction is dropped and none is returned;
    when the packet is not a SYN the ACK is sent again first ([ackPacket]
    with [ackMapped = false]), and a SYN is dropped as unexpected with no
    ACK. *)
Theorem lost_ack_is_resent_unless_syn
    (s : State) (p : Packet) (a : nat) (c : fcb_tcp_common) :
  tcp_common (the_fcb s) = Some a ->
  heap s !! a = Some c ->
  get getFlowDirection (closingStates c) = TCPClosingState.OPEN ->
  SEQ_LT (getSequenceNumber p)
         (getLastAckSent (get getOppositeFlowDirection (maintainers c))) = true ->
  exists s' : State,
    run (processPacket p) s = Done None s' /\
    trace s' =
      trace s
      ++ (if isSyn p then [EvKill p]
          else [unmappedAck p;
                EvKill (with_contentOffset (getPayloadOffset p) p)]).
Proof.
  intros Hp Hc Hopen Hlt.
  rewrite (processPacket_associated s p a Hp).
  destruct (isSyn p) eqn:Hsyn.
  - eexists. split; reflexivity.
  - unfold afterAssociation. rewrite run_bind.
    rewrite (run_checkConnectionClosed_open (poolsSet s) p a c Hp Hc Hopen).
    cbn [negb]. unfold afterClosingCheck. cbv zeta.
    rewrite run_bind, (run_common (poolsSet s) a c Hp Hc). cbn [snd].
    change (isSyn (with_contentOffset (getPayloadOffset p) p)) with (isSyn p).
    change (getSequenceNumber (with_contentOffset (getPayloadOffset p) p))
      with (getSequenceNumber p).
    rewrite Hsyn, Hlt. cbn [negb andb]. rewrite run_bind.
    destruct (run_ackPacket_unmapped (poolsSet s)
                (with_contentOffset (getPayloadOffset p) p) a c Hp Hc) as [h ->].
    eexists. split; [reflexivity|]. cbn [trace poolsSet].
    rewrite <- app_assoc. reflexivity.
Qed.

(** A packet that is just an ACK, past the lost-ACK test: [processPacket]
    comes down to the comparison of the mapped ACK value with the last ACK
    sent in the direction of the packet. *)
Lemma processPacket_pure_ack
    (s : State) (p : Packet) (a : nat) (c : fcb_tcp_common) :
  tcp_common (the_fcb s) = Some a ->
  heap s !! a = Some c ->
  get getFlowDirection (closingStates c) = TCPClosingState.OPEN ->
  isJustAnAck p = true ->
  SEQ_LT (getSequenceNumber p)
         (getLastAckSent (get getOppositeFlowDirection (maintainers c))) = false ->
  let packet := with_contentOffset (getPayloadOffset p) p in
  let newAckNumber :=
    mapAck (get getOppositeFlowDirection (maintainers c)) (getAckNumber p) in
  let lastAckSent :=
    getLastAckSent (setLastAckReceived (get getFlowDirection (maintainers c))
                                       (getAckNumber p)) in
  exists s1 : State,
    trace s1 = trace s /\
    run (processPacket p) s =
    run (if SEQ_LT newAckNumber lastAckSent then dropPacket packet
         else if negb (getAckNumber p =? newAckNumber) then
           packet ← setPacketDirty (setAckNumber packet newAckNumber);
           mret (Some packet)
         else mret (Some packet)) s1.
Proof.
  intros Hp Hc Hopen Hjust Hseq packet newAckNumber lastAckSent.
  pose proof (isJustAnAck_isAck p Hjust) as Hack.
  pose proof (isJustAnAck_not_syn p Hjust) as Hsyn.
  rewrite (processPacket_associated s p a Hp), Hsyn.
  unfold afterAssociation. rewrite run_bind.
  rewrite (run_checkConnectionClosed_open (poolsSet s) p a c Hp Hc Hopen).
  cbn [negb]. unfold afterClosingCheck. cbv zeta. fold packet.
  rewrite run_bind, (run_common (poolsSet s) a c Hp Hc). cbn [snd].
  change (isSyn packet) with (isSyn p).
  change (isAck packet) with (isAck p).
  change (isJustAnAck packet) with (isJustAnAck p).
  change (getSequenceNumber packet) with (getSequenceNumber p).
  change (getAckNumber packet) with (getAckNumber p).
  rewrite Hsyn, Hseq, Hack, Hjust. cbn [negb andb].
  rewrite run_bind, (run_common (poolsSet s) a c Hp Hc). cbn [snd].
  fold newAckNumber.
  rewrite run_bind. erewrite (run_update_common _ _ a) by solve_pointer.
  rewrite run_bind. erewrite (run_update_common _ _ a) by solve_pointer.
  rewrite run_bind. erewrite (run_update_common _ _ a) by solve_pointer.
  rewrite run_bind. erewrite (run_common _ a) by solve_pointer.
  cbn [snd]. array2. eexists. split; [|reflexivity]. reflexivity.
Qed.

(** Below the last ACK sent, the pure ACK is dropped. *)
Lemma pure_ack_below_last_ack_sent_is_dropped
    (s : State) (p : Packet) (a : nat) (c : fcb_tcp_common) :
  tcp_common (the_fcb s) = Some a ->
  heap s !! a = Some c ->
  get getFlowDirection (closingStates c) = TCPClosingState.OPEN ->
  isJustAnAck p = true ->
  SEQ_LT (getSequenceNumber p)
         (getLastAckSent (get getOppositeFlowDirection (maintainers c))) = false ->
  SEQ_LT (mapAck (get getOppositeFlowDirection (maintainers c)) (getAckNumber p))
         (getLastAckSent (setLastAckReceived (get getFlowDirection (maintainers c))
                                             (getAckNumber p))) = true ->
  exists s' : State,
    run (processPacket p) s = Done None s' /\
    trace s' = trace s ++ [EvKill (with_contentOffset (getPayloadOffset p) p)].
Proof.
  intros Hp Hc Hopen Hjust Hseq Hbelow.
  destruct (processPacket_pure_ack s p a c Hp Hc Hopen Hjust Hseq)
    as (s1 & Htrace & ->).
  rewrite Hbelow. eexists. split; [reflexivity|].
  cbn [trace]. rewrite Htrace. reflexivity.
Qed.

(** C2 (the code departs from the claim): a packet that is just an ACK, on an
    associated and open connection, whose mapped ACK value equals the last
    ACK sent in its own direction is not dropped: the test of the code is
    "strictly less", so [processPacket] returns the packet. *)
Theorem pure_ack_equal_to_last_ack_sent_is_forwarded
    (s : State) (p : Packet) (a : nat) (c : fcb_tcp_common) :
  tcp_common (the_fcb s) = Some a ->
  heap s !! a = Some c ->
  get getFlowDirection (closingStates c) = TCPClosingState.OPEN ->
  isJustAnAck p = true ->
  SEQ_LT (getSequenceNumber p)
         (getLastAckSent (get getOppositeFlowDirection (maintainers c))) = false ->
  mapAck (get getOppositeFlowDirection (maintainers c)) (getAckNumber p) =
    getLastAckSent (setLastAckReceived (get getFlowDirection (maintainers c))
                                       (getAckNumber p)) ->
  exists s' : State,
    run (processPacket p) s =
    Done (Some (forwarded p (mapAck (get getOppositeFlowDirection (maintainers c))
                                    (getAckNumber p)))) s'.
Proof.
  intros Hp Hc Hopen Hjust Hseq Hequal.
  destruct (processPacket_pure_ack s p a c Hp Hc Hopen Hjust Hseq)
    as (s1 & _ & ->).
  rewrite <- Hequal, SEQ_LT_irrefl.
  unfold forwarded. cbv zeta.
  destruct (getAckNumber p =? _) eqn:Hsame; cbn [negb].
  - eexists. reflexivity.
  - eexists. reflexivity.
Qed.

Lemma run_getModificationList (s : State) (p : Packet) :
  poolModificationLists (tcpin (the_fcb s)) = true ->
  exists (list : ML) (s' : State),
    run (getModificationList p) s = Done list s' /\ trace s' = trace s.
Proof.
  intros Hpool. unfold getModificationList. rewrite run_bind.
  cbn [run get_fcb]. cbv zeta.
  destruct (modificationLists (tcpin (the_fcb s)) !! getSequenceNumber p).
  - eexists _, _. split; reflexivity.
  - rewrite Hpool. eexists _, _. split; reflexivity.
Qed.

(** [removeBytes] continues in the stack function once the bytes are
    removed: the last event is the call of [StackElement::removeBytes]. *)
Lemma removeBytes_is_forwarded (s : State) (p : Packet) (position length : Z) :
  poolModificationLists (tcpin (the_fcb s)) = true ->
  u32 (position + contentOffset p) + length <= packet_length p ->
  exists (packet : Packet) (s' : State),
    run (removeBytes p position length) s = Done packet s' /\
    trace s' =
      trace s ++ [EvStackRemoveBytes packet (u32 (position + contentOffset p)) length].
Proof.
  intros Hpool Hrange. unfold removeBytes. rewrite run_bind.
  destruct (run_getModificationList s p Hpool) as (list & s1 & -> & Htrace).
  cbv zeta. rewrite run_bind. cbn [run list_addModification modify_tcpin
    get_fcb put_fcb mbind Exec_bind].
  apply Z.leb_le in Hrange. rewrite Hrange.
  eexists _, _. split; [reflexivity|]. cbn [trace]. rewrite Htrace. reflexivity.
Qed.

(** C5 (the code departs from the claim): [insertBytes] applies its local
    edit and returns the lengthened packet without calling
    [StackElement::insertBytes]; no event is added to the trace, whereas
    [removeBytes] ends with the call of the stack function. *)
Theorem insertBytes_is_not_forwarded
    (s : State) (p : Packet) (position length : Z) :
  poolModificationLists (tcpin (the_fcb s)) = true ->
  u32 (position + contentOffset p) <= packet_length p ->
  exists (newPacket : Packet) (s' : State),
    run (insertBytes p position length) s = Done newPacket s' /\
    trace s' = trace s.
Proof.
  intros Hpool Hrange. unfold insertBytes. cbv zeta. rewrite run_bind.
  destruct (run_getModificationList s p Hpool) as (list & s1 & -> & Htrace).
  rewrite run_bind. cbn [run list_addModification modify_tcpin
    get_fcb put_fcb mbind Exec_bind].
  apply Z.leb_le in Hrange. rewrite Hrange.
  eexists _, _. split; [reflexivity|]. cbn [trace]. exact Htrace.
Qed.

(** *** What a computation ensures when it returns *)

Definition ensures {A} (P : State -> Prop) (m : Exec A)
    (Q : A -> State -> Prop) : Prop :=
  forall s, P s ->
    match run m s with
    | Done a s' => Q a s'
    | Crash _ => True
    end.

(** [m] keeps the property [Inv] of the state. *)
Definition keeps {A} (Inv : State -> Prop) (m : Exec A) : Prop :=
  ensures Inv m (fun _ => Inv).

(** The state with one more event. *)
Definition logged (s : State) (e : Event) : State :=
  mkState (heap s) (tableFcbTcpCommon s) (return_tableFcbTcpCommon s)
          (the_fcb s) (trace s ++ [e]).

(** The packets killed along a trace. *)
Definition kills (t : list Event) : list Packet :=
  flat_map (fun e => match e with EvKill q => [q] | _ => [] end) t.

(** The packet [processPacket] kills when it drops [p], before or after the
    content offset is set. *)
Definition droppedAs (p q : Packet) : Prop :=
  q = p \/ q = with_contentOffset (getPayloadOffset p) p.

(** The packet [processPacket] returns for [p]: the content offset is set,
    and the ACK number may be rewritten, the packet then being dirty; the
    bytes and the other header fields are those of [p]. *)
Definition forwardedAs (p packet : Packet) : Prop :=
  packet = with_contentOffset (getPayloadOffset p) p \/
  exists newAckNumber,
    packet = with_dirty true
               (setAckNumber (with_contentOffset (getPayloadOffset p) p)
                             newAckNumber).

Lemma ensures_bind {A B} (P : State -> Prop) (m : Exec A)
    (Q : A -> State -> Prop) (k : A -> Exec B) (R : B -> State -> Prop) :
  ensures P m Q -> (forall a, ensures (Q a) (k a) R) -> ensures P (m ≫= k) R.
Proof.
  intros Hm Hk s Hs. rewrite run_bind. specialize (Hm s Hs).
  destruct (run m s) as [a s'|e]; [apply Hk; exact Hm | exact I].
Qed.

Lemma ensures_ret {A} (P : State -> Prop) (a : A) (Q : A -> State -> Prop) :
  (forall s, P s -> Q a s) -> ensures P (mret a) Q.
Proof. intros H s Hs. rewrite run_ret. apply H. exact Hs. Qed.

Lemma ensures_post {A} (P : State -> Prop) (m : Exec A)
    (Q Q' : A -> State -> Prop) :
  ensures P m Q -> (forall a s, Q a s -> Q' a s) -> ensures P m Q'.
Proof.
  intros Hm HQ s Hs. specialize (Hm s Hs).
  destruct (run m s); [apply HQ; exact Hm | exact I].
Qed.

Lemma keeps_bind {A B} (Inv : State -> Prop) (m : Exec A) (k : A -> Exec B) :
  keeps Inv m -> (forall a, keeps Inv (k a)) -> keeps Inv (m ≫= k).
Proof. intros Hm Hk. exact (ensures_bind Inv m _ k _ Hm Hk). Qed.

Lemma keeps_ret {A} (Inv : State -> Prop) (a : A) : keeps Inv (mret a).
Proof. apply ensures_ret. auto. Qed.

Lemma kills_app (t u : list Event) : kills (t ++ u) = kills t ++ kills u.
Proof. unfold kills. apply flat_map_app. Qed.

(** *** The modification lists of an FCB *)

(** The list of the sequence number of [p], or the one a first call of
    [getModificationList] constructs. *)
Definition listOf (s : State) (p : Packet) : ML :=
  default list_default
    (modificationLists (tcpin (the_fcb s)) !! getSequenceNumber p).

Lemma getModificationList_returns (s : State) (p : Packet) :
  poolModificationLists (tcpin (the_fcb s)) = true ->
  exists s1 : State,
    run (getModificationList p) s = Done (listOf s p) s1 /\
    modificationLists (tcpin (the_fcb s1)) !! getSequenceNumber p
    = Some (listOf s p).
Proof.
  intros Hpool. unfold getModificationList, listOf. rewrite run_bind.
  cbn [run get_fcb]. cbv zeta.
  destruct (modificationLists (tcpin (the_fcb s)) !! getSequenceNumber p)
    as [list|] eqn:Hlist; cbn [default].
  - exists s. split; [reflexivity | exact Hlist].
  - rewrite Hpool. eexists. split; [reflexivity|].
    cbn [the_fcb tcpin modificationLists]. apply lookup_insert_eq.
Qed.

(** Once [getModificationList] has returned the list of a packet, every
    packet with the same sequence number (a retransmission) has a list,
    [hasModificationList] says so, and [getModificationList] returns that
    same list without changing the state. *)
Theorem modification_list_is_found_again (s : State) (p : Packet) :
  poolModificationLists (tcpin (the_fcb s)) = true ->
  exists s1 : State,
    run (getModificationList p) s = Done (listOf s p) s1 /\
    forall p' : Packet,
      getSequenceNumber p' = getSequenceNumber p ->
      run (hasModificationList p') s1 = Done true s1 /\
      run (getModificationList p') s1 = Done (listOf s p) s1.
Proof.
  intros Hpool. unfold getModificationList, listOf. rewrite run_bind.
  cbn [run get_fcb]. cbv zeta.
  destruct (modificationLists (tcpin (the_fcb s)) !! getSequenceNumber p)
    as [list|] eqn:Hlist; cbn [default].
  - exists s. split; [reflexivity|]. intros p' Hseq.
    unfold hasModificationList. rewrite !run_bind. cbn [run get_fcb].
    rewrite Hseq, Hlist. split; reflexivity.
  - rewrite Hpool. eexists. split; [reflexivity|]. intros p' Hseq.
    unfold hasModificationList. rewrite !run_bind.
    cbn [run get_fcb the_fcb tcpin modificationLists].
    rewrite Hseq, lookup_insert_eq. split; reflexivity.
Qed.

(** What the steps of [processPacket] keep of the part of the FCB that this
    element owns: a pool pointer that is set stays set, and the modification
    lists are those that were there. *)
Definition keptFcb (f f' : fcb) : Prop :=
  (poolModificationNodes (tcpin f) = true ->
   poolModificationNodes (tcpin f') = true) /\
  (poolModificationLists (tcpin f) = true ->
   poolModificationLists (tcpin f') = true) /\
  modificationLists (tcpin f') = modificationLists (tcpin f).

(** A property of the state that the steps of [processPacket] other than
    the kill of a packet keep: it depends on the FCB through no more than
    [keptFcb] keeps and not on the table of this element, survives an event
    that is not a kill, the rewriting of a record that leaves its closing
    states alone, and the allocation of a record. *)
Section Invariant.

Variable Inv : State -> Prop.

Hypothesis Inv_fcb : forall s f,
  keptFcb (the_fcb s) f ->
  Inv s ->
  Inv (mkState (heap s) (tableFcbTcpCommon s) (return_tableFcbTcpCommon s)
               f (trace s)).
Hypothesis Inv_table : forall s t,
  Inv s ->
  Inv (mkState (heap s) t (return_tableFcbTcpCommon s) (the_fcb s) (trace s)).
Hypothesis Inv_event : forall s e,
  (forall q, e <> EvKill q) -> Inv s -> Inv (logged s e).
Hypothesis Inv_record : forall s a c c',
  heap s !! a = Some c ->
  closingStates c' = closingStates c ->
  Inv s ->
  Inv (mkState (<[a := c']> (heap s)) (tableFcbTcpCommon s)
               (return_tableFcbTcpCommon s) (the_fcb s) (trace s)).
Hypothesis Inv_allocate : forall s,
  Inv s ->
  Inv (mkState (<[fresh (dom (heap s)) := fcb_tcp_common_new]> (heap s))
               (tableFcbTcpCommon s) (return_tableFcbTcpCommon s)
               (the_fcb s) (trace s)).

Lemma keeps_get_fcb : keeps Inv get_fcb.
Proof using Type. intros s Hs. exact Hs. Qed.

Lemma keeps_modify_tcpin (g : fcb_tcpin -> fcb_tcpin) :
  (forall f, keptFcb f (mkFcb (tcp_common f) (g (tcpin f)))) ->
  keeps Inv (modify_tcpin g).
Proof using Inv_fcb.
  intros Hg s Hs. unfold modify_tcpin. rewrite run_bind. cbn [run get_fcb put_fcb].
  apply Inv_fcb; [apply Hg | exact Hs].
Qed.

Lemma keeps_set_tcp_common (a : option nat) : keeps Inv (set_tcp_common a).
Proof using Inv_fcb.
  intros s Hs. unfold set_tcp_common. rewrite run_bind. cbn [run get_fcb put_fcb].
  apply Inv_fcb; [|exact Hs]. repeat split; intros H; exact H.
Qed.

Lemma keeps_emit (e : Event) : (forall q, e <> EvKill q) -> keeps Inv (emit e).
Proof using Inv_event. intros He s Hs. apply (Inv_event s e He Hs). Qed.

Lemma keeps_common : keeps Inv common.
Proof using Type.
  intros s Hs. unfold common. cbn [run].
  destruct (tcp_common (the_fcb s)) as [a|]; [|exact I].
  destruct (heap s !! a); [exact Hs | exact I].
Qed.

Lemma keeps_update_common (g : fcb_tcp_common -> fcb_tcp_common) :
  (forall c, closingStates (g c) = closingStates c) ->
  keeps Inv (update_common g).
Proof using Inv_record.
  intros Hg s Hs. unfold update_common. rewrite run_bind. unfold common.
  cbn [run].
  destruct (tcp_common (the_fcb s)) as [a|]; [|exact I].
  destruct (heap s !! a) as [c|] eqn:Hc; [|exact I].
  cbn [fst snd]. apply (Inv_record s a c (g c) Hc (Hg c) Hs).
Qed.

Lemma keeps_allocate_common : keeps Inv allocate_common.
Proof using Inv_allocate. intros s Hs. apply Inv_allocate. exact Hs. Qed.

Lemma keeps_table_set (k : IPFlowID) (a : nat) : keeps Inv (table_set k a).
Proof using Inv_table. intros s Hs. apply Inv_table. exact Hs. Qed.

Lemma keeps_return_getTCPCommon (k : IPFlowID) : keeps Inv (return_getTCPCommon k).
Proof using Type. intros s Hs. exact Hs. Qed.

Lemma keeps_maintainer (d : FlowDirection) (f : M -> M) :
  keeps Inv (update_common (with_maintainer d f)).
Proof using Inv_record. apply keeps_update_common. reflexivity. Qed.

Lemma keeps_timing (d : FlowDirection) (f : RT -> RT) :
  keeps Inv (update_common (with_timing d f)).
Proof using Inv_record. apply keeps_update_common. reflexivity. Qed.

Lemma keeps_assignTCPCommon (p : Packet) : keeps Inv (assignTCPCommon p).
Proof using Inv_fcb Inv_table Inv_record Inv_allocate.
  unfold assignTCPCommon. cbv zeta.
  destruct (Z.land (th_flags p) TH_SYN =? 0); [apply keeps_ret|].
  apply keeps_bind.
  - destruct (negb (Z.land (th_flags p) TH_ACK =? 0)).
    + apply keeps_bind; [apply keeps_return_getTCPCommon|]. intros found.
      apply keeps_bind; [apply keeps_set_tcp_common|]. intros _.
      apply keeps_bind; [apply keeps_maintainer|]. intros _.
      apply keeps_modify_tcpin. intros f. repeat split; intros H; exact H.
    + apply keeps_bind; [apply keeps_allocate_common|]. intros allocated.
      apply keeps_bind; [apply keeps_table_set|]. intros _.
      apply keeps_bind; [apply keeps_set_tcp_common|]. intros _.
      apply keeps_bind; [apply keeps_maintainer|]. intros _.
      apply keeps_modify_tcpin. intros f. repeat split; intros H; exact H.
  - intros _.
    apply keeps_bind; [apply keeps_maintainer|]. intros _.
    apply keeps_bind; [apply keeps_maintainer|]. intros _.
    apply keeps_bind; [apply keeps_maintainer|]. intros _.
    apply keeps_bind; [apply keeps_maintainer|]. intros _.
    apply keeps_ret.
Qed.

Lemma keeps_ackPacket (p : Packet) (ackMapped : bool) :
  keeps Inv (ackPacket p ackMapped).
Proof using Inv_event Inv_record.
  unfold ackPacket. cbv zeta. apply keeps_bind.
  - destruct ackMapped; [|apply keeps_ret].
    apply keeps_bind; [apply keeps_common|]. intros ac. apply keeps_ret.
  - intros seq. apply keeps_bind; [apply keeps_maintainer|]. intros _.
    apply keeps_emit. discriminate.
Qed.

Lemma keeps_checkConnectionClosed (p : Packet) :
  keeps Inv (checkConnectionClosed p).
Proof using Inv_event Inv_record.
  unfold checkConnectionClosed. apply keeps_bind; [apply keeps_common|].
  intros ac. cbv zeta.
  destruct (negb _); [|apply keeps_ret].
  apply keeps_bind; [|intros _; apply keeps_ret].
  destruct (_ || _); [|apply keeps_ret].
  destruct (_ || _); [apply keeps_ackPacket | apply keeps_ret].
Qed.

Lemma keeps_setPacketDirty (p : Packet) : keeps Inv (setPacketDirty p).
Proof using Inv_event.
  unfold setPacketDirty. cbv zeta. apply keeps_bind.
  - apply keeps_emit. discriminate.
  - intros _. apply keeps_ret.
Qed.

(** What [processPacket] ensures of its result: a returned packet is the
    processed packet, forwarded, and [Inv] still holds; otherwise the
    processed packet was killed, as the last step, in a state where [Inv]
    holds. *)
Definition processed (p : Packet) (r : option Packet) (s' : State) : Prop :=
  match r with
  | Some packet => forwardedAs p packet /\ Inv s'
  | None => exists s'' q, droppedAs p q /\ Inv s'' /\ s' = logged s'' (EvKill q)
  end.

Lemma ensures_dropPacket (p q : Packet) :
  droppedAs p q -> ensures Inv (dropPacket q) (processed p).
Proof using Type.
  intros Hq s Hs. unfold dropPacket. rewrite run_bind. cbn [run emit].
  rewrite run_ret. exists s, q. repeat split; assumption.
Qed.

Lemma ensures_afterClosingCheck (p : Packet) :
  ensures Inv (afterClosingCheck p) (processed p).
Proof using Inv_event Inv_record.
  unfold afterClosingCheck. cbv zeta.
  apply (ensures_bind Inv common (fun _ => Inv)); [apply keeps_common|].
  intros ac. destruct (_ && _).
  { apply (ensures_bind Inv _ (fun _ => Inv)); [apply keeps_ackPacket|].
    intros _. apply ensures_dropPacket. right. reflexivity. }
  destruct (isAck _).
  - apply (ensures_bind Inv common (fun _ => Inv)); [apply keeps_common|].
    intros ac1.
    apply (ensures_bind Inv _ (fun _ => Inv)); [apply keeps_maintainer|]. intros _.
    apply (ensures_bind Inv _ (fun _ => Inv)); [apply keeps_maintainer|]. intros _.
    apply (ensures_bind Inv _ (fun _ => Inv)); [apply keeps_timing|]. intros _.
    apply (ensures_bind Inv common (fun _ => Inv)); [apply keeps_common|].
    intros ac2. destruct (_ && _).
    { apply ensures_dropPacket. right. reflexivity. }
    destruct (negb _).
    + apply (ensures_bind Inv _ (fun packet s =>
               Inv s /\ forwardedAs p packet)).
      * unfold setPacketDirty. cbv zeta.
        apply (ensures_bind Inv _ (fun _ => Inv)).
        -- apply keeps_emit. discriminate.
        -- intros _. apply ensures_ret. intros s Hs. split; [exact Hs|].
           right. eexists. reflexivity.
      * intros packet. apply ensures_ret. intros s [Hs Hf]. split; assumption.
    + apply ensures_ret. intros s Hs. split; [left; reflexivity | exact Hs].
  - apply ensures_ret. intros s Hs. split; [left; reflexivity | exact Hs].
Qed.

Lemma ensures_processPacket (p : Packet) :
  ensures Inv (processPacket p) (processed p).
Proof using Inv_fcb Inv_table Inv_event Inv_record Inv_allocate.
  unfold processPacket.
  apply (ensures_bind Inv _ (fun _ => Inv)).
  { apply keeps_modify_tcpin. intros f. repeat split; reflexivity. }
  intros _.
  apply (ensures_bind Inv _ (fun _ => Inv)); [apply keeps_get_fcb|]. intros f.
  apply (ensures_bind Inv _ (fun _ => Inv)).
  { destruct (tcp_common f); [apply keeps_ret | apply keeps_assignTCPCommon]. }
  intros proceed. destruct (negb proceed).
  { apply ensures_dropPacket. left. reflexivity. }
  apply (ensures_bind Inv _ (fun _ => Inv)); [apply keeps_checkConnectionClosed|].
  intros open. destruct (negb open).
  { apply ensures_dropPacket. left. reflexivity. }
  apply ensures_afterClosingCheck.
Qed.

End Invariant.

(** [processPacket] kills exactly the packets it does not return: when it
    returns a packet it has killed none, and when it returns none it has
    killed the processed packet, once. *)
Theorem processPacket_kills_what_it_drops
    (s : State) (p : Packet) (r : option Packet) (s' : State) :
  run (processPacket p) s = Done r s' ->
  match r with
  | Some _ => kills (trace s') = kills (trace s)
  | None => exists q, droppedAs p q /\ kills (trace s') = kills (trace s) ++ [q]
  end.
Proof.
  intros Hrun.
  pose proof (ensures_processPacket (fun st => kills (trace st) = kills (trace s)))
    as Hens.
  specialize (Hens (fun st f _ H => H) (fun st t H => H)).
  assert (Hevent : forall st e, (forall q, e <> EvKill q) ->
            kills (trace st) = kills (trace s) ->
            kills (trace (logged st e)) = kills (trace s)).
  { intros st e He H. cbn [logged trace]. rewrite kills_app, H.
    destruct e; cbn; try apply app_nil_r. destruct (He p0 eq_refl). }
  specialize (Hens Hevent (fun st a c c' _ _ H => H) (fun st H => H) p s eq_refl).
  rewrite Hrun in Hens. destruct r as [packet|].
  - destruct Hens as [_ H]. exact H.
  - destruct Hens as (s'' & q & Hq & Hkills & ->). exists q. split; [exact Hq|].
    cbn [logged trace]. rewrite kills_app, Hkills. reflexivity.
Qed.

(** A packet that [processPacket] returns has the length and the header
    fields of the processed packet, its content offset is the payload
    offset, and its ACK number differs from the one received only on a
    packet marked dirty.  Its bytes are those of the processed packet
    outside bytes 8 to 11 of the TCP header, the ACK number field: when the
    ACK number is rewritten those bytes are overwritten with the new
    number, in network order, and when it is not no byte changes. *)
Theorem processPacket_rewrites_only_the_ack
    (s : State) (p packet : Packet) (s' : State) :
  run (processPacket p) s = Done (Some packet) s' ->
  packet_length packet = packet_length p /\
  (forall i : nat,
     Z.of_nat i < transport_header_offset p + 8 \/
     transport_header_offset p + 12 <= Z.of_nat i ->
     data packet !! i = data p !! i) /\
  getSequenceNumber packet = getSequenceNumber p /\
  getFlags packet = getFlags p /\
  (getSourceAddress packet, getSourcePort packet,
   getDestinationAddress packet, getDestinationPort packet)
  = (getSourceAddress p, getSourcePort p,
     getDestinationAddress p, getDestinationPort p) /\
  contentOffset packet = getPayloadOffset p /\
  (getAckNumber packet = getAckNumber p /\ data packet = data p \/
   dirty packet = true /\
   data packet = writeAt (transport_header_offset p + 8)
                         (htonl (getAckNumber packet)) (data p)).
Proof.
  intros Hrun.
  pose proof (ensures_processPacket (fun _ => True)
                (fun _ _ _ _ => I) (fun _ _ _ => I) (fun _ _ _ _ => I)
                (fun _ _ _ _ _ _ _ => I) (fun _ _ => I) p s I) as Hens.
  rewrite Hrun in Hens. destruct Hens as [[->|[newAck ->]] _].
  - split; [reflexivity|]. split; [reflexivity|].
    split; [reflexivity|]. split; [reflexivity|]. split; [reflexivity|].
    split; [reflexivity|]. left. split; reflexivity.
  - unfold packet_length.
    cbn [data with_dirty setAckNumber writeTransportHeader with_data with_ack
         with_contentOffset transport_header_offset].
    split; [rewrite length_writeAt; reflexivity|].
    split; [intros i Hi; apply lookup_writeAt_outside; cbn [htonl List.length]; lia|].
    split; [reflexivity|]. split; [reflexivity|]. split; [reflexivity|].
    split; [reflexivity|]. right. split; reflexivity.
Qed.

(** [processPacket] never closes or reopens a direction and never frees a
    record: every record of the pool is still there when it returns, with
    the closing states it had. *)
Theorem processPacket_leaves_the_closing_states
    (s : State) (p : Packet) (r : option Packet) (s' : State)
    (b : nat) (c : fcb_tcp_common) :
  run (processPacket p) s = Done r s' ->
  heap s !! b = Some c ->
  exists c', heap s' !! b = Some c' /\ closingStates c' = closingStates c.
Proof.
  intros Hrun Hb.
  pose (Inv := fun st : State =>
          exists c', heap st !! b = Some c' /\ closingStates c' = closingStates c).
  assert (Hens : ensures Inv (processPacket p) (processed Inv p)).
  { apply ensures_processPacket; unfold Inv.
    - intros st f _ H. exact H.
    - intros st t H. exact H.
    - intros st e _ H. exact H.
    - intros st a c0 c0' Ha Hsame (c1 & Hc1 & Hclosing). cbn [heap].
      destruct (decide (a = b)) as [->|Hne].
      + exists c0'. rewrite lookup_insert_eq. split; [reflexivity|].
        rewrite Hsame. congruence.
      + exists c1. rewrite lookup_insert_ne by exact Hne. split; assumption.
    - intros st (c1 & Hc1 & Hclosing). cbn [heap]. exists c1.
      rewrite lookup_insert_ne; [split; assumption|].
      intros Heq. pose proof (is_fresh (dom (heap st))) as Hfresh.
      rewrite Heq in Hfresh. apply Hfresh. apply elem_of_dom. eauto. }
  specialize (Hens s (ex_intro _ c (conj Hb eq_refl))).
  rewrite Hrun in Hens. destruct r as [packet|].
  - destruct Hens as [_ H]. exact H.
  - destruct Hens as (s'' & q & _ & H & ->). exact H.
Qed.

(** The first step of [processPacket] does nothing on an FCB whose pool
    pointers are set. *)
Lemma processPacket_poolsSet (s : State) (p : Packet) :
  run (processPacket p) s = run (processPacket p) (poolsSet s).
Proof. unfold processPacket. rewrite !run_bind. reflexivity. Qed.

(** When [processPacket] returns, with a packet or without, the two pool
    pointers of the FCB are set and the modification lists of the FCB are
    those that were there: [processPacket] records no edit and forgets none,
    and [getModificationList], which needs the pool for a packet that has
    no list yet, can be called for any packet afterwards. *)
Theorem processPacket_sets_the_pools_and_keeps_the_lists
    (s : State) (p : Packet) (r : option Packet) (s' : State) :
  run (processPacket p) s = Done r s' ->
  poolModificationNodes (tcpin (the_fcb s')) = true /\
  poolModificationLists (tcpin (the_fcb s')) = true /\
  modificationLists (tcpin (the_fcb s')) = modificationLists (tcpin (the_fcb s)) /\
  forall q : Packet,
  exists s'' : State, run (getModificationList q) s' = Done (listOf s' q) s''.
Proof.
  intros Hrun. rewrite processPacket_poolsSet in Hrun.
  pose (Inv := fun st : State =>
          poolModificationNodes (tcpin (the_fcb st)) = true /\
          poolModificationLists (tcpin (the_fcb st)) = true /\
          modificationLists (tcpin (the_fcb st))
          = modificationLists (tcpin (the_fcb s))).
  assert (Hens : ensures Inv (processPacket p) (processed Inv p)).
  { apply ensures_processPacket; unfold Inv.
    - intros st f (Hnodes & Hlists & Hsame) (H1 & H2 & H3). cbn [the_fcb].
      split; [apply Hnodes; exact H1|]. split; [apply Hlists; exact H2|].
      rewrite Hsame. exact H3.
    - intros st t H. exact H.
    - intros st e _ H. exact H.
    - intros st a c0 c0' _ _ H. exact H.
    - intros st H. exact H. }
  specialize (Hens (poolsSet s)). rewrite Hrun in Hens.
  assert (Hinv : Inv s').
  { destruct r as [packet|].
    - apply Hens. repeat split.
    - destruct Hens as (s'' & q & _ & H & ->); [repeat split|]. exact H. }
  destruct Hinv as (Hnodes & Hlists & Hsame).
  split; [exact Hnodes|]. split; [exact Hlists|]. split; [exact Hsame|].
  intros q.
  destruct (getModificationList_returns s' q Hlists) as (s'' & H & _).
  exists s''. exact H.
Qed.

(** *** The first packets of a connection *)

Lemma processPacket_unassociated (s : State) (p : Packet) :
  tcp_common (the_fcb s) = None ->
  run (processPacket p) s =
  match run (assignTCPCommon p) (poolsSet s) with
  | Done true s1 => run (afterAssociation p) s1
  | Done false s1 => run (dropPacket p) s1
  | Crash e => Crash e
  end.
Proof.
  intros Hp. unfold processPacket. rewrite run_bind.
  change (run (modify_tcpin _) s) with (Done tt (poolsSet s)).
  cbv beta iota. rewrite run_bind.
  change (run get_fcb (poolsSet s)) with (Done (the_fcb (poolsSet s)) (poolsSet s)).
  cbv beta iota. change (tcp_common (the_fcb (poolsSet s))) with (tcp_common (the_fcb s)).
  rewrite Hp, run_bind.
  destruct (run (assignTCPCommon p) (poolsSet s)) as [[|] s1|e]; reflexivity.
Qed.

(** A first packet without SYN is dropped: nothing is allocated, nothing is
    published, and the FCB stays without a record. *)
Theorem first_packet_without_syn_is_dropped (s : State) (p : Packet) :
  tcp_common (the_fcb s) = None ->
  isSyn p = false ->
  run (processPacket p) s = Done None (logged (poolsSet s) (EvKill p)).
Proof.
  intros Hp Hsyn. rewrite (processPacket_unassociated s p Hp).
  unfold assignTCPCommon. cbv zeta.
  unfold isSyn, checkFlag in Hsyn. apply negb_false_iff in Hsyn.
  rewrite Hsyn, run_ret. reflexivity.
Qed.

(** The record once [assignTCPCommon] has attached this direction to it:
    the maintainer of this direction is initialised and given the addresses
    and ports of the packet (the source port field receives the destination
    port and conversely, as the source has it); the other direction, the
    timings and the closing states are left as they were. *)
Definition attached (p : Packet) (c : fcb_tcp_common) : fcb_tcp_common :=
  with_maintainer getFlowDirection
    (fun m => setPortDst
                (setPortSrc
                   (setIpDst (setIpSrc (initialize m) (getSourceAddress p))
                             (getDestinationAddress p))
                   (getDestinationPort p))
                (getSourcePort p))
    c.

(** The record of an initiator: freshly constructed, then attached. *)
Definition recordOfInitiator (p : Packet) : fcb_tcp_common :=
  attached p fcb_tcp_common_new.

(** The record once [processPacket] has taken the ACK number [ackNumber] of
    a packet of this direction into account. *)
Definition acknowledged (ackNumber : Z) (c : fcb_tcp_common) : fcb_tcp_common :=
  with_timing getOppositeFlowDirection (fun r => signalAck r ackNumber)
    (with_maintainer getOppositeFlowDirection (fun m => prune m ackNumber)
       (with_maintainer getFlowDirection
          (fun m => setLastAckReceived m ackNumber) c)).

Lemma with_maintainer_twice (d : FlowDirection) (f g : M -> M) (c : fcb_tcp_common) :
  with_maintainer d g (with_maintainer d f c)
  = with_maintainer d (fun m => g (f m)) c.
Proof.
  unfold with_maintainer. cbn [maintainers retransmissionTimings closingStates].
  rewrite get_set_same. destruct d; reflexivity.
Qed.

(** [assignTCPCommon] on the SYN of an initiator: a record that was not in
    use is constructed, published under the 4-tuple of the packet and put
    in the FCB, which is in charge of it. *)
Lemma run_assignTCPCommon_initiator (s : State) (p : Packet) :
  isSyn p = true ->
  isAck p = false ->
  let a := fresh (dom (heap s)) in
  let fid : IPFlowID := (ip_src p, th_sport p, ip_dst p, th_dport p) in
  run (assignTCPCommon p) s =
  Done true
    (mkState (<[a := recordOfInitiator p]> (heap s))
             (<[fid := a]> (tableFcbTcpCommon s))
             (return_tableFcbTcpCommon s)
             (mkFcb (Some a)
                (mkFcbTcpin (poolModificationNodes (tcpin (the_fcb s)))
                            (poolModificationLists (tcpin (the_fcb s)))
                            true (Some fid) true true
                            (modificationLists (tcpin (the_fcb s)))))
             (trace s)).
Proof.
  intros Hsyn Hack a fid.
  unfold isSyn, checkFlag in Hsyn. apply negb_true_iff in Hsyn.
  unfold isAck, checkFlag in Hack. apply negb_false_iff in Hack.
  unfold assignTCPCommon. cbv zeta. rewrite Hsyn, Hack. cbn [negb].
  rewrite run_bind. rewrite run_bind.
  change (run allocate_common s)
    with (Done a (mkState (<[a := fcb_tcp_common_new]> (heap s))
                          (tableFcbTcpCommon s) (return_tableFcbTcpCommon s)
                          (the_fcb s) (trace s))).
  cbv beta iota. rewrite run_bind. cbn [run table_set heap tableFcbTcpCommon
    return_tableFcbTcpCommon the_fcb trace].
  rewrite run_bind. cbn [run set_tcp_common get_fcb put_fcb mbind Exec_bind
    heap tableFcbTcpCommon return_tableFcbTcpCommon the_fcb trace tcpin].
  rewrite run_bind.
  erewrite (run_update_common _ _ a) by solve_pointer.
  cbn [run modify_tcpin get_fcb put_fcb mbind Exec_bind
    heap tableFcbTcpCommon return_tableFcbTcpCommon the_fcb trace tcpin tcp_common
    poolModificationNodes poolModificationLists modificationLists].
  rewrite run_bind. erewrite (run_update_common _ _ a) by solve_pointer.
  rewrite run_bind. erewrite (run_update_common _ _ a) by solve_pointer.
  rewrite run_bind. erewrite (run_update_common _ _ a) by solve_pointer.
  rewrite run_bind. erewrite (run_update_common _ _ a) by solve_pointer.
  rewrite run_ret. cbn [heap tableFcbTcpCommon return_tableFcbTcpCommon the_fcb trace].
  rewrite !insert_insert_eq, !with_maintainer_twice. reflexivity.
Qed.

Lemma get_both {A} (d : FlowDirection) (v : A) : get d (mkArray2 v v) = v.
Proof. destruct d; reflexivity. Qed.

Lemma opposite_differs (d : FlowDirection) : opposite d <> d.
Proof. destruct d; discriminate. Qed.

(** [assignTCPCommon] on the SYN+ACK of a responder whose initiator is
    known to the return element: the record found under the reversed
    4-tuple is put in the FCB, which is not in charge of it, and this
    direction is attached to it. *)
Lemma run_assignTCPCommon_responder
    (s : State) (p : Packet) (a : nat) (c : fcb_tcp_common) :
  isSyn p = true ->
  isAck p = true ->
  getTCPCommon (return_tableFcbTcpCommon s)
               (ip_dst p, th_dport p, ip_src p, th_sport p) = Some a ->
  heap s !! a = Some c ->
  run (assignTCPCommon p) s =
  Done true
    (mkState (<[a := attached p c]> (heap s))
             (tableFcbTcpCommon s) (return_tableFcbTcpCommon s)
             (mkFcb (Some a)
                (mkFcbTcpin (poolModificationNodes (tcpin (the_fcb s)))
                            (poolModificationLists (tcpin (the_fcb s)))
                            false (flowID (tcpin (the_fcb s)))
                            (tableTcpCommon (tcpin (the_fcb s)))
                            (poolTcpCommon (tcpin (the_fcb s)))
                            (modificationLists (tcpin (the_fcb s)))))
             (trace s)).
Proof.
  intros Hsyn Hack Hfind Hc. unfold getTCPCommon in Hfind.
  unfold isSyn, checkFlag in Hsyn. apply negb_true_iff in Hsyn.
  unfold isAck, checkFlag in Hack. apply negb_true_iff in Hack.
  unfold assignTCPCommon. cbv zeta. rewrite Hsyn, Hack. cbn [negb].
  rewrite run_bind. rewrite run_bind.
  cbn [run return_getTCPCommon]. unfold getTCPCommon. rewrite Hfind.
  rewrite run_bind. cbn [run set_tcp_common get_fcb put_fcb mbind Exec_bind
    heap tableFcbTcpCommon return_tableFcbTcpCommon the_fcb trace tcpin].
  rewrite run_bind.
  erewrite (run_update_common _ _ a) by solve_pointer.
  cbn [run modify_tcpin get_fcb put_fcb mbind Exec_bind
    heap tableFcbTcpCommon return_tableFcbTcpCommon the_fcb trace tcpin tcp_common
    poolModificationNodes poolModificationLists modificationLists flowID
    tableTcpCommon poolTcpCommon].
  rewrite run_bind. erewrite (run_update_common _ _ a) by solve_pointer.
  rewrite run_bind. erewrite (run_update_common _ _ a) by solve_pointer.
  rewrite run_bind. erewrite (run_update_common _ _ a) by solve_pointer.
  rewrite run_bind. erewrite (run_update_common _ _ a) by solve_pointer.
  rewrite run_ret. cbn [heap tableFcbTcpCommon return_tableFcbTcpCommon the_fcb trace].
  rewrite !insert_insert_eq, !with_maintainer_twice. reflexivity.
Qed.

(** *** Packets on a direction that is closed *)

(** The record of the connection of a packet: the one the FCB points at
    or, for the first packet of a flow when it is a SYN+ACK, the one the
    return element holds under the reversed 4-tuple.  (The SYN of an
    initiator constructs its record, and any other first packet is dropped
    for want of one.) *)
Definition arrivesOn (s : State) (p : Packet) (a : nat) : Prop :=
  match tcp_common (the_fcb s) with
  | Some a' => a' = a
  | None =>
      isSyn p = true /\ isAck p = true /\
      getTCPCommon (return_tableFcbTcpCommon s)
                   (ip_dst p, th_dport p, ip_src p, th_sport p) = Some a
  end.

(** A SYN on an FCB that has its record: "Unexpected SYN packet". *)
Definition unexpectedSyn (s : State) (p : Packet) : bool :=
  match tcp_common (the_fcb s) with
  | Some _ => isSyn p
  | None => false
  end.

(** The closing check and the drop that follows it, on a direction that is
    not OPEN. *)
Lemma run_afterAssociation_closed
    (s : State) (p : Packet) (a : nat) (c : fcb_tcp_common) :
  tcp_common (the_fcb s) = Some a ->
  heap s !! a = Some c ->
  get getFlowDirection (closingStates c) <> TCPClosingState.OPEN ->
  exists s' : State,
    run (afterAssociation p) s = Done None s' /\
    trace s' =
      trace s
      ++ (if TCPClosingState.graceful (get getFlowDirection (closingStates c))
             && (isFin p || isSyn p || (0 <? getPayloadLength p))
          then [unmappedAck p] else [])
      ++ [EvKill p].
Proof.
  intros Hp Hc Hclosed.
  unfold afterAssociation, checkConnectionClosed.
  rewrite run_bind, run_bind.
  rewrite (run_common s a c Hp Hc). cbn [snd].
  destruct (get getFlowDirection (closingStates c)) eqn:Hstate;
    [contradiction | | | | ];
    cbn [TCPClosingState.eqb TCPClosingState.graceful negb orb andb];
    rewrite run_bind.
  1,2: destruct (isFin p || isSyn p || (0 <? getPayloadLength p));
       [ destruct (run_ackPacket_unmapped s p a c Hp Hc) as [h ->];
         eexists; split; [reflexivity|]; cbn [trace];
         rewrite <- app_assoc; reflexivity
       | eexists; split; [reflexivity|]; reflexivity ].
  all: eexists; split; [reflexivity|]; reflexivity.
Qed.

(** C3, as the code has it: on a direction whose closing state is not OPEN
    [processPacket] drops every packet and returns none, whether the FCB
    already points at the record of the connection or the packet is the
    first SYN+ACK of a responder that finds the record in the return
    element.  Before the drop an ACK is sent back ([ackPacket] with
    [ackMapped = false]) exactly when the state is BEING_CLOSED_GRACEFUL or
    CLOSED_GRACEFUL and the packet carries payload, a FIN or a SYN, except
    for a SYN on an FCB that already has its record, which is dropped as
    unexpected before the closing check; in the two ungraceful states
    nothing is sent. *)
Theorem closed_direction_drops_and_acks_when_graceful
    (s : State) (p : Packet) (a : nat) (c : fcb_tcp_common) :
  arrivesOn s p a ->
  heap s !! a = Some c ->
  get getFlowDirection (closingStates c) <> TCPClosingState.OPEN ->
  exists s' : State,
    run (processPacket p) s = Done None s' /\
    trace s' =
      trace s
      ++ (if TCPClosingState.graceful (get getFlowDirection (closingStates c))
             && (isFin p || isSyn p || (0 <? getPayloadLength p))
             && negb (unexpectedSyn s p)
          then [unmappedAck p] else [])
      ++ [EvKill p].
Proof.
  intros Harrives Hc Hclosed. unfold arrivesOn, unexpectedSyn in *.
  destruct (tcp_common (the_fcb s)) as [a'|] eqn:Hp.
  - subst a'. rewrite (processPacket_associated s p a Hp).
    destruct (isSyn p) eqn:Hsyn; cbn [negb].
    + eexists. split; [reflexivity|]. cbn [trace poolsSet].
      rewrite andb_false_r. reflexivity.
    + rewrite andb_true_r. rewrite <- Hsyn.
      apply (run_afterAssociation_closed (poolsSet s) p a c Hp Hc Hclosed).
  - destruct Harrives as (Hsyn & Hack & Hfind).
    rewrite (processPacket_unassociated s p Hp).
    rewrite (run_assignTCPCommon_responder (poolsSet s) p a c Hsyn Hack Hfind Hc).
    cbn [negb]. rewrite andb_true_r.
    destruct (run_afterAssociation_closed
                (mkState (<[a := attached p c]> (heap (poolsSet s)))
                   (tableFcbTcpCommon (poolsSet s))
                   (return_tableFcbTcpCommon (poolsSet s))
                   (mkFcb (Some a)
                      (mkFcbTcpin
                         (poolModificationNodes (tcpin (the_fcb (poolsSet s))))
                         (poolModificationLists (tcpin (the_fcb (poolsSet s))))
                         false (flowID (tcpin (the_fcb (poolsSet s))))
                         (tableTcpCommon (tcpin (the_fcb (poolsSet s))))
                         (poolTcpCommon (tcpin (the_fcb (poolsSet s))))
                         (modificationLists (tcpin (the_fcb (poolsSet s))))))
                   (trace (poolsSet s)))
                p a (attached p c) eq_refl (lookup_insert_eq _ _ _) Hclosed)
      as (s' & Hrun & Htrace).
    exists s'. split; [exact Hrun | exact Htrace].
Qed.

(** [processPacket] on the SYN of an initiator. *)
Lemma run_processPacket_initiator (s : State) (p : Packet) :
  tcp_common (the_fcb s) = None ->
  isSyn p = true ->
  isAck p = false ->
  let a := fresh (dom (heap s)) in
  let fid : IPFlowID := (ip_src p, th_sport p, ip_dst p, th_dport p) in
  run (processPacket p) s =
  Done (Some (with_contentOffset (getPayloadOffset p) p))
    (mkState (<[a := recordOfInitiator p]> (heap s))
             (<[fid := a]> (tableFcbTcpCommon s))
             (return_tableFcbTcpCommon s)
             (mkFcb (Some a)
                (mkFcbTcpin true true true (Some fid) true true
                            (modificationLists (tcpin (the_fcb s)))))
             (trace s)).
Proof.
  intros Hp Hsyn Hack a fid.
  rewrite (processPacket_unassociated s p Hp).
  rewrite (run_assignTCPCommon_initiator (poolsSet s) p Hsyn Hack).
  cbv zeta. cbn [poolsSet heap tableFcbTcpCommon return_tableFcbTcpCommon
    the_fcb trace tcpin poolModificationNodes poolModificationLists modificationLists].
  fold a. fold fid.
  unfold afterAssociation. rewrite run_bind.
  erewrite (run_checkConnectionClosed_open _ p a (recordOfInitiator p));
    [ | reflexivity | apply lookup_insert_eq | apply get_both ].
  cbn [negb]. unfold afterClosingCheck. cbv zeta.
  rewrite run_bind. erewrite (run_common _ a) by solve_pointer. cbn [snd].
  change (isSyn (with_contentOffset (getPayloadOffset p) p)) with (isSyn p).
  change (isAck (with_contentOffset (getPayloadOffset p) p)) with (isAck p).
  rewrite Hsyn, Hack. cbn [negb andb]. rewrite run_ret. reflexivity.
Qed.

(** The SYN of an initiator goes through [processPacket]: the packet is
    returned with its content offset set, and a record that was not in use
    is now in the FCB, which is in charge of it, and can be found in the
    table of the element under the 4-tuple of the packet; the other records
    and the other entries of the table are as before. *)
Theorem syn_of_initiator_publishes_a_fresh_record (s : State) (p : Packet) :
  tcp_common (the_fcb s) = None ->
  isSyn p = true ->
  isAck p = false ->
  let a := fresh (dom (heap s)) in
  let fid : IPFlowID := (ip_src p, th_sport p, ip_dst p, th_dport p) in
  exists s' : State,
    run (processPacket p) s
    = Done (Some (with_contentOffset (getPayloadOffset p) p)) s' /\
    heap s !! a = None /\
    tcp_common (the_fcb s') = Some a /\
    inChargeOfTcpCommon (tcpin (the_fcb s')) = true /\
    getTCPCommon (tableFcbTcpCommon s') fid = Some a /\
    heap s' !! a = Some (recordOfInitiator p) /\
    (forall b, b <> a -> heap s' !! b = heap s !! b) /\
    (forall k, k <> fid -> tableFcbTcpCommon s' !! k = tableFcbTcpCommon s !! k) /\
    trace s' = trace s.
Proof.
  intros Hp Hsyn Hack a fid.
  rewrite (run_processPacket_initiator s p Hp Hsyn Hack). fold a. fold fid.
  eexists. split; [reflexivity|]. cbn [heap tableFcbTcpCommon the_fcb trace
    tcp_common tcpin inChargeOfTcpCommon].
  split; [apply not_elem_of_dom; apply is_fresh|].
  split; [reflexivity|]. split; [reflexivity|].
  split; [apply lookup_insert_eq|]. split; [apply lookup_insert_eq|].
  split; [intros b Hb; apply lookup_insert_ne; congruence|].
  split; [intros k Hk; apply lookup_insert_ne; congruence|reflexivity].
Qed.

(** *** The ACK of a forwarded packet *)

(** The events of [setPacketDirty] when the mapped ACK number differs. *)
Definition dirtyEvents (p : Packet) (newAckNumber : Z) : list Event :=
  if getAckNumber p =? newAckNumber then []
  else [EvStackSetPacketDirty (forwarded p newAckNumber)].

(** The part of [processPacket] that follows the closing check, for a packet
    with the ACK flag that passes the lost-ACK test and is not a pure ACK
    below the last ACK sent. *)
Lemma run_afterClosingCheck_ack
    (s : State) (p : Packet) (a : nat) (c : fcb_tcp_common) :
  tcp_common (the_fcb s) = Some a ->
  heap s !! a = Some c ->
  negb (isSyn p)
    && SEQ_LT (getSequenceNumber p)
              (getLastAckSent (get getOppositeFlowDirection (maintainers c)))
    = false ->
  isAck p = true ->
  let newAckNumber :=
    mapAck (get getOppositeFlowDirection (maintainers c)) (getAckNumber p) in
  isJustAnAck p
    && SEQ_LT newAckNumber
         (getLastAckSent (setLastAckReceived (get getFlowDirection (maintainers c))
                                             (getAckNumber p)))
    = false ->
  run (afterClosingCheck p) s =
  Done (Some (forwarded p newAckNumber))
    (mkState (<[a := acknowledged (getAckNumber p) c]> (heap s))
             (tableFcbTcpCommon s) (return_tableFcbTcpCommon s) (the_fcb s)
             (trace s ++ dirtyEvents p newAckNumber)).
Proof.
  intros Hp Hc Hlost Hack newAckNumber Hpure.
  unfold afterClosingCheck. cbv zeta.
  set (packet := with_contentOffset (getPayloadOffset p) p).
  rewrite run_bind, (run_common s a c Hp Hc). cbn [snd].
  change (isSyn packet) with (isSyn p).
  change (isAck packet) with (isAck p).
  change (isJustAnAck packet) with (isJustAnAck p).
  change (getSequenceNumber packet) with (getSequenceNumber p).
  change (getAckNumber packet) with (getAckNumber p).
  rewrite Hlost, Hack.
  rewrite run_bind, (run_common s a c Hp Hc). cbn [snd].
  fold newAckNumber.
  rewrite run_bind. erewrite (run_update_common _ _ a) by solve_pointer.
  rewrite run_bind. erewrite (run_update_common _ _ a) by solve_pointer.
  rewrite run_bind. erewrite (run_update_common _ _ a) by solve_pointer.
  rewrite run_bind. erewrite (run_common _ a) by solve_pointer.
  cbn [snd heap tableFcbTcpCommon return_tableFcbTcpCommon the_fcb trace].
  rewrite !insert_insert_eq.
  fold (acknowledged (getAckNumber p) c).
  replace (get getFlowDirection (maintainers (acknowledged (getAckNumber p) c)))
    with (setLastAckReceived (get getFlowDirection (maintainers c)) (getAckNumber p))
    by (unfold acknowledged; array2; reflexivity).
  rewrite Hpure. unfold dirtyEvents, forwarded. cbv zeta. fold packet.
  destruct (getAckNumber p =? newAckNumber); cbn [negb].
  - rewrite run_ret, app_nil_r. reflexivity.
  - reflexivity.
Qed.

(** ACK remapping: on an associated, open direction, a packet with the ACK
    flag that is neither a SYN, nor below the last ACK sent by the other
    direction, nor a pure ACK below the last ACK sent in its own direction,
    is returned with the ACK number [mapAck] of the opposite maintainer
    gives; it is marked dirty, and the stack told so, exactly when that
    number differs from the one received.  The ACK number received becomes
    the last ACK received of this direction, and the opposite maintainer is
    pruned and the opposite timing signalled with it. *)
Theorem ack_is_remapped_and_marked_dirty
    (s : State) (p : Packet) (a : nat) (c : fcb_tcp_common) :
  tcp_common (the_fcb s) = Some a ->
  heap s !! a = Some c ->
  get getFlowDirection (closingStates c) = TCPClosingState.OPEN ->
  isSyn p = false ->
  isAck p = true ->
  SEQ_LT (getSequenceNumber p)
         (getLastAckSent (get getOppositeFlowDirection (maintainers c))) = false ->
  let newAckNumber :=
    mapAck (get getOppositeFlowDirection (maintainers c)) (getAckNumber p) in
  isJustAnAck p
    && SEQ_LT newAckNumber
         (getLastAckSent (setLastAckReceived (get getFlowDirection (maintainers c))
                                             (getAckNumber p)))
    = false ->
  exists (s' : State) (c' : fcb_tcp_common),
    run (processPacket p) s = Done (Some (forwarded p newAckNumber)) s' /\
    getAckNumber (forwarded p newAckNumber) = newAckNumber /\
    (dirty (forwarded p newAckNumber) = true <->
       dirty p = true \/ newAckNumber <> getAckNumber p) /\
    trace s' = trace s ++ dirtyEvents p newAckNumber /\
    heap s' !! a = Some c' /\
    get getFlowDirection (maintainers c')
      = setLastAckReceived (get getFlowDirection (maintainers c)) (getAckNumber p) /\
    get getOppositeFlowDirection (maintainers c')
      = prune (get getOppositeFlowDirection (maintainers c)) (getAckNumber p) /\
    get getOppositeFlowDirection (retransmissionTimings c')
      = signalAck (get getOppositeFlowDirection (retransmissionTimings c))
                  (getAckNumber p) /\
    get getFlowDirection (retransmissionTimings c')
      = get getFlowDirection (retransmissionTimings c).
Proof.
  intros Hp Hc Hopen Hsyn Hack Hseq newAckNumber Hpure.
  rewrite (processPacket_associated s p a Hp), Hsyn.
  unfold afterAssociation. rewrite run_bind.
  rewrite (run_checkConnectionClosed_open (poolsSet s) p a c Hp Hc Hopen).
  cbn [negb].
  rewrite (run_afterClosingCheck_ack (poolsSet s) p a c Hp Hc);
    [ | rewrite Hseq; apply andb_false_r | exact Hack | exact Hpure ].
  fold newAckNumber.
  exists (mkState (<[a := acknowledged (getAckNumber p) c]> (heap (poolsSet s)))
            (tableFcbTcpCommon (poolsSet s)) (return_tableFcbTcpCommon (poolsSet s))
            (the_fcb (poolsSet s))
            (trace (poolsSet s) ++ dirtyEvents p newAckNumber)),
         (acknowledged (getAckNumber p) c).
  split; [reflexivity|]. split.
  { unfold forwarded. cbv zeta.
    destruct (Z.eqb_spec (getAckNumber p) newAckNumber) as [Heq|Hne];
      [exact Heq | reflexivity]. }
  split.
  { unfold forwarded. cbv zeta.
    destruct (Z.eqb_spec (getAckNumber p) newAckNumber) as [Heq|Hne]; cbn.
    - split; [intros H; left; exact H | intros [H|H]; [exact H | congruence]].
    - split; [intros _; right; congruence | reflexivity]. }
  split; [reflexivity|]. split; [apply lookup_insert_eq|].
  unfold acknowledged.
  split; [array2; reflexivity|]. split; [array2; reflexivity|].
  split; [array2; reflexivity | array2; reflexivity].
Qed.

(** [processPacket] on the SYN+ACK of a responder whose initiator is known
    to the return element. *)
Lemma run_processPacket_responder
    (s : State) (p : Packet) (a : nat) (c : fcb_tcp_common) :
  tcp_common (the_fcb s) = None ->
  isSyn p = true ->
  isAck p = true ->
  getTCPCommon (return_tableFcbTcpCommon s)
               (ip_dst p, th_dport p, ip_src p, th_sport p) = Some a ->
  heap s !! a = Some c ->
  get getFlowDirection (closingStates c) = TCPClosingState.OPEN ->
  let newAckNumber :=
    mapAck (get getOppositeFlowDirection (maintainers c)) (getAckNumber p) in
  run (processPacket p) s =
  Done (Some (forwarded p newAckNumber))
    (mkState (<[a := acknowledged (getAckNumber p) (attached p c)]> (heap s))
             (tableFcbTcpCommon s) (return_tableFcbTcpCommon s)
             (mkFcb (Some a)
                (mkFcbTcpin true true false (flowID (tcpin (the_fcb s)))
                            (tableTcpCommon (tcpin (the_fcb s)))
                            (poolTcpCommon (tcpin (the_fcb s)))
                            (modificationLists (tcpin (the_fcb s)))))
             (trace s ++ dirtyEvents p newAckNumber)).
Proof.
  intros Hp Hsyn Hack Hfind Hc Hopen newAckNumber.
  rewrite (processPacket_unassociated s p Hp).
  rewrite (run_assignTCPCommon_responder (poolsSet s) p a c Hsyn Hack Hfind Hc).
  cbn [poolsSet heap tableFcbTcpCommon return_tableFcbTcpCommon
    the_fcb trace tcpin poolModificationNodes poolModificationLists modificationLists
    flowID tableTcpCommon poolTcpCommon].
  unfold afterAssociation. rewrite run_bind.
  erewrite (run_checkConnectionClosed_open _ p a (attached p c));
    [ | reflexivity | apply lookup_insert_eq | exact Hopen ].
  cbn [negb].
  erewrite (run_afterClosingCheck_ack _ p a (attached p c));
    [ | reflexivity | apply lookup_insert_eq
      | rewrite Hsyn; reflexivity | exact Hack
      | destruct (isJustAnAck p) eqn:Hjust;
        [ rewrite (isJustAnAck_not_syn p Hjust) in Hsyn; discriminate
        | reflexivity ] ].
  cbn [heap tableFcbTcpCommon return_tableFcbTcpCommon the_fcb trace].
  rewrite insert_insert_eq.
  replace (get getOppositeFlowDirection (maintainers (attached p c)))
    with (get getOppositeFlowDirection (maintainers c))
    by (unfold attached; array2; reflexivity).
  reflexivity.
Qed.

(** The SYN+ACK of a responder joins the record of the initiator when the
    direction of the responder is OPEN in it: the record found in the table
    of the return element under the reversed 4-tuple is now in the FCB,
    which is not in charge of it; the packet is returned with its ACK
    number mapped; in the record, the maintainer of the initiator is pruned
    and otherwise untouched, and the closing states are as they were.  (On
    a record whose direction is closed the packet joins the record and is
    dropped.) *)
Theorem synack_of_responder_joins_the_record
    (s : State) (p : Packet) (a : nat) (c : fcb_tcp_common) :
  tcp_common (the_fcb s) = None ->
  isSyn p = true ->
  isAck p = true ->
  getTCPCommon (return_tableFcbTcpCommon s)
               (ip_dst p, th_dport p, ip_src p, th_sport p) = Some a ->
  heap s !! a = Some c ->
  get getFlowDirection (closingStates c) = TCPClosingState.OPEN ->
  let newAckNumber :=
    mapAck (get getOppositeFlowDirection (maintainers c)) (getAckNumber p) in
  exists (s' : State) (c' : fcb_tcp_common),
    run (processPacket p) s = Done (Some (forwarded p newAckNumber)) s' /\
    tcp_common (the_fcb s') = Some a /\
    inChargeOfTcpCommon (tcpin (the_fcb s')) = false /\
    tableFcbTcpCommon s' = tableFcbTcpCommon s /\
    heap s' !! a = Some c' /\
    (forall b, b <> a -> heap s' !! b = heap s !! b) /\
    get getOppositeFlowDirection (maintainers c')
      = prune (get getOppositeFlowDirection (maintainers c)) (getAckNumber p) /\
    closingStates c' = closingStates c.
Proof.
  intros Hp Hsyn Hack Hfind Hc Hopen newAckNumber.
  rewrite (run_processPacket_responder s p a c Hp Hsyn Hack Hfind Hc Hopen).
  fold newAckNumber. eexists _, _. split; [reflexivity|].
  cbn [heap tableFcbTcpCommon the_fcb tcp_common tcpin inChargeOfTcpCommon].
  split; [reflexivity|]. split; [reflexivity|]. split; [reflexivity|].
  split; [apply lookup_insert_eq|].
  split; [intros b Hb; apply lookup_insert_ne; congruence|].
  unfold acknowledged, attached.
  split; [array2; reflexivity | reflexivity].
Qed.

(** *** Removing and inserting bytes *)

(** The state once an edit was recorded in the list of [p]. *)
Definition recorded (s : State) (p : Packet) (seq delta : Z) : State :=
  mkState (heap s) (tableFcbTcpCommon s) (return_tableFcbTcpCommon s)
    (mkFcb (tcp_common (the_fcb s))
       (mkFcbTcpin (poolModificationNodes (tcpin (the_fcb s)))
                   (poolModificationLists (tcpin (the_fcb s)))
                   (inChargeOfTcpCommon (tcpin (the_fcb s)))
                   (flowID (tcpin (the_fcb s)))
                   (tableTcpCommon (tcpin (the_fcb s)))
                   (poolTcpCommon (tcpin (the_fcb s)))
                   (<[getSequenceNumber p := addModification (listOf s p) seq delta]>
                      (modificationLists (tcpin (the_fcb s))))))
    (trace s).

Lemma run_record_edit (s : State) (p : Packet) (seq delta : Z) :
  poolModificationLists (tcpin (the_fcb s)) = true ->
  run (list ← getModificationList p; list_addModification p list seq delta) s
  = Done tt (recorded s p seq delta).
Proof.
  intros Hpool. rewrite run_bind. unfold getModificationList, recorded, listOf.
  rewrite run_bind. cbn [run get_fcb]. cbv zeta.
  destruct (modificationLists (tcpin (the_fcb s)) !! getSequenceNumber p)
    as [list|] eqn:Hlist; cbn [default].
  - reflexivity.
  - rewrite Hpool.
    cbn [run modify_tcpin list_addModification get_fcb put_fcb mbind mret
      Exec_bind Exec_ret the_fcb tcpin tcp_common heap tableFcbTcpCommon
      return_tableFcbTcpCommon trace poolModificationNodes poolModificationLists
      inChargeOfTcpCommon flowID tableTcpCommon poolTcpCommon modificationLists].
    rewrite insert_insert_eq, ?Hpool. reflexivity.
Qed.

Lemma run_removeBytes (s : State) (p : Packet) (position length : Z) :
  poolModificationLists (tcpin (the_fcb s)) = true ->
  let at_ := u32 (position + contentOffset p) in
  at_ + length <= packet_length p ->
  let packet :=
    with_data (take (Z.to_nat at_) (data p)
               ++ drop (Z.to_nat (at_ + length)) (data p)) p in
  run (removeBytes p position length) s =
  Done packet
    (logged (recorded s p (u32 (getSequenceNumber p + at_ - getPayloadOffset p))
                      (to_int (- to_int length)))
            (EvStackRemoveBytes packet at_ length)).
Proof.
  intros Hpool at_ Hrange packet. unfold removeBytes. cbv zeta. fold at_.
  rewrite run_bind.
  change (run (getModificationList p) s)
    with (run (getModificationList p) s).
  pose proof (run_record_edit s p
                (u32 (getSequenceNumber p + at_ - getPayloadOffset p))
                (to_int (- to_int length)) Hpool) as Hrec.
  rewrite run_bind in Hrec.
  destruct (run (getModificationList p) s) as [list s1|e]; [|discriminate].
  rewrite run_bind, Hrec.
  apply Z.leb_le in Hrange. rewrite Hrange. reflexivity.
Qed.

Lemma run_insertBytes (s : State) (p : Packet) (position length : Z) :
  poolModificationLists (tcpin (the_fcb s)) = true ->
  let at_ := u32 (position + contentOffset p) in
  at_ <= packet_length p ->
  let newPacket :=
    with_data (take (Z.to_nat at_) (data p)
               ++ take (Z.to_nat length)
                    (drop (Z.to_nat at_)
                       (data p ++ replicate (Z.to_nat length) Byte.x00))
               ++ drop (Z.to_nat at_) (data p)) p in
  run (insertBytes p position length) s =
  Done newPacket
    (recorded s p (u32 (getSequenceNumber p + at_ - getPayloadOffset p))
              (to_int length)).
Proof.
  intros Hpool at_ Hrange newPacket. unfold insertBytes. cbv zeta. fold at_.
  pose proof (run_record_edit s p
                (u32 (getSequenceNumber p + at_ - getPayloadOffset p))
                (to_int length) Hpool) as Hrec.
  rewrite run_bind in Hrec. rewrite run_bind.
  destruct (run (getModificationList p) s) as [list s1|e]; [|discriminate].
  rewrite run_bind, Hrec.
  apply Z.leb_le in Hrange. rewrite Hrange. reflexivity.
Qed.

Lemma u32_small (z : Z) : 0 <= z < 2 ^ 32 -> u32 z = z.
Proof. intros Hz. unfold u32, wrap. apply Z.mod_small. exact Hz. Qed.

Lemma to_int_neg (z : Z) : 0 <= z < 2 ^ 31 -> to_int (- to_int z) = - z.
Proof.
  intros Hz. unfold to_int.
  rewrite (u32_small z) by lia.
  destruct (Z.ltb_spec z (2 ^ 31)) as [_|]; [|lia].
  destruct (Z.eq_dec z 0) as [->|Hpos]; [reflexivity|].
  replace (u32 (- z)) with (2 ^ 32 - z).
  - destruct (Z.ltb_spec (2 ^ 32 - z) (2 ^ 31)); lia.
  - unfold u32, wrap.
    apply Z.mod_unique with (q := -1); lia.
Qed.

Lemma to_int_small (z : Z) : 0 <= z < 2 ^ 31 -> to_int z = z.
Proof.
  intros Hz. unfold to_int. rewrite (u32_small z) by lia.
  destruct (Z.ltb_spec z (2 ^ 31)); lia.
Qed.

Lemma with_data_same (p : Packet) : with_data (data p) p = p.
Proof. destruct p. reflexivity. Qed.

(** [removeBytes] cuts the bytes [position .. position + length - 1] of the
    content out of the packet: the bytes before them (headers included) stay
    where they are, the bytes after them move down by [length], the packet
    gets [length] bytes shorter; the list of the packet records a removal
    of [length] bytes, and the rest of the stack is told about the packet as
    it is after the cut. *)
Theorem removeBytes_cuts_the_bytes_out
    (s : State) (p : Packet) (position length : Z) :
  poolModificationLists (tcpin (the_fcb s)) = true ->
  0 <= contentOffset p -> 0 <= position -> 0 <= length < 2 ^ 31 ->
  contentOffset p + position + length <= packet_length p ->
  packet_length p < 2 ^ 32 ->
  let first := Z.to_nat (contentOffset p + position) in
  let count := Z.to_nat length in
  exists (packet : Packet) (s' : State),
    run (removeBytes p position length) s = Done packet s' /\
    packet_length packet = packet_length p - length /\
    (forall i : nat, (i < first)%nat -> data packet !! i = data p !! i) /\
    (forall i : nat, data packet !! (first + i)%nat
                     = data p !! (first + count + i)%nat) /\
    modificationLists (tcpin (the_fcb s')) !! getSequenceNumber p
      = Some (addModification (listOf s p)
                (u32 (getSequenceNumber p + (contentOffset p + position)
                      - getPayloadOffset p))
                (- length)) /\
    trace s' = trace s ++ [EvStackRemoveBytes packet (contentOffset p + position) length].
Proof.
  intros Hpool Hoffset Hposition Hlength Hrange Hsize first count.
  assert (Hat : u32 (position + contentOffset p) = contentOffset p + position).
  { rewrite u32_small by lia. lia. }
  pose proof (run_removeBytes s p position length Hpool) as Hrun.
  cbv zeta in Hrun. rewrite Hat in Hrun.
  rewrite (to_int_neg length Hlength) in Hrun.
  eexists. eexists. split; [apply Hrun; lia|].
  unfold packet_length in *. cbn [data with_data].
  replace (Z.to_nat (contentOffset p + position + length))
    with (first + count)%nat by (subst first count; lia).
  fold first.
  assert (Hfirst : (first + count <= List.length (data p))%nat)
    by (subst first count; lia).
  split; [|split; [|split; [|split]]].
  - rewrite length_app, length_take, length_drop. lia.
  - intros i Hi. rewrite lookup_app_l by (rewrite length_take; lia).
    apply lookup_take_lt. exact Hi.
  - intros i. rewrite lookup_app_r by (rewrite length_take; lia).
    rewrite length_take, lookup_drop. f_equal. lia.
  - cbn [logged recorded the_fcb tcpin modificationLists].
    apply lookup_insert_eq.
  - reflexivity.
Qed.

(** [insertBytes] opens a gap of [length] bytes at [position] of the
    content: the bytes before it (headers included) stay where they are, the
    bytes from [position] on move up by [length], the packet gets [length]
    bytes longer; the list of the packet records an insertion of [length]
    bytes. *)
Theorem insertBytes_opens_a_gap
    (s : State) (p : Packet) (position length : Z) :
  poolModificationLists (tcpin (the_fcb s)) = true ->
  0 <= contentOffset p -> 0 <= position -> 0 <= length < 2 ^ 31 ->
  contentOffset p + position <= packet_length p ->
  packet_length p < 2 ^ 32 ->
  let first := Z.to_nat (contentOffset p + position) in
  let count := Z.to_nat length in
  exists (newPacket : Packet) (s' : State),
    run (insertBytes p position length) s = Done newPacket s' /\
    packet_length newPacket = packet_length p + length /\
    (forall i : nat, (i < first)%nat -> data newPacket !! i = data p !! i) /\
    (forall i : nat, data newPacket !! (first + count + i)%nat
                     = data p !! (first + i)%nat) /\
    modificationLists (tcpin (the_fcb s')) !! getSequenceNumber p
      = Some (addModification (listOf s p)
                (u32 (getSequenceNumber p + (contentOffset p + position)
                      - getPayloadOffset p))
                length).
Proof.
  intros Hpool Hoffset Hposition Hlength Hrange Hsize first count.
  assert (Hat : u32 (position + contentOffset p) = contentOffset p + position).
  { rewrite u32_small by lia. lia. }
  pose proof (run_insertBytes s p position length Hpool) as Hrun.
  cbv zeta in Hrun. rewrite Hat in Hrun.
  rewrite (to_int_small length Hlength) in Hrun.
  eexists. eexists. split; [apply Hrun; lia|].
  unfold packet_length in *. cbn [data with_data]. fold first count.
  assert (Hfirst : (first <= List.length (data p))%nat) by (subst first; lia).
  assert (Hgap : List.length (take count (drop first (data p ++ replicate count Byte.x00)))
                 = count).
  { rewrite length_take, length_drop, length_app, length_replicate. lia. }
  split; [|split; [|split]].
  - rewrite !length_app, Hgap, length_take, length_drop. lia.
  - intros i Hi. rewrite lookup_app_l by (rewrite length_take; lia).
    apply lookup_take_lt. exact Hi.
  - intros i. rewrite lookup_app_r by (rewrite length_take; lia).
    replace (first + count + i - List.length (take first (data p)))%nat
      with (count + i)%nat by (rewrite length_take; lia).
    rewrite lookup_app_r by (rewrite Hgap; lia).
    rewrite Hgap, lookup_drop. f_equal. lia.
  - cbn [recorded the_fcb tcpin modificationLists].
    apply lookup_insert_eq.
Qed.


(** [requestMorePackets] acknowledges the packet to its sender, with the
    sequence number of the ACK taken through [mapSeq] of the other
    direction, acknowledging up to the next sequence number expected after
    the packet, and then passes the request on to the rest of the stack. *)
Theorem requestMorePackets_acks_then_forwards
    (s : State) (p : Packet) (a : nat) (c : fcb_tcp_common) :
  tcp_common (the_fcb s) = Some a ->
  heap s !! a = Some c ->
  exists s' : State,
    run (requestMorePackets p) s = Done tt s' /\
    trace s' = trace s ++
      [EvSendAck getOppositeFlowDirection
         (getDestinationAddress p) (getSourceAddress p)
         (getDestinationPort p) (getSourcePort p)
         (mapSeq (get getOppositeFlowDirection (maintainers c)) (getAckNumber p))
         (getNextSequenceNumber p);
       EvStackRequestMorePackets p] /\
    the_fcb s' = the_fcb s /\
    tableFcbTcpCommon s' = tableFcbTcpCommon s.
Proof.
  intros Hp Hc. unfold requestMorePackets, ackPacket.
  rewrite !run_bind. rewrite (run_common s a c Hp Hc).
  cbv beta iota. rewrite run_ret, run_bind.
  rewrite (run_update_common _ s a c Hp Hc).
  cbv beta iota. cbn [run emit]. eexists. split; [reflexivity|].
  cbn [trace the_fcb tableFcbTcpCommon].
  rewrite <- app_assoc. split; [reflexivity|]. split; reflexivity.
Qed.

(** *** Closing and the packets that follow *)

(** What [closeConnection] leaves: the FCB and the tables as they were, the
    record of the connection with the closing states set. *)
Lemma run_closeConnection_states
    (s : State) (p : Packet) (graceful bothSides : bool)
    (a : nat) (c : fcb_tcp_common) :
  tcp_common (the_fcb s) = Some a ->
  heap s !! a = Some c ->
  exists (s' : State) (c' : fcb_tcp_common),
    run (closeConnection p graceful bothSides) s
    = Done (closingPacket p graceful) s' /\
    the_fcb s' = the_fcb s /\
    heap s' !! a = Some c' /\
    get getFlowDirection (closingStates c') <> TCPClosingState.OPEN /\
    (bothSides = true ->
     get getOppositeFlowDirection (closingStates c') <> TCPClosingState.OPEN).
Proof.
  intros Hp Hc. unfold closeConnection. cbv zeta.
  fold (closingPacket p graceful).
  rewrite run_bind, (run_update_common _ s a c Hp Hc).
  destruct bothSides.
  - rewrite run_bind, run_bind.
    erewrite (run_update_common _ _ a) by solve_pointer.
    rewrite run_bind. erewrite (run_common _ a) by solve_pointer.
    rewrite run_bind. erewrite (run_update_common _ _ a) by solve_pointer.
    cbn [run emit mbind mret Exec_bind Exec_ret heap trace the_fcb
      tableFcbTcpCommon return_tableFcbTcpCommon].
    eexists _, _. split; [reflexivity|]. cbn [the_fcb heap].
    split; [reflexivity|]. split; [apply lookup_insert_eq|].
    split; [|intros _]; array2; destruct graceful; discriminate.
  - cbn [run emit mbind mret Exec_bind Exec_ret heap trace the_fcb
      tableFcbTcpCommon return_tableFcbTcpCommon].
    eexists _, _. split; [reflexivity|]. cbn [the_fcb heap].
    split; [reflexivity|]. split; [apply lookup_insert_eq|].
    split; [|discriminate]. array2. destruct graceful; discriminate.
Qed.

(** On a direction that is not OPEN nothing goes through. *)
Lemma closed_direction_drops
    (s : State) (p : Packet) (a : nat) (c : fcb_tcp_common) :
  tcp_common (the_fcb s) = Some a ->
  heap s !! a = Some c ->
  get getFlowDirection (closingStates c) <> TCPClosingState.OPEN ->
  exists s' : State,
    run (processPacket p) s = Done None s' /\ last (trace s') = Some (EvKill p).
Proof.
  intros Hp Hc Hclosed.
  rewrite (processPacket_associated s p a Hp).
  destruct (isSyn p) eqn:Hsyn.
  - eexists. split; [reflexivity|]. cbn [trace]. apply last_snoc.
  - unfold afterAssociation, checkConnectionClosed.
    rewrite run_bind, run_bind.
    rewrite (run_common (poolsSet s) a c Hp Hc). cbn [snd].
    destruct (get getFlowDirection (closingStates c)) eqn:Hstate;
      [contradiction | | | | ];
      cbn [TCPClosingState.eqb negb orb andb]; rewrite run_bind.
    1,2: destruct (isFin p || isSyn p || (0 <? getPayloadLength p));
         [ destruct (run_ackPacket_unmapped (poolsSet s) p a c Hp Hc) as [h ->]
         | ];
         (eexists; split; [reflexivity|]; cbn [trace]; apply last_snoc).
    all: eexists; split; [reflexivity|]; cbn [trace]; apply last_snoc.
Qed.

(** Once [closeConnection] has run on a connection, the element lets no
    packet of its direction through: whatever packet [processPacket]
    receives next on this FCB, it kills it and returns none. *)
Theorem closeConnection_shuts_the_direction
    (s : State) (p : Packet) (graceful bothSides : bool)
    (a : nat) (c : fcb_tcp_common) :
  tcp_common (the_fcb s) = Some a ->
  heap s !! a = Some c ->
  exists (packet : Packet) (s1 : State),
    run (closeConnection p graceful bothSides) s = Done packet s1 /\
    forall q : Packet,
    exists s2 : State,
      run (processPacket q) s1 = Done None s2 /\
      last (trace s2) = Some (EvKill q).
Proof.
  intros Hp Hc.
  destruct (run_closeConnection_states s p graceful bothSides a c Hp Hc)
    as (s1 & c1 & Hrun & Hfcb & Hc1 & Hself & _).
  exists (closingPacket p graceful), s1. split; [exact Hrun|].
  intros q. apply (closed_direction_drops s1 q a c1); [|exact Hc1|exact Hself].
  rewrite Hfcb. exact Hp.
Qed.

End Element.

Arguments Done {M RT ML A} _ _.
Arguments Crash {M RT ML A} _.
Arguments mkExec {M RT ML A} _.
Arguments run {M RT ML A} _ _.

(** *** Concrete connections

    The element run over the maintainer of the specification, on a
    connection between 10.0.0.1:40000 (the initiator, direction 0) and
    10.0.0.2:80, with no byte edited. *)

Abbreviation Maintainer := ByteStreamMaintainer.ByteStreamMaintainer.
Abbreviation Timing := ByteStreamMaintainer.RetransmissionTiming.
Abbreviation ConcreteState := (@State Maintainer Timing (list (Z * Z))).

Definition client : Z := 167772161.
Definition server : Z := 167772162.

(** A packet with a 20-byte IP header and a 20-byte TCP header. *)
Definition tcpPacket (src sport dst dport seq ack flags : Z)
    (payload : list byte) : Packet :=
  mkPacket 5 (40 + Z.of_nat (List.length payload)) src dst sport dport seq ack 5
           flags 20 (replicate 40 Byte.x00 ++ payload) 0 false.

Definition fromClient (seq ack flags : Z) (payload : list byte) : Packet :=
  tcpPacket client 40000 server 80 seq ack flags payload.

(** The shared record of a connection: the last ACK sent in each direction
    and the closing states. *)
Definition connection (lastAckSent0 lastAckSent1 : Z)
    (closing0 closing1 : TCPClosingState.Value) :
    @fcb_tcp_common Maintainer Timing :=
  mkCommon
    (mkArray2 (ByteStreamMaintainer.setLastAckSent ByteStreamMaintainer.empty lastAckSent0)
              (ByteStreamMaintainer.setLastAckSent ByteStreamMaintainer.empty lastAckSent1))
    (mkArray2 (ByteStreamMaintainer.mkTiming 0 0) (ByteStreamMaintainer.mkTiming 0 0))
    (mkArray2 closing0 closing1).

(** The state of the element of direction 0 when the FCB of the packet
    points at the record [c]. *)
Definition associated (c : @fcb_tcp_common Maintainer Timing) : ConcreteState :=
  mkState {[ 0%nat := c ]} {[ (client, 40000, server, 80) := 0%nat ]} ∅
          (mkFcb (Some 0%nat) (mkFcbTcpin true true true
                                 (Some (client, 40000, server, 80)) true true ∅))
          [].

(** The state of an element that sees the first packet of a flow. *)
Definition unassociated : ConcreteState :=
  mkState ∅ ∅ ∅ (mkFcb None (mkFcbTcpin false false false None false false ∅)) [].

Definition helloWorld : list byte :=
  [Byte.x48; Byte.x45; Byte.x4c; Byte.x4c; Byte.x4f;
   Byte.x57; Byte.x4f; Byte.x52; Byte.x4c; Byte.x44].

(** The SYN+ACK of a responder whose initiator is unknown to the return
    element. *)
Definition synAckOfServer : Packet :=
  tcpPacket server 80 client 40000 5000 1001 (Z.lor TH_SYN TH_ACK) [].

(** An established connection, both directions open: the middlebox last
    acknowledged 5001 toward the server (direction 0) and 1011 toward the
    client (direction 1). *)
Definition established : ConcreteState :=
  associated (connection 5001 1011 TCPClosingState.OPEN TCPClosingState.OPEN).

(** A pure ACK of the client that repeats the acknowledgment 5001. *)
Definition repeatedAck : Packet := fromClient 1011 5001 TH_ACK [].

(** Scenario S4: the client retransmits the ten bytes at 1001 that the
    middlebox acknowledged up to 1011. *)
Definition retransmitted : Packet :=
  fromClient 1001 5001 (Z.lor TH_ACK TH_PUSH) helloWorld.

(** A connection closed from direction 1 without grace: direction 0 is
    CLOSED_UNGRACEFUL. *)
Definition resetConnection : ConcreteState :=
  associated (connection 5001 1001 TCPClosingState.CLOSED_UNGRACEFUL
                         TCPClosingState.BEING_CLOSED_UNGRACEFUL).

(** A connection closed from direction 1 with grace: direction 0 is
    CLOSED_GRACEFUL, and data that still arrives there is acknowledged. *)
Definition finishedConnection : ConcreteState :=
  associated (connection 5001 1001 TCPClosingState.CLOSED_GRACEFUL
                         TCPClosingState.BEING_CLOSED_GRACEFUL).

(** Scenario S2: the nine bytes "AAABBBCCC" at 1001, as TCPIn forwards
    them. *)
Definition aaabbbccc : Packet :=
  with_contentOffset 40
    (fromClient 1001 5001 (Z.lor TH_ACK TH_PUSH)
       [Byte.x41; Byte.x41; Byte.x41; Byte.x42; Byte.x42; Byte.x42;
        Byte.x43; Byte.x43; Byte.x43]).

(** Scenario S5: a graceful close of both sides on a packet with sequence
    number 2000 and ACK number 6000. *)
Definition lastObserved : Packet := fromClient 2000 6000 TH_ACK [].

(** Scenario S1: the SYN of the client, and the state of the element of
    direction 1 once the element of direction 0 has published the record of
    the connection in its table. *)
Definition synOfClient : Packet := fromClient 1000 0 TH_SYN [].

Definition responderSide : ConcreteState :=
  mkState {[ 0%nat := connection 0 0 TCPClosingState.OPEN TCPClosingState.OPEN ]}
          ∅ {[ (client, 40000, server, 80) := 0%nat ]}
          (mkFcb None (mkFcbTcpin false false false None false false ∅)) [].

(** The handshake of scenario S1 goes through: the initiator allocates and
    publishes the record, the responder finds it by the reversed 4-tuple. *)
Example syn_of_initiator_is_forwarded :
  exists s' : ConcreteState,
    run (processPacket Dir0 synOfClient) unassociated
    = Done (Some (with_contentOffset 40 synOfClient)) s' /\
    tcp_common (the_fcb s') = Some 0%nat /\
    inChargeOfTcpCommon (tcpin (the_fcb s')) = true /\
    tableFcbTcpCommon s' !! (client, 40000, server, 80) = Some 0%nat /\
    trace s' = [].
Proof.
  eexists. split; [vm_compute; reflexivity|].
  repeat (split; [vm_compute; reflexivity|]). vm_compute. reflexivity.
Qed.

Example synack_with_record_is_forwarded :
  exists s' : ConcreteState,
    run (processPacket Dir1 synAckOfServer) responderSide
    = Done (Some (with_contentOffset 40 synAckOfServer)) s' /\
    tcp_common (the_fcb s') = Some 0%nat /\
    inChargeOfTcpCommon (tcpin (the_fcb s')) = false /\
    trace s' = [].
Proof.
  eexists. split; [vm_compute; reflexivity|].
  repeat (split; [vm_compute; reflexivity|]). vm_compute. reflexivity.
Qed.

Lemma synack_of_unknown_initiator_dereferences_null :
  run (processPacket Dir1 synAckOfServer) unassociated
  = Crash NullPointerDereference.
Proof.
  apply synack_without_record_dereferences_null; reflexivity.
Defined.

Lemma repeated_pure_ack_is_forwarded :
  exists s' : ConcreteState,
    run (processPacket Dir0 repeatedAck) established
    = Done (Some (with_contentOffset 40 repeatedAck)) s'.
Proof.
  exact (pure_ack_equal_to_last_ack_sent_is_forwarded Dir0 established repeatedAck
           0%nat (connection 5001 1011 TCPClosingState.OPEN TCPClosingState.OPEN)
           eq_refl eq_refl eq_refl eq_refl eq_refl eq_refl).
Defined.

Lemma retransmission_below_last_ack_is_acked_again :
  exists s' : ConcreteState,
    run (processPacket Dir0 retransmitted) established = Done None s' /\
    trace s' =
      [EvSendAck Dir1 server client 80 40000 5001 1011;
       EvKill (with_contentOffset 40 retransmitted)].
Proof.
  exact (lost_ack_is_resent_unless_syn Dir0 established retransmitted
           0%nat (connection 5001 1011 TCPClosingState.OPEN TCPClosingState.OPEN)
           eq_refl eq_refl eq_refl eq_refl).
Defined.

(** C4 as stated fails on a SYN: on the established, open connection a SYN
    whose sequence number 1001 is below the last ACK sent toward the client
    (1011) is dropped, and no ACK is sent again. *)
Lemma syn_below_last_ack_is_dropped_without_ack :
  let p := fromClient 1001 5001 TH_SYN [] in
  get Dir0 (closingStates
              (connection 5001 1011 TCPClosingState.OPEN TCPClosingState.OPEN))
    = TCPClosingState.OPEN /\
  SEQ_LT (getSequenceNumber p) 1011 = true /\
  exists s' : ConcreteState,
    run (processPacket Dir0 p) established = Done None s' /\
    trace s' = [EvKill p].
Proof.
  cbv zeta. split; [reflexivity|]. split; [reflexivity|].
  eexists. split; vm_compute; reflexivity.
Qed.

(** C3 as stated fails in the ungraceful states and on an unexpected SYN:
    a packet with ten bytes of payload that arrives on the direction in
    CLOSED_UNGRACEFUL is dropped and no ACK is sent; and on the direction in
    CLOSED_GRACEFUL a SYN with ten bytes of payload, on an FCB that has its
    record, is dropped and no ACK is sent either. *)
Lemma closed_direction_drops_without_ack :
  (get Dir0 (closingStates
               (connection 5001 1001 TCPClosingState.CLOSED_UNGRACEFUL
                           TCPClosingState.BEING_CLOSED_UNGRACEFUL))
     <> TCPClosingState.OPEN /\
   0 < getPayloadLength retransmitted /\
   exists s' : ConcreteState,
     run (processPacket Dir0 retransmitted) resetConnection = Done None s' /\
     trace s' = [EvKill retransmitted]) /\
  (let p := fromClient 1001 5001 TH_SYN helloWorld in
   get Dir0 (closingStates
               (connection 5001 1001 TCPClosingState.CLOSED_GRACEFUL
                           TCPClosingState.BEING_CLOSED_GRACEFUL))
     = TCPClosingState.CLOSED_GRACEFUL /\
   isSyn p = true /\ 0 < getPayloadLength p /\
   exists s' : ConcreteState,
     run (processPacket Dir0 p) finishedConnection = Done None s' /\
     trace s' = [EvKill p]).
Proof.
  split.
  - split; [discriminate|]. split; [reflexivity|].
    eexists. split; vm_compute; reflexivity.
  - cbv zeta. split; [reflexivity|]. split; [reflexivity|]. split; [reflexivity|].
    eexists. split; vm_compute; reflexivity.
Qed.

Lemma data_after_graceful_close_is_acked_and_dropped :
  exists s' : ConcreteState,
    run (processPacket Dir0 retransmitted) finishedConnection = Done None s' /\
    trace s' =
      [EvSendAck Dir1 server client 80 40000 5001 1011; EvKill retransmitted].
Proof.
  exact (closed_direction_drops_and_acks_when_graceful Dir0 finishedConnection
           retransmitted 0%nat
           (connection 5001 1001 TCPClosingState.CLOSED_GRACEFUL
                       TCPClosingState.BEING_CLOSED_GRACEFUL)
           eq_refl eq_refl ltac:(discriminate)).
Defined.

(** The first SYN+ACK of a responder that finds, in the return element, a
    record whose direction 1 is already CLOSED_GRACEFUL: it joins the
    record, is acknowledged and dropped. *)
Definition responderSideClosed : ConcreteState :=
  mkState {[ 0%nat := connection 0 0 TCPClosingState.BEING_CLOSED_GRACEFUL
                                 TCPClosingState.CLOSED_GRACEFUL ]}
          ∅ {[ (client, 40000, server, 80) := 0%nat ]}
          (mkFcb None (mkFcbTcpin false false false None false false ∅)) [].

Example synack_joining_a_closed_record_is_acked_and_dropped :
  exists s' : ConcreteState,
    run (processPacket Dir1 synAckOfServer) responderSideClosed = Done None s' /\
    tcp_common (the_fcb s') = Some 0%nat /\
    trace s' =
      [EvSendAck Dir0 client server 40000 80 1001 5001; EvKill synAckOfServer].
Proof.
  eexists. split; [vm_compute; reflexivity|].
  split; vm_compute; reflexivity.
Qed.

(** Scenario S2: removing "BBB" leaves "AAACCC", records the edit at 1004
    in the list of the packet and is passed on to the stack. *)
Example removeBytes_removes_and_forwards :
  exists (packet : Packet) (s' : ConcreteState),
    run (removeBytes aaabbbccc 3 3) established = Done packet s' /\
    drop 40 (data packet)
    = [Byte.x41; Byte.x41; Byte.x41; Byte.x43; Byte.x43; Byte.x43] /\
    modificationLists (tcpin (the_fcb s')) !! 1001 = Some [(1004, -3)] /\
    trace s' = [EvStackRemoveBytes packet 43 3].
Proof.
  eexists _, _. split; [vm_compute; reflexivity|].
  repeat (split; [vm_compute; reflexivity|]). vm_compute. reflexivity.
Qed.

Lemma insertBytes_on_established_leaves_no_event :
  exists (newPacket : Packet) (s' : ConcreteState),
    run (insertBytes (with_contentOffset 40 retransmitted) 3 3) established
    = Done newPacket s' /\
    trace s' = [].
Proof.
  apply (insertBytes_is_not_forwarded established
           (with_contentOffset 40 retransmitted) 3 3).
  - reflexivity.
  - vm_compute. discriminate.
Defined.

Lemma ackPacket_on_retransmission :
  run (ackPacket Dir0 retransmitted true) established
  = Done tt
      (mkState
         {[ 0%nat := connection 5001 1011 TCPClosingState.OPEN TCPClosingState.OPEN ]}
         (tableFcbTcpCommon established) ∅ (the_fcb established)
         [EvSendAck Dir1 server client 80 40000 5001 1011]).
Proof.
  exact (ackPacket_swaps_and_acknowledges Dir0 established retransmitted true 0%nat
           (connection 5001 1011 TCPClosingState.OPEN TCPClosingState.OPEN)
           eq_refl eq_refl).
Defined.

Lemma graceful_close_of_both_sides :
  exists (s' : ConcreteState) (c' : @fcb_tcp_common Maintainer Timing),
    run (closeConnection Dir0 lastObserved true true) established
    = Done (closingPacket lastObserved true) s' /\
    heap s' !! 0%nat = Some c' /\
    get Dir0 (closingStates c') = TCPClosingState.BEING_CLOSED_GRACEFUL /\
    get Dir1 (closingStates c') = TCPClosingState.CLOSED_GRACEFUL /\
    trace s' =
      [EvSendClosingPacket Dir1 server client 80 40000 6000 2001 true;
       EvStackCloseConnection (closingPacket lastObserved true) true true].
Proof.
  destruct (closeConnection_states_and_closing_packet Dir0 established
              lastObserved true true 0%nat
              (connection 5001 1011 TCPClosingState.OPEN TCPClosingState.OPEN)
              eq_refl eq_refl)
    as (s' & c' & Hrun & Hheap & Hself & _ & _ & Hother & Htrace).
  exists s', c'. repeat split; assumption.
Defined.


(** *** The two directions of a connection

    The two TCPIn elements of a connection have their own FCB and their own
    flow-id table, and share the records: the state of the other element is
    one with the same heap, and whose return table is the table of this
    element. *)

Section TwoDirections.

Context {M RT ML : Type} `{Ops : MiddleboxOps M RT ML}.

(** A state of the element of the other direction: the same records, the
    table of this element as its return table. *)
Definition otherSide (s so : @State M RT ML) : Prop :=
  heap so = heap s /\ return_tableFcbTcpCommon so = tableFcbTcpCommon s.

(** The SYN+ACK that answers the SYN [syn]. *)
Definition answers (syn synack : Packet) : Prop :=
  isSyn synack = true /\ isAck synack = true /\
  ip_src synack = ip_dst syn /\ th_sport synack = th_dport syn /\
  ip_dst synack = ip_src syn /\ th_dport synack = th_sport syn.

(** The handshake across the two elements: the SYN of the initiator goes
    through the element of direction [d], which allocates the record of the
    connection; the SYN+ACK that answers it, on a new FCB of the element
    of the other direction, goes through as well, and that FCB then points
    at the same record without being in charge of it. *)
Theorem handshake_shares_one_record
    (d : FlowDirection) (s : @State M RT ML) (syn synack : Packet) :
  tcp_common (the_fcb s) = None ->
  isSyn syn = true ->
  isAck syn = false ->
  answers syn synack ->
  exists (a : nat) (s1 : State),
    run (processPacket d syn) s
    = Done (Some (with_contentOffset (getPayloadOffset syn) syn)) s1 /\
    tcp_common (the_fcb s1) = Some a /\
    inChargeOfTcpCommon (tcpin (the_fcb s1)) = true /\
    forall so : State,
      otherSide s1 so ->
      tcp_common (the_fcb so) = None ->
      exists (packet : Packet) (s2 : State),
        run (processPacket (opposite d) synack) so = Done (Some packet) s2 /\
        tcp_common (the_fcb s2) = Some a /\
        inChargeOfTcpCommon (tcpin (the_fcb s2)) = false /\
        is_Some (heap s2 !! a).
Proof.
  intros Hp Hsyn Hack (Hsyn' & Hack' & Hsrc & Hsport & Hdst & Hdport).
  exists (fresh (dom (heap s))). eexists.
  split; [apply (run_processPacket_initiator d s syn Hp Hsyn Hack)|].
  cbn [the_fcb tcp_common tcpin inChargeOfTcpCommon].
  split; [reflexivity|]. split; [reflexivity|].
  intros so [Hheap Htable] Hpo.
  cbn [heap tableFcbTcpCommon] in Hheap, Htable.
  eexists _, _.
  split.
  - apply (run_processPacket_responder (opposite d) so synack
             (fresh (dom (heap s))) (recordOfInitiator d syn) Hpo Hsyn' Hack').
    + rewrite Htable, Hsrc, Hsport, Hdst, Hdport. apply lookup_insert_eq.
    + rewrite Hheap. apply lookup_insert_eq.
    + destruct d; reflexivity.
  - cbn [the_fcb tcp_common tcpin inChargeOfTcpCommon heap].
    split; [reflexivity|]. split; [reflexivity|].
    rewrite lookup_insert_eq. eexists. reflexivity.
Qed.

(** Closing both sides from the element of direction [d] shuts the other
    direction too: the element of the other direction, on its FCB of the
    same connection, kills whatever packet it receives next and returns
    none. *)
Theorem closeConnection_of_both_sides_shuts_the_other_direction
    (d : FlowDirection) (s : @State M RT ML) (p : Packet) (graceful : bool)
    (a : nat) (c : fcb_tcp_common) :
  tcp_common (the_fcb s) = Some a ->
  heap s !! a = Some c ->
  exists (packet : Packet) (s1 : State),
    run (closeConnection d p graceful true) s = Done packet s1 /\
    forall (so : State) (q : Packet),
      heap so = heap s1 ->
      tcp_common (the_fcb so) = Some a ->
      exists s2 : State,
        run (processPacket (opposite d) q) so = Done None s2 /\
        last (trace s2) = Some (EvKill q).
Proof.
  intros Hp Hc.
  destruct (run_closeConnection_states d s p graceful true a c Hp Hc)
    as (s1 & c1 & Hrun & Hfcb & Hc1 & _ & Hother).
  exists (closingPacket p graceful), s1. split; [exact Hrun|].
  intros so q Hheap Hpo.
  apply (closed_direction_drops (opposite d) so q a c1 Hpo).
  - rewrite Hheap. exact Hc1.
  - apply Hother. reflexivity.
Qed.

End TwoDirections.

(** *** The properties above on the concrete connection *)

(** A packet whose IP header announces 30 bytes, less than its two
    20-byte headers. *)
Definition truncated : Packet :=
  mkPacket 5 30 client server 40000 80 1000 0 5 TH_ACK 20
           (replicate 30 Byte.x00) 0 false.

(** The next ten bytes of the client, in sequence after 1011. *)
Definition nextData : Packet :=
  fromClient 1011 5001 (Z.lor TH_ACK TH_PUSH) helloWorld.

(** The state a computation leaves when it returns. *)
Definition stateAfter {A} (m : @Exec Maintainer Timing (list (Z * Z)) A)
    (s : ConcreteState) : ConcreteState :=
  match run m s with Done _ s' => s' | Crash _ => s end.

Ltac bounds :=
  unfold is_u32, is_u16; vm_compute;
  repeat split; first [reflexivity | intros H; discriminate H].

Lemma truncated_packet_has_a_huge_payload_length :
  getPayloadLength truncated = 2 ^ 32 - 10 /\ isJustAnAck truncated = false.
Proof.
  refine (proj2 (getPayloadLength_wraps_on_short_ip_len truncated _) _).
  - constructor; bounds.
  - reflexivity.
Defined.

Lemma repeated_ack_keeps_the_sequence_number :
  getNextSequenceNumber repeatedAck = getSequenceNumber repeatedAck.
Proof.
  apply pure_ack_keeps_the_sequence_number.
  - bounds.
  - reflexivity.
Defined.

Lemma retransmission_is_killed_once :
  exists q : Packet,
    droppedAs retransmitted q /\
    kills (trace (stateAfter (processPacket Dir0 retransmitted) established))
    = kills (trace established) ++ [q].
Proof.
  apply (processPacket_kills_what_it_drops Dir0 established retransmitted None).
  vm_compute. reflexivity.
Defined.

(** A connection on which three bytes were inserted at 5001 in the stream
    of the server: the client acknowledges 5011 for what the server sent up
    to 5008. *)
Definition editedConnection : ConcreteState :=
  associated
    (mkCommon
       (mkArray2 (ByteStreamMaintainer.setLastAckSent ByteStreamMaintainer.empty 5001)
                 (ByteStreamMaintainer.with_modifications [(5001, 3)]
                    (ByteStreamMaintainer.setLastAckSent ByteStreamMaintainer.empty 1011)))
       (mkArray2 (ByteStreamMaintainer.mkTiming 0 0) (ByteStreamMaintainer.mkTiming 0 0))
       (mkArray2 TCPClosingState.OPEN TCPClosingState.OPEN)).

Definition ackOfEdited : Packet := fromClient 1011 5011 TH_ACK [].

Lemma remapped_ack_changes_only_the_ack_bytes :
  let packet := forwarded ackOfEdited 5008 in
  packet_length packet = packet_length ackOfEdited /\
  (forall i : nat,
     Z.of_nat i < transport_header_offset ackOfEdited + 8 \/
     transport_header_offset ackOfEdited + 12 <= Z.of_nat i ->
     data packet !! i = data ackOfEdited !! i) /\
  (getAckNumber packet = getAckNumber ackOfEdited /\ data packet = data ackOfEdited \/
   dirty packet = true /\
   data packet = writeAt (transport_header_offset ackOfEdited + 8)
                         (htonl (getAckNumber packet)) (data ackOfEdited)).
Proof.
  destruct (processPacket_rewrites_only_the_ack Dir0 editedConnection ackOfEdited
              (forwarded ackOfEdited 5008)
              (stateAfter (processPacket Dir0 ackOfEdited) editedConnection))
    as (Hlength & Houtside & _ & _ & _ & _ & Hack).
  - vm_compute. reflexivity.
  - split; [exact Hlength|]. split; [exact Houtside | exact Hack].
Defined.

(** The bytes of the ACK number field after the rewriting: 5008 is
    0x00001390. *)
Example remapped_ack_is_written_in_the_bytes :
  (fun d => (d !! 28%nat, d !! 29%nat, d !! 30%nat, d !! 31%nat))
    (data (forwarded ackOfEdited 5008))
  = (Some Byte.x00, Some Byte.x00, Some Byte.x13, Some Byte.x90).
Proof. vm_compute. reflexivity. Qed.

Lemma data_after_graceful_close_leaves_the_closing_states :
  exists c' : @fcb_tcp_common Maintainer Timing,
    heap (stateAfter (processPacket Dir0 retransmitted) finishedConnection) !! 0%nat
    = Some c' /\
    closingStates c'
    = closingStates (connection 5001 1001 TCPClosingState.CLOSED_GRACEFUL
                                TCPClosingState.BEING_CLOSED_GRACEFUL).
Proof.
  apply (processPacket_leaves_the_closing_states Dir0 finishedConnection
           retransmitted None).
  - vm_compute. reflexivity.
  - reflexivity.
Defined.

Lemma ack_on_unknown_flow_is_dropped :
  run (processPacket Dir0 repeatedAck) unassociated
  = Done None (logged (poolsSet unassociated) (EvKill repeatedAck)).
Proof.
  apply first_packet_without_syn_is_dropped; reflexivity.
Defined.

Lemma syn_of_client_publishes_a_fresh_record :
  exists s' : ConcreteState,
    run (processPacket Dir0 synOfClient) unassociated
    = Done (Some (with_contentOffset (getPayloadOffset synOfClient) synOfClient)) s' /\
    inChargeOfTcpCommon (tcpin (the_fcb s')) = true.
Proof.
  destruct (syn_of_initiator_publishes_a_fresh_record Dir0 unassociated synOfClient
              eq_refl eq_refl eq_refl)
    as (s' & Hrun & _ & _ & Hcharge & _).
  exists s'. split; [exact Hrun | exact Hcharge].
Defined.

Lemma next_data_is_forwarded_with_its_ack :
  exists s' : ConcreteState,
    run (processPacket Dir0 nextData) established
    = Done (Some (forwarded nextData 5001)) s' /\
    getAckNumber (forwarded nextData 5001) = 5001.
Proof.
  destruct (ack_is_remapped_and_marked_dirty Dir0 established nextData 0%nat
              (connection 5001 1011 TCPClosingState.OPEN TCPClosingState.OPEN))
    as (s' & c' & Hrun & Hack & _); [vm_compute; reflexivity ..|].
  exists s'. split; [exact Hrun | exact Hack].
Defined.

Lemma synack_of_server_joins_the_record :
  exists s' : ConcreteState,
    tcp_common (the_fcb s') = Some 0%nat /\
    inChargeOfTcpCommon (tcpin (the_fcb s')) = false /\
    tableFcbTcpCommon s' = tableFcbTcpCommon responderSide.
Proof.
  destruct (synack_of_responder_joins_the_record Dir1 responderSide synAckOfServer
              0%nat (connection 0 0 TCPClosingState.OPEN TCPClosingState.OPEN)
              eq_refl eq_refl eq_refl
              ltac:(vm_compute; reflexivity) ltac:(vm_compute; reflexivity) eq_refl)
    as (s' & c' & _ & Hp & Hcharge & Htable & _).
  exists s'. split; [exact Hp|]. split; [exact Hcharge | exact Htable].
Defined.

Lemma list_of_aaabbbccc_is_found_again :
  exists s1 : ConcreteState,
    run (getModificationList aaabbbccc) established
    = Done (listOf established aaabbbccc) s1 /\
    forall p' : Packet,
      getSequenceNumber p' = getSequenceNumber aaabbbccc ->
      run (hasModificationList p') s1 = Done true s1 /\
      run (getModificationList p') s1 = Done (listOf established aaabbbccc) s1.
Proof.
  apply modification_list_is_found_again. reflexivity.
Defined.

Lemma syn_of_client_sets_the_pools :
  poolModificationLists (tcpin (the_fcb unassociated)) = false /\
  let s' := stateAfter (processPacket Dir0 synOfClient) unassociated in
  poolModificationNodes (tcpin (the_fcb s')) = true /\
  poolModificationLists (tcpin (the_fcb s')) = true /\
  modificationLists (tcpin (the_fcb s'))
  = modificationLists (tcpin (the_fcb unassociated)) /\
  forall q : Packet,
  exists s'' : ConcreteState,
    run (getModificationList q) s' = Done (listOf s' q) s''.
Proof.
  split; [reflexivity|].
  apply (processPacket_sets_the_pools_and_keeps_the_lists Dir0 unassociated
           synOfClient (Some (with_contentOffset 40 synOfClient))).
  vm_compute. reflexivity.
Defined.

Lemma removing_bbb_shortens_by_three :
  exists (packet : Packet) (s' : ConcreteState),
    run (removeBytes aaabbbccc 3 3) established = Done packet s' /\
    packet_length packet = packet_length aaabbbccc - 3.
Proof.
  destruct (removeBytes_cuts_the_bytes_out established aaabbbccc 3 3)
    as (packet & s' & Hrun & Hlength & _);
    [reflexivity | bounds | bounds | bounds | bounds | bounds |].
  exists packet, s'. split; [exact Hrun | exact Hlength].
Defined.

Lemma inserting_three_bytes_lengthens_by_three :
  exists (newPacket : Packet) (s' : ConcreteState),
    run (insertBytes aaabbbccc 3 3) established = Done newPacket s' /\
    packet_length newPacket = packet_length aaabbbccc + 3.
Proof.
  destruct (insertBytes_opens_a_gap established aaabbbccc 3 3)
    as (newPacket & s' & Hrun & Hlength & _);
    [reflexivity | bounds | bounds | bounds | bounds | bounds |].
  exists newPacket, s'. split; [exact Hrun | exact Hlength].
Defined.


Lemma more_packets_after_retransmission :
  exists s' : ConcreteState,
    run (requestMorePackets Dir0 retransmitted) established = Done tt s' /\
    the_fcb s' = the_fcb established.
Proof.
  destruct (requestMorePackets_acks_then_forwards Dir0 established retransmitted
              0%nat (connection 5001 1011 TCPClosingState.OPEN TCPClosingState.OPEN)
              eq_refl eq_refl)
    as (s' & Hrun & _ & Hfcb & _).
  exists s'. split; [exact Hrun | exact Hfcb].
Defined.

Lemma one_sided_close_shuts_direction_0 :
  exists (packet : Packet) (s1 : ConcreteState),
    run (closeConnection Dir0 lastObserved true false) established = Done packet s1 /\
    forall q : Packet,
    exists s2 : ConcreteState,
      run (processPacket Dir0 q) s1 = Done None s2 /\
      last (trace s2) = Some (EvKill q).
Proof.
  exact (closeConnection_shuts_the_direction Dir0 established lastObserved true false
           0%nat (connection 5001 1011 TCPClosingState.OPEN TCPClosingState.OPEN)
           eq_refl eq_refl).
Defined.

Lemma handshake_of_client_and_server :
  exists (a : nat) (s1 : ConcreteState),
    run (processPacket Dir0 synOfClient) unassociated
    = Done (Some (with_contentOffset (getPayloadOffset synOfClient) synOfClient)) s1 /\
    tcp_common (the_fcb s1) = Some a /\
    inChargeOfTcpCommon (tcpin (the_fcb s1)) = true /\
    forall so : ConcreteState,
      otherSide s1 so ->
      tcp_common (the_fcb so) = None ->
      exists (packet : Packet) (s2 : ConcreteState),
        run (processPacket (opposite Dir0) synAckOfServer) so = Done (Some packet) s2 /\
        tcp_common (the_fcb s2) = Some a /\
        inChargeOfTcpCommon (tcpin (the_fcb s2)) = false /\
        is_Some (heap s2 !! a).
Proof.
  apply handshake_shares_one_record.
  - reflexivity.
  - reflexivity.
  - reflexivity.
  - unfold answers. split; [reflexivity|]. split; [reflexivity|].
    split; [reflexivity|]. split; [reflexivity|]. split; reflexivity.
Defined.

Lemma graceful_close_of_both_sides_shuts_direction_1 :
  exists (packet : Packet) (s1 : ConcreteState),
    run (closeConnection Dir0 lastObserved true true) established = Done packet s1 /\
    forall (so : ConcreteState) (q : Packet),
      heap so = heap s1 ->
      tcp_common (the_fcb so) = Some 0%nat ->
      exists s2 : ConcreteState,
        run (processPacket (opposite Dir0) q) so = Done None s2 /\
        last (trace s2) = Some (EvKill q).
Proof.
  exact (closeConnection_of_both_sides_shuts_the_other_direction Dir0 established
           lastObserved true 0%nat
           (connection 5001 1011 TCPClosingState.OPEN TCPClosingState.OPEN)
           eq_refl eq_refl).
Defined.

End TCPIn.

(** ** flowbuffer.hh *)
Module FlowBuffer.

(** The packets of the buffer are chained through [next()]: the buffer, and
    an entry with everything after it, is the list of the packets from that
    point on; the null entry is the empty list. *)
Definition FlowBuffer : Type := list Packet.

(** [Packet::getContentOffset()], the annotation ([uint16_t]). *)
Definition getContentOffset (p : Packet) : Z := contentOffset p.

Record FlowBufferContentIter : Type := mkIter {
  entry : list Packet;
  offsetInPacket : Z
}.

(** The loop shared by the constructor and [operator++]:
    [while (entry && entry->getContentOffset() + offsetInPacket >= entry->length())],
    the sum taken on [uint32_t]. *)
Fixpoint skipConsumed (entry : list Packet) (offsetInPacket : Z)
    : FlowBufferContentIter :=
  match entry with
  | [] => mkIter [] offsetInPacket
  | p :: next =>
      if packet_length p <=? u32 (getContentOffset p + offsetInPacket)
      then skipConsumed next 0
      else mkIter (p :: next) offsetInPacket
  end.

(** [FlowBufferContentIter(flowBuffer, entry, posInFirstPacket)]: the [int]
    position initialises the [uint32_t] offset. *)
Definition contentIter (entry : list Packet) (posInFirstPacket : Z)
    : FlowBufferContentIter :=
  skipConsumed entry (u32 posInFirstPacket).

(** [operator++]; [None] when the assertion [entry != NULL] fails. *)
Definition increment (it : FlowBufferContentIter) : option FlowBufferContentIter :=
  match entry it with
  | [] => None
  | _ :: _ => Some (skipConsumed (entry it) (u32 (offsetInPacket it + 1)))
  end.

(** [operator*]: the byte at [getPacketContent() + offsetInPacket], that is
    at [data() + getContentOffset() + offsetInPacket]; [None] when the
    assertion fails or the address is outside the bytes of the packet. *)
Definition dereference (it : FlowBufferContentIter) : option byte :=
  match entry it with
  | [] => None
  | p :: _ =>
      let at_ := getContentOffset p + offsetInPacket it in
      if (0 <=? at_) && (at_ <? packet_length p)
      then data p !! Z.to_nat at_
      else None
  end.

(** [operator bool]. *)
Definition notNull (it : FlowBufferContentIter) : bool :=
  match entry it with [] => false | _ :: _ => true end.

(** The payload of a packet and the content of a buffer. *)
Definition payload (p : Packet) : list byte :=
  drop (Z.to_nat (getContentOffset p)) (data p).

Definition content (fb : FlowBuffer) : list byte := flat_map payload fb.

(** Modelled from the spec: flowbuffer.cc is not among the sources.
    [contentBegin(pos)] is the content iterator on the first packet of the
    buffer and [contentEnd()] the one on the null entry. *)
Definition contentBegin (fb : FlowBuffer) (posInFirstPacket : Z)
    : FlowBufferContentIter :=
  contentIter fb posInFirstPacket.

Definition contentEnd : FlowBufferContentIter := mkIter [] 0.

Inductive Match : Type := Found | RanOut | Mismatch.

(** Modelled from the spec: flowbuffer.cc is not among the sources.  The
    comparison of the pattern with the content at an iterator, one byte per
    step: the pattern is found, or the content ends inside it, or a byte
    differs. *)
Fixpoint compareAt (it : FlowBufferContentIter) (pattern : list byte) : Match :=
  match pattern with
  | [] => Found
  | c :: pattern' =>
      if notNull it then
        match dereference it, increment it with
        | Some b, Some it' =>
            if Byte.eqb b c then compareAt it' pattern' else Mismatch
        | _, _ => Mismatch
        end
      else RanOut
  end.

(** Modelled from the spec: flowbuffer.cc is not among the sources.
    [search(start, pattern, feedback)] as flowbuffer.hh documents it: "1 if
    found, -1 if not found, 0 if not found but could start at the end of the
    last packet", with the iterator "to the beginning of the pattern in the
    flow if found or after the end of the content if not found".  The
    pattern is tried at each byte of the content in turn. *)
Fixpoint search (fuel : nat) (start : FlowBufferContentIter) (pattern : list byte)
    : FlowBufferContentIter * Z :=
  match fuel with
  | O => (contentEnd, -1)
  | S fuel' =>
      if notNull start then
        match compareAt start pattern with
        | Found => (start, 1)
        | RanOut => (contentEnd, 0)
        | Mismatch =>
            match increment start with
            | Some next => search fuel' next pattern
            | None => (contentEnd, -1)
            end
        end
      else (contentEnd, -1)
  end.

(** Modelled from the spec: flowbuffer.cc is not among the sources.
    [searchInFlow(pattern)] searches from the first byte of content and
    returns the feedback.  One step per byte of the buffer suffices. *)
Definition searchInFlow (fb : FlowBuffer) (pattern : list byte) : Z :=
  (search (S (List.length (content fb))) (contentBegin fb 0) pattern).2.

(** A buffered packet: its content offset is a [uint16_t] and its length a
    [uint32_t]. *)
Definition buffered (p : Packet) : Prop :=
  is_u16 (getContentOffset p) /\ packet_length p < 2 ^ 32.

(** The iterator is on a byte of payload of its current entry. *)
Definition onPayload (it : FlowBufferContentIter) : Prop :=
  match entry it with
  | [] => True
  | p :: _ =>
      0 <= offsetInPacket it /\
      getContentOffset p + offsetInPacket it < packet_length p
  end.

(** The iterators a buffer gives: the one constructed at a position of its
    first packet and those obtained from it by [operator++]. *)
Inductive reached (fb : FlowBuffer) (pos : Z) : FlowBufferContentIter -> Prop :=
| reached_constructed : reached fb pos (contentIter fb pos)
| reached_incremented (it it' : FlowBufferContentIter) :
    reached fb pos it -> increment it = Some it' -> reached fb pos it'.

(** The pattern appears wholly inside the content. *)
Definition occursIn (pattern content : list byte) : Prop :=
  exists before after, content = before ++ pattern ++ after.

(** A non-empty proper prefix of the pattern is a suffix of the content. *)
Definition prefixAtEnd (pattern content : list byte) : Prop :=
  exists (k : nat) before,
    (0 < k < List.length pattern)%nat /\ content = before ++ take k pattern.

(** The bytes from the position of an iterator to the end of the buffer. *)
Definition remaining (it : FlowBufferContentIter) : list byte :=
  match entry it with
  | [] => []
  | p :: next =>
      drop (Z.to_nat (getContentOffset p + offsetInPacket it)) (data p)
      ++ content next
  end.

(** The same search on the bytes of the content. *)
Fixpoint compareList (content pattern : list byte) {struct pattern} : Match :=
  match pattern with
  | [] => Found
  | c :: pattern' =>
      match content with
      | [] => RanOut
      | b :: rest => if Byte.eqb b c then compareList rest pattern' else Mismatch
      end
  end.

Fixpoint searchList (content pattern : list byte) : Z :=
  match content with
  | [] => -1
  | _ :: rest =>
      match compareList content pattern with
      | Found => 1
      | RanOut => 0
      | Mismatch => searchList rest pattern
      end
  end.

(** *** A buffer of three packets

    A pure ACK, then "FOO" at 1001 and "BAR" at 1004 (scenario S3), as
    TCPIn forwards them: the content offset is the payload offset. *)

Definition buffer (seq flags : Z) (bytes : list byte) : Packet :=
  with_contentOffset 40 (TCPIn.fromClient seq 5001 flags bytes).

Definition pureAck : Packet := buffer 1001 TH_ACK [].
Definition foo : Packet :=
  buffer 1001 (Z.lor TH_ACK TH_PUSH) [Byte.x46; Byte.x4f; Byte.x4f].
Definition bar : Packet :=
  buffer 1004 (Z.lor TH_ACK TH_PUSH) [Byte.x42; Byte.x41; Byte.x52].

Definition ooba : list byte := [Byte.x4f; Byte.x4f; Byte.x42; Byte.x41].
Definition arch : list byte := [Byte.x41; Byte.x52; Byte.x43; Byte.x48].
Definition zzz : list byte := [Byte.x5a; Byte.x5a; Byte.x5a].

(** *** The content iterator *)

Lemma remaining_first (fb : FlowBuffer) : remaining (mkIter fb 0) = content fb.
Proof.
  destruct fb as [|p next]; [reflexivity|].
  unfold remaining, content. cbn [entry offsetInPacket flat_map]. unfold payload.
  rewrite Z.add_0_r. reflexivity.
Qed.

(** When the sum of the loop does not wrap, the loop moves the iterator to
    the next byte of payload, if there is one, and skips no byte. *)
Lemma skipConsumed_spec (e : list Packet) (off : Z) :
  Forall buffered e ->
  0 <= off ->
  match e with [] => True | p :: _ => getContentOffset p + off < 2 ^ 32 end ->
  onPayload (skipConsumed e off) /\
  remaining (skipConsumed e off) = remaining (mkIter e off) /\
  exists skipped, e = skipped ++ entry (skipConsumed e off).
Proof.
  intros Hbuf. revert off.
  induction Hbuf as [|p next [Hco Hlen] Hnext IH]; intros off Hoff Hsum.
  - cbn. split; [exact I|]. split; [reflexivity|]. exists []. reflexivity.
  - cbn [skipConsumed]. unfold is_u16 in Hco.
    rewrite u32_id by (unfold is_u32; lia).
    destruct (Z.leb_spec (packet_length p) (getContentOffset p + off)) as [Hge|Hlt].
    + destruct (IH 0) as (Hon & Hrem & skipped & Hskipped).
      { lia. }
      { destruct Hnext as [|q rest [Hq _] _]; [exact I|]. unfold is_u16 in Hq. lia. }
      split; [exact Hon|]. split.
      * rewrite Hrem, remaining_first. unfold remaining.
        cbn [entry offsetInPacket]. rewrite drop_ge; [reflexivity|].
        unfold packet_length in Hge. lia.
      * exists (p :: skipped). cbn. rewrite <- Hskipped. reflexivity.
    + split; [cbn; lia|]. split; [reflexivity|]. exists []. reflexivity.
Qed.

(** On a byte of payload, [operator*] reads that byte and [operator++] moves
    to the byte that follows it in the content. *)
Lemma increment_spec (it : FlowBufferContentIter) (p : Packet) (next : list Packet) :
  entry it = p :: next ->
  Forall buffered (entry it) ->
  onPayload it ->
  exists (b : byte) (it' : FlowBufferContentIter),
    dereference it = Some b /\
    payload p !! Z.to_nat (offsetInPacket it) = Some b /\
    increment it = Some it' /\
    remaining it = b :: remaining it' /\
    onPayload it' /\
    exists skipped, entry it = skipped ++ entry it'.
Proof.
  intros He Hbuf Hon. unfold onPayload in Hon. rewrite He in Hon, Hbuf.
  destruct Hon as [Hoff Hlt].
  pose proof Hbuf as Hbuf'. apply Forall_cons in Hbuf' as [[Hco Hlen] _].
  unfold is_u16 in Hco. unfold packet_length in Hlt, Hlen.
  destruct (lookup_lt_is_Some_2 (data p)
              (Z.to_nat (getContentOffset p + offsetInPacket it))) as [b Hb].
  { lia. }
  destruct (skipConsumed_spec (p :: next) (offsetInPacket it + 1) Hbuf)
    as (Hon' & Hrem' & Hskipped); [lia | lia |].
  exists b, (skipConsumed (p :: next) (offsetInPacket it + 1)).
  split.
  { unfold dereference. rewrite He. cbv zeta.
    replace (0 <=? getContentOffset p + offsetInPacket it) with true
      by (symmetry; apply Z.leb_le; lia).
    replace (getContentOffset p + offsetInPacket it <? packet_length p) with true
      by (symmetry; apply Z.ltb_lt; unfold packet_length; lia).
    exact Hb. }
  split.
  { unfold payload. rewrite lookup_drop, <- Hb. f_equal. lia. }
  split.
  { unfold increment. rewrite He. rewrite u32_id by (unfold is_u32; lia).
    reflexivity. }
  split.
  { rewrite Hrem'. unfold remaining. rewrite He. cbn [entry offsetInPacket].
    rewrite (drop_S _ _ _ Hb). cbn. do 3 f_equal. lia. }
  split; [exact Hon'|]. rewrite He. exact Hskipped.
Qed.

Lemma reached_invariant (fb : FlowBuffer) (pos : Z) (it : FlowBufferContentIter) :
  Forall buffered fb ->
  0 <= pos < 2 ^ 31 ->
  reached fb pos it ->
  onPayload it /\ exists skipped, fb = skipped ++ entry it.
Proof.
  intros Hbuf Hpos Hreach. induction Hreach as [|it it' _ IH Hinc].
  - unfold contentIter. rewrite u32_id by (unfold is_u32; lia).
    destruct (skipConsumed_spec fb pos Hbuf) as (Hon & _ & Hskipped); [lia | |].
    + destruct Hbuf as [|p next [Hco _] _]; [exact I|]. unfold is_u16 in Hco. lia.
    + split; assumption.
  - destruct IH as (Hon & skipped & Hskipped).
    destruct (entry it) as [|p next] eqn:He.
    { unfold increment in Hinc. rewrite He in Hinc. discriminate. }
    assert (Hbuf' : Forall buffered (entry it)).
    { rewrite He. rewrite Hskipped in Hbuf. apply Forall_app in Hbuf as [_ Hbuf].
      exact Hbuf. }
    destruct (increment_spec it p next He Hbuf' Hon)
      as (b & it1 & _ & _ & Hinc1 & _ & Hon1 & skipped1 & Hskipped1).
    rewrite Hinc in Hinc1. inversion Hinc1; subst it1.
    split; [exact Hon1|]. exists (skipped ++ skipped1).
    rewrite Hskipped, <- app_assoc. f_equal. rewrite <- He. exact Hskipped1.
Qed.

(** C10, amended: for a buffer of packets and a content iterator constructed
    at a non-negative position of its first packet, after the construction
    and after every increment the iterator has a null entry or is on a
    packet [p] of the buffer with
    [getContentOffset p + offsetInPacket < length p], the sum taken without
    wrap-around; that packet has payload, and dereferencing the iterator
    yields the payload byte at [offsetInPacket]. *)
Theorem content_iterator_stays_on_payload
    (fb : FlowBuffer) (pos : Z) (it : FlowBufferContentIter) :
  Forall buffered fb ->
  0 <= pos < 2 ^ 31 ->
  reached fb pos it ->
  match entry it with
  | [] => True
  | p :: _ =>
      In p fb /\
      0 <= offsetInPacket it /\
      getContentOffset p + offsetInPacket it < packet_length p /\
      (0 < List.length (payload p))%nat /\
      exists b : byte,
        dereference it = Some b /\
        payload p !! Z.to_nat (offsetInPacket it) = Some b
  end.
Proof.
  intros Hbuf Hpos Hreach.
  destruct (reached_invariant fb pos it Hbuf Hpos Hreach) as (Hon & skipped & Hskipped).
  destruct (entry it) as [|p next] eqn:He; [exact I|].
  assert (Hbuf' : Forall buffered (entry it)).
  { rewrite He. rewrite Hskipped in Hbuf. apply Forall_app in Hbuf as [_ Hbuf].
    exact Hbuf. }
  destruct (increment_spec it p next He Hbuf' Hon)
    as (b & it1 & Hderef & Hpayload & _).
  unfold onPayload in Hon. rewrite He in Hon. destruct Hon as [Hoff Hlt].
  split; [rewrite Hskipped; apply in_or_app; right; left; reflexivity|].
  split; [exact Hoff|]. split; [exact Hlt|]. split.
  - apply lookup_lt_Some in Hpayload. lia.
  - exists b. split; assumption.
Qed.

(** *** The search on the bytes of the content *)

Lemma compareAt_remaining (pattern : list byte) (it : FlowBufferContentIter) :
  Forall buffered (entry it) ->
  onPayload it ->
  compareAt it pattern = compareList (remaining it) pattern.
Proof.
  revert it. induction pattern as [|c pattern' IH]; intros it Hbuf Hon.
  - reflexivity.
  - cbn [compareAt compareList]. unfold notNull.
    destruct (entry it) as [|p next] eqn:He.
    + unfold remaining. rewrite He. reflexivity.
    + assert (Hbuf0 : Forall buffered (entry it)) by (rewrite He; exact Hbuf).
      destruct (increment_spec it p next He Hbuf0 Hon)
        as (b & it' & -> & _ & -> & -> & Hon' & skipped & Hskipped).
      destruct (Byte.eqb b c); [|reflexivity].
      apply IH; [|exact Hon'].
      rewrite Hskipped in Hbuf0. apply Forall_app in Hbuf0 as [_ Hbuf0]. exact Hbuf0.
Qed.

Lemma search_remaining (pattern : list byte) (fuel : nat) (it : FlowBufferContentIter) :
  Forall buffered (entry it) ->
  onPayload it ->
  (List.length (remaining it) < fuel)%nat ->
  (search fuel it pattern).2 = searchList (remaining it) pattern.
Proof.
  revert it. induction fuel as [|fuel' IH]; intros it Hbuf Hon Hfuel; [lia|].
  cbn [search]. unfold notNull.
  destruct (entry it) as [|p next] eqn:He.
  - unfold remaining. rewrite He. reflexivity.
  - assert (Hbuf0 : Forall buffered (entry it)) by (rewrite He; exact Hbuf).
    rewrite (compareAt_remaining pattern it Hbuf0 Hon).
    destruct (increment_spec it p next He Hbuf0 Hon)
      as (b & it' & _ & _ & Hinc & Hrem & Hon' & skipped & Hskipped).
    rewrite Hinc, Hrem. cbn [searchList]. rewrite <- Hrem.
    destruct (compareList (remaining it) pattern); [reflexivity | reflexivity |].
    apply IH; [|exact Hon'|].
    + rewrite Hskipped in Hbuf0. apply Forall_app in Hbuf0 as [_ Hbuf0]. exact Hbuf0.
    + rewrite Hrem in Hfuel. cbn [List.length] in Hfuel. lia.
Qed.

Lemma searchInFlow_searchList (fb : FlowBuffer) (pattern : list byte) :
  Forall buffered fb ->
  searchInFlow fb pattern = searchList (content fb) pattern.
Proof.
  intros Hbuf. unfold searchInFlow, contentBegin, contentIter.
  change (u32 0) with 0.
  destruct (skipConsumed_spec fb 0 Hbuf) as (Hon & Hrem & skipped & Hskipped).
  { lia. }
  { destruct Hbuf as [|p next [Hco _] _]; [exact I|]. unfold is_u16 in Hco. lia. }
  rewrite remaining_first in Hrem.
  rewrite search_remaining.
  - rewrite Hrem. reflexivity.
  - rewrite Hskipped in Hbuf. apply Forall_app in Hbuf as [_ Hbuf]. exact Hbuf.
  - exact Hon.
  - rewrite Hrem. lia.
Qed.

Lemma compareList_Found (content pattern : list byte) :
  compareList content pattern = Found <-> exists after, content = pattern ++ after.
Proof.
  revert content. induction pattern as [|c pattern' IH]; intros content.
  - cbn. split; [intros _; exists content; reflexivity | reflexivity].
  - cbn [compareList]. destruct content as [|b rest].
    + split; [discriminate | intros [after Habs]; discriminate].
    + destruct (Byte.eqb b c) eqn:Hbc.
      * apply Byte.byte_dec_bl in Hbc as ->. rewrite IH. split.
        -- intros [after ->]. exists after. reflexivity.
        -- intros [after Heq]. inversion Heq. exists after. reflexivity.
      * apply Byte.eqb_false in Hbc. split; [discriminate|].
        intros [after Heq]. inversion Heq. contradiction.
Qed.

Lemma compareList_RanOut (content pattern : list byte) :
  compareList content pattern = RanOut <->
  exists rest, rest <> [] /\ pattern = content ++ rest.
Proof.
  revert content. induction pattern as [|c pattern' IH]; intros content.
  - cbn. split; [discriminate|]. intros (rest & Hne & Heq).
    destruct content; [|discriminate]. cbn in Heq. subst. contradiction.
  - cbn [compareList]. destruct content as [|b rest].
    + split; [intros _; exists (c :: pattern'); split; [discriminate|reflexivity]
             | reflexivity].
    + destruct (Byte.eqb b c) eqn:Hbc.
      * apply Byte.byte_dec_bl in Hbc as ->. rewrite IH. split.
        -- intros (r & Hne & ->). exists r. split; [exact Hne|reflexivity].
        -- intros (r & Hne & Heq). inversion Heq. exists r. split; [exact Hne|reflexivity].
      * apply Byte.eqb_false in Hbc. split; [discriminate|].
        intros (r & _ & Heq). inversion Heq. congruence.
Qed.

Lemma occursIn_length (pattern content : list byte) :
  occursIn pattern content -> (List.length pattern <= List.length content)%nat.
Proof. intros (before & after & ->). rewrite !length_app. lia. Qed.

Lemma occursIn_cons (pattern : list byte) (b : byte) (rest : list byte) :
  compareList (b :: rest) pattern = Mismatch ->
  occursIn pattern (b :: rest) <-> occursIn pattern rest.
Proof.
  intros Hmis. split.
  - intros ([|b' before] & after & Heq).
    + assert (Hfound : compareList (b :: rest) pattern = Found).
      { apply compareList_Found. exists after. exact Heq. }
      congruence.
    + inversion Heq. exists before, after. reflexivity.
  - intros (before & after & ->). exists (b :: before), after. reflexivity.
Qed.

Lemma prefixAtEnd_cons (pattern : list byte) (b : byte) (rest : list byte) :
  compareList (b :: rest) pattern = Mismatch ->
  prefixAtEnd pattern (b :: rest) <-> prefixAtEnd pattern rest.
Proof.
  intros Hmis. split.
  - intros (k & [|b' before] & Hk & Heq).
    + assert (Hout : compareList (b :: rest) pattern = RanOut).
      { apply compareList_RanOut. exists (drop k pattern). split.
        - intros Hnil. apply (f_equal List.length) in Hnil.
          rewrite length_drop in Hnil. cbn in Hnil. lia.
        - cbn [app] in Heq. rewrite Heq. symmetry. apply take_drop. }
      congruence.
    + inversion Heq. exists k, before. split; [exact Hk|reflexivity].
  - intros (k & before & Hk & ->). exists k, (b :: before).
    split; [exact Hk|reflexivity].
Qed.

(** The three answers of the search, on the bytes of the content. *)
Lemma searchList_spec (pattern content : list byte) :
  pattern <> [] ->
  (searchList content pattern = 1 /\ occursIn pattern content) \/
  (searchList content pattern = 0 /\
     ~ occursIn pattern content /\ prefixAtEnd pattern content) \/
  (searchList content pattern = -1 /\
     ~ occursIn pattern content /\ ~ prefixAtEnd pattern content).
Proof.
  intros Hpat. induction content as [|b rest IH].
  - right. right. split; [reflexivity|]. split.
    + intros Hocc. apply occursIn_length in Hocc.
      destruct pattern; [contradiction | cbn in Hocc; lia].
    + intros (k & before & Hk & Heq). apply (f_equal List.length) in Heq.
      rewrite length_app, length_take in Heq. cbn in Heq. lia.
  - cbn [searchList]. destruct (compareList (b :: rest) pattern) eqn:Hcmp.
    + left. split; [reflexivity|].
      apply compareList_Found in Hcmp as [after Heq].
      exists [], after. exact Heq.
    + right. left. split; [reflexivity|].
      apply compareList_RanOut in Hcmp as (r & Hne & Heq). split.
      * intros Hocc. apply occursIn_length in Hocc.
        rewrite Heq, length_app in Hocc.
        destruct r; [contradiction | cbn in Hocc; lia].
      * exists (List.length (b :: rest)), []. split.
        -- rewrite Heq, length_app. destruct r; [contradiction | cbn; lia].
        -- rewrite Heq, take_app_length. reflexivity.
    + rewrite (occursIn_cons pattern b rest Hcmp).
      rewrite (prefixAtEnd_cons pattern b rest Hcmp). exact IH.
Qed.

(** C9: on a buffer of packets and for a non-empty pattern, [searchInFlow]
    returns 1 exactly when the pattern appears wholly inside the buffered
    content, 0 exactly when it does not but a non-empty proper prefix of it
    is a suffix of the content, and -1 exactly in the remaining case. *)
Theorem searchInFlow_ternary (fb : FlowBuffer) (pattern : list byte) :
  Forall buffered fb ->
  pattern <> [] ->
  (searchInFlow fb pattern = 1 <-> occursIn pattern (content fb)) /\
  (searchInFlow fb pattern = 0 <->
     ~ occursIn pattern (content fb) /\ prefixAtEnd pattern (content fb)) /\
  (searchInFlow fb pattern = -1 <->
     ~ occursIn pattern (content fb) /\ ~ prefixAtEnd pattern (content fb)).
Proof.
  intros Hbuf Hpat. rewrite (searchInFlow_searchList fb pattern Hbuf).
  destruct (searchList_spec pattern (content fb) Hpat)
    as [[-> Hocc] | [[-> [Hno Hpre]] | [-> [Hno Hnpre]]]].
  - repeat split; try discriminate; try tauto.
  - repeat split; try discriminate; try tauto.
  - repeat split; try discriminate; try tauto.
Qed.

(** *** The search and the iterator on the buffer of three packets *)

Lemma buffered_examples : Forall buffered [pureAck; foo; bar].
Proof. repeat constructor; cbn; lia. Qed.

Example search_found : searchInFlow [pureAck; foo; bar] ooba = 1.
Proof. vm_compute. reflexivity. Qed.

Example search_could_begin : searchInFlow [pureAck; foo; bar] arch = 0.
Proof. vm_compute. reflexivity. Qed.

Example search_absent : searchInFlow [pureAck; foo; bar] zzz = -1.
Proof. vm_compute. reflexivity. Qed.

Lemma searchInFlow_ternary_across_packets :
  (searchInFlow [pureAck; foo; bar] ooba = 1 <->
     occursIn ooba (content [pureAck; foo; bar])) /\
  (searchInFlow [pureAck; foo; bar] ooba = 0 <->
     ~ occursIn ooba (content [pureAck; foo; bar]) /\
     prefixAtEnd ooba (content [pureAck; foo; bar])) /\
  (searchInFlow [pureAck; foo; bar] ooba = -1 <->
     ~ occursIn ooba (content [pureAck; foo; bar]) /\
     ~ prefixAtEnd ooba (content [pureAck; foo; bar])).
Proof.
  apply (searchInFlow_ternary [pureAck; foo; bar] ooba).
  - repeat constructor; cbn; lia.
  - discriminate.
Defined.

(** The iterator constructed on the pure ACK moves on to the first byte of
    "FOO". *)
Lemma content_iterator_skips_the_pure_ack :
  match entry (contentIter [pureAck; foo; bar] 0) with
  | [] => True
  | p :: _ =>
      In p [pureAck; foo; bar] /\
      0 <= offsetInPacket (contentIter [pureAck; foo; bar] 0) /\
      getContentOffset p + offsetInPacket (contentIter [pureAck; foo; bar] 0)
        < packet_length p /\
      (0 < List.length (payload p))%nat /\
      exists b : byte,
        dereference (contentIter [pureAck; foo; bar] 0) = Some b /\
        payload p !! Z.to_nat (offsetInPacket (contentIter [pureAck; foo; bar] 0))
          = Some b
  end.
Proof.
  apply (content_iterator_stays_on_payload [pureAck; foo; bar] 0).
  - repeat constructor; cbn; lia.
  - lia.
  - constructor.
Defined.

Example content_iterator_first_byte :
  entry (contentIter [pureAck; foo; bar] 0) = [foo; bar] /\
  dereference (contentIter [pureAck; foo; bar] 0) = Some Byte.x46.
Proof. split; vm_compute; reflexivity. Qed.

(** C10 as stated fails for a negative position: the [int] -1 becomes the
    offset 4294967295, the 32-bit sum with the content offset 40 is 39,
    below the length 40 of a packet without payload, and the loop leaves the
    iterator on that packet; the byte it designates is not in the packet. *)
Lemma negative_position_rests_on_packet_without_payload :
  entry (contentIter [pureAck] (-1)) = [pureAck] /\
  offsetInPacket (contentIter [pureAck] (-1)) = 4294967295 /\
  payload pureAck = [] /\
  packet_length pureAck
    <= getContentOffset pureAck + offsetInPacket (contentIter [pureAck] (-1)) /\
  dereference (contentIter [pureAck] (-1)) = None.
Proof.
  split; [reflexivity|]. split; [reflexivity|]. split; [reflexivity|].
  split; [vm_compute; discriminate | reflexivity].
Qed.


(** *** Walking the content *)

(** The loop of a reader of the content: while the iterator is not null,
    read the byte with [operator*] and move with [operator++]; at most
    [fuel] times round. *)
Fixpoint walk (fuel : nat) (it : FlowBufferContentIter) : list byte :=
  match fuel with
  | O => []
  | S fuel' =>
      if notNull it then
        match dereference it, increment it with
        | Some b, Some it' => b :: walk fuel' it'
        | _, _ => []
        end
      else []
  end.

Lemma walk_remaining (fuel : nat) (it : FlowBufferContentIter) :
  Forall buffered (entry it) ->
  onPayload it ->
  (List.length (remaining it) <= fuel)%nat ->
  walk fuel it = remaining it.
Proof.
  revert it. induction fuel as [|fuel IH]; intros it Hbuf Hon Hfuel.
  - destruct (remaining it); [reflexivity|cbn in Hfuel; lia].
  - cbn [walk]. destruct (entry it) as [|p next] eqn:He.
    + unfold notNull, remaining. rewrite He. reflexivity.
    + unfold notNull. rewrite He. rewrite <- He in Hbuf.
      destruct (increment_spec it p next He Hbuf Hon)
        as (b & it' & -> & _ & -> & Hrem & Hon' & skipped & Hskipped).
      rewrite Hrem. f_equal. apply IH.
      * rewrite Hskipped in Hbuf. apply Forall_app in Hbuf. tauto.
      * exact Hon'.
      * rewrite Hrem in Hfuel. cbn in Hfuel. lia.
Qed.

Lemma remaining_payload (p : Packet) (next : list Packet) (off : Z) :
  0 <= getContentOffset p -> 0 <= off ->
  remaining (mkIter (p :: next) off)
  = drop (Z.to_nat off) (payload p) ++ content next.
Proof.
  intros Hco Hoff. unfold remaining, payload. cbn [entry offsetInPacket].
  rewrite drop_drop. do 2 f_equal. lia.
Qed.

(** Reading with [operator*] and moving with [operator++] from the
    iterator constructed at position [pos] of the first packet until the
    iterator is null gives the payload of the first packet from [pos] on,
    followed by the payloads of the packets after it, in order and without
    the headers: packets without payload contribute nothing, and the walk
    ends after as many steps as there are such bytes. *)
Theorem content_iterator_reads_the_payloads
    (p : Packet) (next : list Packet) (pos : Z) (fuel : nat) :
  Forall buffered (p :: next) ->
  0 <= pos < 2 ^ 31 ->
  (List.length (content (p :: next)) <= fuel)%nat ->
  walk fuel (contentIter (p :: next) pos)
  = drop (Z.to_nat pos) (payload p) ++ content next.
Proof.
  intros Hbuf Hpos Hfuel.
  pose proof Hbuf as Hbuf'. apply Forall_cons in Hbuf' as [[Hco Hlen] _].
  unfold is_u16 in Hco. unfold contentIter.
  rewrite u32_id by (unfold is_u32; lia).
  destruct (skipConsumed_spec (p :: next) pos Hbuf) as (Hon & Hrem & skipped & Hskipped);
    [lia | lia |].
  rewrite <- (remaining_payload p next pos) by lia.
  rewrite <- Hrem. apply walk_remaining.
  - rewrite Hskipped in Hbuf. apply Forall_app in Hbuf. tauto.
  - exact Hon.
  - rewrite Hrem, remaining_payload by lia.
    cbn [content flat_map] in Hfuel. rewrite length_app in *.
    rewrite length_drop. unfold content. lia.
Qed.

Lemma walking_the_three_packets_reads_foobar :
  walk 6 (contentIter [pureAck; foo; bar] 0)
  = drop (Z.to_nat 0) (payload pureAck) ++ content [foo; bar].
Proof.
  apply content_iterator_reads_the_payloads.
  - repeat constructor; vm_compute; intros H; discriminate H.
  - lia.
  - vm_compute. lia.
Defined.

End FlowBuffer.


(** * IPMirror (elements/ip/ipmirror.cc)

    The element rewrites an IP packet a->b into b->a.  The packet is the
    fields of the IP header the element reads or writes, the two ports at
    the start of the transport header, the length of the packet (a
    [uint32_t]) and the offset of its transport header (an [int]).  The
    protocol numbers and the macro [IP_FIRSTFRAG] come from click_ip.h,
    which reads the fragment offset of the header: they are parameters
    here. *)

Module IPMirror.

Record Packet : Type := mkPacket {
  ip_src : Z;
  ip_dst : Z;
  ip_p : Z;
  ip_off : Z;
  uh_sport : Z;
  uh_dport : Z;
  length : Z;
  transport_header_offset : Z
}.

Section Mirror.

Variables IP_PROTO_TCP IP_PROTO_UDP : Z.
Variable IP_FIRSTFRAG : Z -> bool.

(** The test that guards the swap of the ports.  [length()] is a
    [uint32_t] and [transport_header_offset()] an [int]: the sum is an
    [int], converted to [unsigned] for the comparison, so that a transport
    header that starts before [data()] (a negative offset) compares as a
    huge offset and the ports are left alone. *)
Definition mirrorsPorts (p : Packet) : bool :=
  ((ip_p p =? IP_PROTO_TCP) || (ip_p p =? IP_PROTO_UDP))
  && IP_FIRSTFRAG (ip_off p)
  && (u32 (transport_header_offset p + 8) <=? length p).

(** [IPMirror::simple_action]. *)
Definition simple_action (p_in : Packet) : Packet :=
  let p := p_in in
  let tmpa := ip_src p in
  let p := mkPacket (ip_dst p) tmpa (ip_p p) (ip_off p) (uh_sport p) (uh_dport p)
                    (length p) (transport_header_offset p) in
  if mirrorsPorts p then
    let tmpp := uh_sport p in
    mkPacket (ip_src p) (ip_dst p) (ip_p p) (ip_off p) (uh_dport p) tmpp
             (length p) (transport_header_offset p)
  else p.

(** The 16-bit words of the two addresses and the two ports: the words of
    the IP header and of the TCP or UDP pseudo-header and header that the
    element writes. *)
Definition words (p : Packet) : list Z :=
  [Z.shiftr (ip_src p) 16; Z.land (ip_src p) 65535;
   Z.shiftr (ip_dst p) 16; Z.land (ip_dst p) 65535;
   uh_sport p; uh_dport p].

(** Mirroring twice gives the packet back: the test that guards the ports
    reads nothing that the element writes. *)
Theorem simple_action_involutive (p : Packet) :
  simple_action (simple_action p) = p.
Proof.
  unfold simple_action. cbv zeta.
  destruct p as [src dst proto off sport dport len tho].
  unfold mirrorsPorts. cbn [ip_src ip_dst ip_p ip_off uh_sport uh_dport length
    transport_header_offset].
  destruct (((proto =? IP_PROTO_TCP) || (proto =? IP_PROTO_UDP))
            && IP_FIRSTFRAG off && (u32 (tho + 8) <=? len)) eqn:Hmirror;
    cbn [ip_src ip_dst ip_p ip_off uh_sport uh_dport length transport_header_offset];
    rewrite Hmirror; reflexivity.
Qed.

(** The comment of the code, "new checksum is same as old checksum": the
    words the element writes are the words that were there, in another
    order, whichever branch is taken; a checksum, which adds the words of
    the header, is left as it was. *)
Theorem simple_action_permutes_the_words (p : Packet) :
  Permutation (words (simple_action p)) (words p).
Proof.
  unfold simple_action. cbv zeta.
  destruct (mirrorsPorts _); unfold words;
    cbn [ip_src ip_dst uh_sport uh_dport].
  - apply (Permutation_app (l := [_; _] ++ [_; _]) (l' := [_; _] ++ [_; _])
                           (m := [_; _]) (m' := [_; _])).
    + apply Permutation_app_comm.
    + apply perm_swap.
  - apply (Permutation_app (l := [_; _] ++ [_; _]) (l' := [_; _] ++ [_; _])
                           (m := [_; _]) (m' := [_; _])).
    + apply Permutation_app_comm.
    + reflexivity.
Qed.

End Mirror.

(** A TCP packet of 40 bytes whose transport header starts 20 bytes before
    [data()]: the sum [-20 + 8] is compared as [unsigned], the test fails
    and only the addresses are exchanged. *)
Example header_before_data_keeps_its_ports :
  simple_action 6 17 (fun off => Z.land off 8191 =? 0)
                (mkPacket 167772161 167772162 6 0 40000 80 40 (-20))
  = mkPacket 167772162 167772161 6 0 40000 80 40 (-20).
Proof. reflexivity. Qed.

(** The same packet with its transport header 20 bytes after [data()]:
    the ports are exchanged too. *)
Example header_in_data_swaps_its_ports :
  simple_action 6 17 (fun off => Z.land off 8191 =? 0)
                (mkPacket 167772161 167772162 6 0 40000 80 40 20)
  = mkPacket 167772162 167772161 6 0 80 40000 40 20.
Proof. reflexivity. Qed.

End IPMirror.
